(** * Paper_Guider: a verified model of [scrapper.py]

    The scraper has a static half (requests + BeautifulSoup: the catalog, the
    topic cards and the method tables) and a dynamic half (a Selenium driver:
    topic pages, method-group listings with pagination, paper pages opened in
    their own tab).  Both are embedded here as functions; the pages the code
    looks at are records that hold the answer to every query the code makes. *)

From Stdlib Require Import Ascii String NArith.
From Stdlib Require Import List Bool Arith Lia.
Import ListNotations.

(** ** Python strings *)

Module PyStr.

(** A [str] is the sequence of its characters; a character is its Unicode
    code point. *)
Definition pystr := list N.

(** The [str] of a literal. *)
Definition str (s : string) : pystr :=
  map N_of_ascii (list_ascii_of_string s).

Definition pystr_eq_dec : forall a b : pystr, {a = b} + {a <> b} :=
  list_eq_dec N.eq_dec.

Definition eqb (a b : pystr) : bool :=
  if pystr_eq_dec a b then true else false.

(** [str.isspace] on one character: U+0009..U+000D, U+001C..U+0020, U+0085,
    U+00A0, U+1680, U+2000..U+200A, U+2028, U+2029, U+202F, U+205F and
    U+3000. *)
Definition isspace (c : N) : bool :=
  ((9 <=? c) && (c <=? 13) || (28 <=? c) && (c <=? 32)
   || (c =? 133) || (c =? 160) || (c =? 5760)
   || (8192 <=? c) && (c <=? 8202)
   || (c =? 8232) || (c =? 8233) || (c =? 8239) || (c =? 8287)
   || (c =? 12288))%N.

Fixpoint lstrip (s : pystr) : pystr :=
  match s with
  | c :: s' => if isspace c then lstrip s' else s
  | [] => []
  end.

Fixpoint rstrip (s : pystr) : pystr :=
  match s with
  | c :: s' =>
      match rstrip s' with
      | [] => if isspace c then [] else [c]
      | t => c :: t
      end
  | [] => []
  end.

(** [s.strip()] *)
Definition strip (s : pystr) : pystr := rstrip (lstrip s).

(** [s.startswith(p)] *)
Fixpoint startswith (p s : pystr) : bool :=
  match p, s with
  | [], _ => true
  | a :: p', b :: s' => if N.eq_dec a b then startswith p' s' else false
  | _ :: _, [] => false
  end.

(** [sep in s] *)
Fixpoint contains (sep s : pystr) : bool :=
  startswith sep s ||
  match s with
  | [] => false
  | _ :: s' => contains sep s'
  end.

(** [s.split(sep, 1)] for a non-empty [sep]: cut at the leftmost occurrence,
    the list has one element when there is none. *)
Fixpoint split1 (sep s : pystr) : list pystr :=
  if startswith sep s then [[]; skipn (length sep) s]
  else match s with
       | [] => [[]]
       | c :: s' =>
           match split1 sep s' with
           | a :: l => (c :: a) :: l
           | [] => [[c]]
           end
       end.

(** [s.split()]: the maximal runs of non-space characters.  [cur] is the run
    being read, latest character first. *)
Fixpoint split_run (cur s : pystr) : list pystr :=
  match s with
  | [] => match cur with [] => [] | _ => [rev cur] end
  | c :: s' =>
      if isspace c
      then match cur with
           | [] => split_run [] s'
           | _ => rev cur :: split_run [] s'
           end
      else split_run (c :: cur) s'
  end.

Definition split (s : pystr) : list pystr := split_run [] s.

(** The first run of non-space characters of a string that starts with one. *)
Fixpoint token (s : pystr) : pystr :=
  match s with
  | c :: s' => if isspace c then [] else c :: token s'
  | [] => []
  end.

End PyStr.
Import PyStr.

(** ** Exceptions, results and what the program prints *)

Inductive exn :=
| AttributeError | TypeError | KeyError | IndexError | ValueError
| ConnectionError
| TimeoutException | NoSuchElementException | NoSuchWindowException.

Inductive outcome (A : Type) :=
| Ok (a : A)
| Raise (e : exn).
Arguments Ok {A} a.
Arguments Raise {A} e.

(** One constructor per [print] call of the source. *)
Inductive line :=
| PrintField (ml_field : pystr)                 (* print("-", ml_field) *)
| PrintTopic (topic_name : pystr)               (* print("---", topic_name) *)
| ErrorExtractingText (e : exn)
| PaperTitle (title : pystr)
| ExtractedText (text : pystr)
| ErrorProcessingBlackLinks (e : exn)
| NoAdditionalPage (e : exn)
| ErrorWaitingMethodImage (e : exn)
| ErrorExtractingMethodImageLink (e : exn)
| ProcessingMethodImageLink (link : pystr)
| ProcessingTopic (index : nat) (topic_url : pystr)
| TopicLinkMissing (index : nat)
| ResultsSaved (filename : pystr)
| ErrorSavingResults
| ScrapingCompleted.

Definition BASE_URL : pystr := str "https://paperswithcode.com".

(** [href if href.startswith("http") else BASE_URL + href] *)
Definition absolute (href : pystr) : pystr :=
  if startswith (str "http") href then href else BASE_URL ++ href.

(** ** The static half: requests and BeautifulSoup *)

Module Static.

(** The parsed topic page, as [get_topic_method_info] queries it. *)
Record topic_soup := {
  (* text of the first div.description-content *)
  description_content : option pystr;
  (* the first div.method-content, its first table, the table's tbody and
     the text of every td of every tr *)
  method_content : option (option (option (list (list pystr))))
}.

(** [span.next_sibling] *)
Inductive sibling :=
| NoSibling                 (* None *)
| TextNode (s : pystr)      (* a NavigableString *)
| TagNode.                  (* a Tag: [.strip] is not callable on it *)

(** A div.text-muted of a card. *)
Record muted := {
  span : option sibling;    (* find("span") and its next_sibling *)
  muted_text : pystr        (* .text *)
}.

(** A div.card of a card deck. *)
Record card := {
  h1 : option pystr;              (* text of find("h1") *)
  a : option (option pystr);      (* find("a") and its href attribute *)
  text_muted : list muted         (* find_all("div", class_="text-muted") *)
}.

(** A div.row.task-group-title of the catalog. *)
Record group := {
  h4 : option pystr;                (* text of find("h4") *)
  card_deck : option (list card)    (* find_next(card deck) and its cards *)
}.

Record web := {
  methods_page : option (list group);           (* GET BASE_URL/methods *)
  requests_get : pystr -> option topic_soup     (* GET of a topic link *)
}.

Record method_row := {
  mr_topic_name : pystr;
  mr_method : pystr;
  mr_year : pystr;
  mr_num_papers : pystr;
  mr_paper_name : option pystr
}.

Record topic_summary := {
  ts_topic_name : pystr;
  ts_ml_field : pystr;
  ts_num_methods : pystr;
  ts_num_papers : pystr;
  ts_topic_link : pystr
}.

Definition separator : pystr := str "


".

(** [method_name, paper = cols[0].split(sep, 1)] or
    [method_name, paper = cols[0], None]. *)
Definition split_cell (cell : pystr) : outcome (pystr * option pystr) :=
  if contains separator cell
  then match split1 separator cell with
       | [method_name; paper] => Ok (method_name, Some paper)
       | _ => Raise ValueError
       end
  else Ok (cell, None).

(** The body of [for row in rows] of [get_topic_method_info]; [row] holds the
    text of the row's td elements. *)
Definition parse_row (topic_name : pystr) (row : list pystr)
    (methods_list : list method_row) : outcome unit * list method_row :=
  let cols := map strip row in
  if 3 <=? length cols
  then match split_cell (nth 0 cols []) with
       | Ok (method_name, paper) =>
           (Ok tt,
            methods_list ++
              [{| mr_topic_name := topic_name;
                  mr_method := strip method_name;
                  mr_year := nth 1 cols [];
                  mr_num_papers := nth 2 cols [];
                  mr_paper_name := paper |}])
       | Raise e => (Raise e, methods_list)
       end
  else (Ok tt, methods_list).

Fixpoint parse_rows (topic_name : pystr) (rows : list (list pystr))
    (methods_list : list method_row) : outcome unit * list method_row :=
  match rows with
  | [] => (Ok tt, methods_list)
  | row :: rest =>
      match parse_row topic_name row methods_list with
      | (Ok _, methods_list') => parse_rows topic_name rest methods_list'
      | r => r
      end
  end.

(** [card.find("a")["href"]] *)
Definition card_href (c : card) : outcome pystr :=
  match a c with
  | None => Raise TypeError
  | Some None => Raise KeyError
  | Some (Some href) => Ok href
  end.

Section Fetch.
Variable w : web.

(** [get_topic_method_info]: the description and the list [methods_list] as
    the call leaves it. *)
Definition get_topic_method_info (topic_name : pystr) (c : card)
    (methods_list : list method_row)
    : outcome (option pystr) * list method_row :=
  match card_href c with
  | Raise e => (Raise e, methods_list)
  | Ok href =>
      let topic_link := BASE_URL ++ href in
      match requests_get w topic_link with
      | None => (Raise ConnectionError, methods_list)
      | Some topic_soup =>
          let description :=
            match description_content topic_soup with
            | Some text => Some (strip text)
            | None => None
            end in
          match method_content topic_soup with
          | Some (Some table) =>
              match table with
              | None => (Raise AttributeError, methods_list)
              | Some rows =>
                  match parse_rows topic_name rows methods_list with
                  | (Ok _, methods_list') => (Ok description, methods_list')
                  | (Raise e, methods_list') => (Raise e, methods_list')
                  end
              end
          | _ => (Ok description, methods_list)
          end
      end
  end.

(** [x.split()[0]] *)
Definition first_token (s : pystr) : outcome pystr :=
  match split s with
  | t :: _ => Ok t
  | [] => Raise IndexError
  end.

(** [card.find("div", class_="text-muted").find("span").next_sibling
       .strip().split()[0]] *)
Definition num_methods_of (c : card) : outcome pystr :=
  match text_muted c with
  | [] => Raise AttributeError
  | m :: _ =>
      match span m with
      | None => Raise AttributeError
      | Some NoSibling => Raise AttributeError
      | Some TagNode => Raise TypeError
      | Some (TextNode s) => first_token (strip s)
      end
  end.

(** [card.find_all("div", class_="text-muted")[1].text.strip().split()[0]] *)
Definition num_papers_of (c : card) : outcome pystr :=
  match text_muted c with
  | _ :: m :: _ => first_token (strip (muted_text m))
  | _ => Raise IndexError
  end.

(** The state of [fetch_initial_data]: the two lists and the output. *)
Record fetch_state := {
  extracted_info : list topic_summary;
  methods : list method_row;
  printed : list line
}.

(** The body of [for card in card_deck.find_all("div", class_="card")]. *)
Definition fetch_card (ml_field : pystr) (c : card) (st : fetch_state)
    : outcome unit * fetch_state :=
  match h1 c with
  | None => (Raise AttributeError, st)
  | Some text =>
      let topic_name := strip text in
      let out := printed st ++ [PrintTopic topic_name] in
      match get_topic_method_info topic_name c (methods st) with
      | (Raise e, ms) =>
          (Raise e, {| extracted_info := extracted_info st;
                       methods := ms; printed := out |})
      | (Ok topic_desc, ms) =>
          let st1 := {| extracted_info := extracted_info st;
                        methods := ms; printed := out |} in
          match num_methods_of c with
          | Raise e => (Raise e, st1)
          | Ok num_methods =>
              match num_papers_of c with
              | Raise e => (Raise e, st1)
              | Ok num_papers =>
                  match card_href c with
                  | Raise e => (Raise e, st1)
                  | Ok href =>
                      (Ok tt,
                       {| extracted_info :=
                            extracted_info st ++
                              [{| ts_topic_name := topic_name;
                                  ts_ml_field := ml_field;
                                  ts_num_methods := num_methods;
                                  ts_num_papers := num_papers;
                                  ts_topic_link := BASE_URL ++ href |}];
                          methods := ms;
                          printed := out |})
                  end
              end
          end
      end
  end.

Fixpoint fetch_cards (ml_field : pystr) (cards : list card)
    (st : fetch_state) : outcome unit * fetch_state :=
  match cards with
  | [] => (Ok tt, st)
  | c :: rest =>
      match fetch_card ml_field c st with
      | (Ok _, st') => fetch_cards ml_field rest st'
      | r => r
      end
  end.

(** The body of [for group in topic_groups]. *)
Definition fetch_group (g : group) (st : fetch_state)
    : outcome unit * fetch_state :=
  match h4 g with
  | None => (Raise AttributeError, st)
  | Some text =>
      let ml_field := strip text in
      let st1 := {| extracted_info := extracted_info st;
                    methods := methods st;
                    printed := printed st ++ [PrintField ml_field] |} in
      match card_deck g with
      | Some cards => fetch_cards ml_field cards st1
      | None => (Ok tt, st1)
      end
  end.

Fixpoint fetch_groups (topic_groups : list group) (st : fetch_state)
    : outcome unit * fetch_state :=
  match topic_groups with
  | [] => (Ok tt, st)
  | g :: rest =>
      match fetch_group g st with
      | (Ok _, st') => fetch_groups rest st'
      | r => r
      end
  end.

(** [fetch_initial_data]: the pair it returns, or the exception that leaves
    it, and what was printed until then. *)
Definition fetch_initial_data
    : outcome (list topic_summary * list method_row) * list line :=
  match methods_page w with
  | None => (Raise ConnectionError, [])
  | Some topic_groups =>
      match fetch_groups topic_groups
              {| extracted_info := []; methods := []; printed := [] |} with
      | (Ok _, st) => (Ok (extracted_info st, methods st), printed st)
      | (Raise e, st) => (Raise e, printed st)
      end
  end.

End Fetch.

End Static.

(** ** The dynamic half: the Selenium driver *)

Module Browser.

(** A rendered document, as the answers to the queries of the source.  A
    wait that is bounded by a timeout finds what the record holds and times
    out on what it lacks. *)
Record page := {
  (* div.paper-abstract, its div.col-md-12, the p inside and the p's text *)
  paper_abstract : option (option (option pystr));
  (* div.paper-title, its h1 and the h1's text *)
  paper_title : option (option pystr);
  (* the href attribute of every element of "div.black-links a" *)
  black_links : list (option pystr);
  (* li.paginate_button.page-item.next becomes clickable within the wait and
     the click goes through *)
  next_clickable : bool;
  (* find_elements("li.paginate_button.page-item.next.disabled") is not empty *)
  next_disabled : bool;
  (* every div.method-image: its first a, and that a's href *)
  method_image : list (option (option pystr))
}.

Definition blank : page :=
  {| paper_abstract := None; paper_title := None; black_links := [];
     next_clickable := false; next_disabled := false; method_image := [] |}.

(** A browser window: the document it shows and the documents that the
    successive clicks on the next-page control bring up. *)
Record tab := {
  shown : page;
  upcoming : list page
}.

Definition advance (t : tab) : tab :=
  match upcoming t with
  | p :: rest => {| shown := p; upcoming := rest |}
  | [] => t
  end.

(** The commands sent to the driver that change what it shows. *)
Inductive call :=
| Get (url : pystr)
| WindowOpen (url : pystr)
| SwitchTo (handle : nat)
| Close
| ClickNext.

Record driver := {
  windows : list (nat * tab);        (* the open windows, oldest first *)
  current_window_handle : nat;
  fresh : nat;                       (* the handle of the next new window *)
  stdout : list line;
  calls : list call
}.

Definition window_handles (d : driver) : list nat := map fst (windows d).

Fixpoint find_window (h : nat) (ws : list (nat * tab)) : option tab :=
  match ws with
  | [] => None
  | (h', t) :: rest => if h =? h' then Some t else find_window h rest
  end.

Fixpoint set_window (h : nat) (t : tab) (ws : list (nat * tab))
    : list (nat * tab) :=
  match ws with
  | [] => []
  | (h', t') :: rest =>
      if h =? h' then (h', t) :: rest else (h', t') :: set_window h t rest
  end.

Fixpoint remove_window (h : nat) (ws : list (nat * tab))
    : list (nat * tab) :=
  match ws with
  | [] => []
  | (h', t') :: rest =>
      if h =? h' then rest else (h', t') :: remove_window h rest
  end.

Definition current_tab (d : driver) : option tab :=
  find_window (current_window_handle d) (windows d).

(** *** A state and exception monad over the driver *)

Definition M (A : Type) : Type := driver -> outcome A * driver.

Definition ret {A} (x : A) : M A := fun d => (Ok x, d).

Definition raise {A} (e : exn) : M A := fun d => (Raise e, d).

Definition bind {A B} (m : M A) (k : A -> M B) : M B :=
  fun d =>
    match m d with
    | (Ok x, d') => k x d'
    | (Raise e, d') => (Raise e, d')
    end.

(** [try: m except Exception as e: h e] *)
Definition try_except {A} (m : M A) (h : exn -> M A) : M A :=
  fun d =>
    match m d with
    | (Ok x, d') => (Ok x, d')
    | (Raise e, d') => h e d'
    end.

Notation "x <- m ;; k" := (bind m (fun x => k))
  (at level 61, m at next level, right associativity).
Notation "m ;;; k" := (bind m (fun _ => k))
  (at level 61, right associativity).

Definition print (l : line) : M unit :=
  fun d =>
    (Ok tt,
     {| windows := windows d;
        current_window_handle := current_window_handle d;
        fresh := fresh d;
        stdout := stdout d ++ [l];
        calls := calls d |}).

Definition record (c : call) (d : driver) : driver :=
  {| windows := windows d;
     current_window_handle := current_window_handle d;
     fresh := fresh d;
     stdout := stdout d;
     calls := calls d ++ [c] |}.

(** The document of the current window; a closed window has none. *)
Definition current_page : M page :=
  fun d =>
    match current_tab d with
    | Some t => (Ok (shown t), d)
    | None => (Raise NoSuchWindowException, d)
    end.

(** [WebDriverWait(driver, n).until(EC.presence_of_element_located(q))] *)
Definition wait_element {A} (q : page -> option A) : M A :=
  p <- current_page ;;
  match q p with
  | Some x => ret x
  | None => raise TimeoutException
  end.

(** [WebDriverWait(driver, n).until(EC.presence_of_all_elements_located(q))] *)
Definition wait_elements {A} (q : page -> list A) : M (list A) :=
  p <- current_page ;;
  match q p with
  | [] => raise TimeoutException
  | l => ret l
  end.

(** [driver.find_element(q)] *)
Definition find_element {A} (q : page -> option A) : M A :=
  p <- current_page ;;
  match q p with
  | Some x => ret x
  | None => raise NoSuchElementException
  end.

(** [driver.find_elements(q)] *)
Definition find_elements {A} (q : page -> list A) : M (list A) :=
  p <- current_page ;;
  ret (q p).

(** [element.find_element(q)] *)
Definition child {A} (e : option A) : M A :=
  match e with
  | Some x => ret x
  | None => raise NoSuchElementException
  end.

Section Site.

(** What a URL shows when a window loads it. *)
Variable site : pystr -> tab.

(** [driver.get(url)] *)
Definition driver_get (url : pystr) : M unit :=
  fun d =>
    match current_tab d with
    | None => (Raise NoSuchWindowException, d)
    | Some _ =>
        (Ok tt,
         record (Get url)
           {| windows :=
                set_window (current_window_handle d) (site url) (windows d);
              current_window_handle := current_window_handle d;
              fresh := fresh d;
              stdout := stdout d;
              calls := calls d |})
    end.

(** [driver.execute_script("window.open(arguments[0]);", url)] *)
Definition window_open (url : pystr) : M unit :=
  fun d =>
    match current_tab d with
    | None => (Raise NoSuchWindowException, d)
    | Some _ =>
        (Ok tt,
         record (WindowOpen url)
           {| windows := windows d ++ [(fresh d, site url)];
              current_window_handle := current_window_handle d;
              fresh := S (fresh d);
              stdout := stdout d;
              calls := calls d |})
    end.

(** [driver.window_handles[-1]] *)
Definition last_handle : M nat :=
  fun d =>
    match rev (window_handles d) with
    | h :: _ => (Ok h, d)
    | [] => (Raise IndexError, d)
    end.

(** [driver.switch_to.window(h)] *)
Definition switch_to_window (h : nat) : M unit :=
  fun d =>
    match find_window h (windows d) with
    | None => (Raise NoSuchWindowException, d)
    | Some _ =>
        (Ok tt,
         record (SwitchTo h)
           {| windows := windows d;
              current_window_handle := h;
              fresh := fresh d;
              stdout := stdout d;
              calls := calls d |})
    end.

(** [driver.close()] *)
Definition close : M unit :=
  fun d =>
    match current_tab d with
    | None => (Raise NoSuchWindowException, d)
    | Some _ =>
        (Ok tt,
         record Close
           {| windows := remove_window (current_window_handle d) (windows d);
              current_window_handle := current_window_handle d;
              fresh := fresh d;
              stdout := stdout d;
              calls := calls d |})
    end.

(** [driver.current_window_handle] *)
Definition get_current_window_handle : M nat :=
  fun d =>
    match current_tab d with
    | None => (Raise NoSuchWindowException, d)
    | Some _ => (Ok (current_window_handle d), d)
    end.

(** [next_button = WebDriverWait(driver, 5).until(EC.element_to_be_clickable(
    next))] and [ActionChains(driver).move_to_element(next_button).click()
    .perform()] *)
Definition click_next : M unit :=
  fun d =>
    match current_tab d with
    | None => (Raise NoSuchWindowException, d)
    | Some t =>
        if next_clickable (shown t)
        then (Ok tt,
              record ClickNext
                {| windows :=
                     set_window (current_window_handle d) (advance t)
                       (windows d);
                   current_window_handle := current_window_handle d;
                   fresh := fresh d;
                   stdout := stdout d;
                   calls := calls d |})
        else (Raise TimeoutException, d)
    end.

(** *** [extract_text_from_page] *)

(** What the function returns: a pair of strings or a string. *)
Inductive extracted :=
| Pair (title text : pystr)
| Str (s : pystr).

Definition extract_text_from_page : M extracted :=
  try_except
    (abstract_div <- wait_element paper_abstract ;;
     title_div <- find_element paper_title ;;
     title <- child title_div ;;
     col_div <- child abstract_div ;;
     p_elem <- child col_div ;;
     ret (Pair (strip title) (strip p_elem)))
    (fun e =>
       print (ErrorExtractingText e) ;;;
       ret (Str [])).

(** [title, text = v]: a pair gives its components, a string its characters
    when there are exactly two. *)
Definition unpack2 (v : extracted) : M (pystr * pystr) :=
  match v with
  | Pair title text => ret (title, text)
  | Str [c1; c2] => ret ([c1], [c2])
  | Str _ => raise ValueError
  end.

(** *** [process_black_links] *)

(** The dictionary [{"title": [...], "text": [...]}]. *)
Record page_entry := {
  title : list pystr;
  text : list pystr
}.

Definition append_title (t : pystr) (e : page_entry) : page_entry :=
  {| title := title e ++ [t]; text := text e |}.

Definition append_text (t : pystr) (e : page_entry) : page_entry :=
  {| title := title e; text := text e ++ [t] |}.

(** The first loop: [urls] from the href attributes; [None.startswith]
    raises. *)
Fixpoint collect_urls (hrefs : list (option pystr)) (urls : list pystr)
    : outcome (list pystr) :=
  match hrefs with
  | [] => Ok urls
  | None :: _ => Raise AttributeError
  | Some href :: rest => collect_urls rest (urls ++ [absolute href])
  end.

(** The loop body up to the two prints. *)
Definition open_and_extract (url : pystr) : M (pystr * pystr) :=
  window_open url ;;;
  h <- last_handle ;;
  switch_to_window h ;;;
  v <- extract_text_from_page ;;
  tt' <- unpack2 v ;;
  print (PaperTitle (fst tt')) ;;;
  print (ExtractedText (snd tt')) ;;;
  ret tt'.

(** The loop body after the two appends. *)
Definition close_and_return (original_window : nat) : M unit :=
  close ;;;
  switch_to_window original_window.

(** [for url in urls]: the dictionary as the loop leaves it, and the
    exception that ended the loop when one did. *)
Fixpoint visit_urls (original_window : nat) (urls : list pystr)
    (extracted_texts : page_entry)
    : driver -> (page_entry * option exn) * driver :=
  fun d =>
    match urls with
    | [] => ((extracted_texts, None), d)
    | url :: rest =>
        match open_and_extract url d with
        | (Raise e, d1) => ((extracted_texts, Some e), d1)
        | (Ok (title, text), d1) =>
            let extracted_texts1 := append_title title extracted_texts in
            let extracted_texts2 := append_text text extracted_texts1 in
            match close_and_return original_window d1 with
            | (Raise e, d2) => ((extracted_texts2, Some e), d2)
            | (Ok _, d2) => visit_urls original_window rest extracted_texts2 d2
            end
        end
    end.

(** The try block before the second loop. *)
Definition links_and_window : M (list pystr * nat) :=
  wait_elements black_links ;;;
  link_elements <- find_elements black_links ;;
  match collect_urls link_elements [] with
  | Raise e => raise e
  | Ok urls =>
      original_window <- get_current_window_handle ;;
      ret (urls, original_window)
  end.

Definition process_black_links : M page_entry :=
  fun d =>
    let extracted_texts := {| title := []; text := [] |} in
    match links_and_window d with
    | (Raise e, d1) =>
        (Ok extracted_texts, snd (print (ErrorProcessingBlackLinks e) d1))
    | (Ok (urls, original_window), d1) =>
        match visit_urls original_window urls extracted_texts d1 with
        | ((extracted_texts', None), d2) => (Ok extracted_texts', d2)
        | ((extracted_texts', Some e), d2) =>
            (Ok extracted_texts',
             snd (print (ErrorProcessingBlackLinks e) d2))
        end
    end.

(** *** [process_method_image] *)

(** Where the while loop was left: its condition became false, the break
    on the disabled marker, the break of the except block. *)
Inductive exit_path := Ceiling | NextDisabled | NoNext.

(** The try block of the loop body; [true] when the disabled marker is
    found after the click. *)
Definition click_and_look : M bool :=
  click_next ;;;
  l <- find_elements (fun p => if next_disabled p then [tt] else []) ;;
  ret (match l with [] => false | _ => true end).

(** [while page_counter < 10]; [fuel] bounds the iterations, 10 are enough
    from [page_counter = 0]. *)
Fixpoint paginate (fuel page_counter : nat)
    (extracted_titles_texts : list page_entry)
    : M (exit_path * list page_entry) :=
  match fuel with
  | 0 => ret (Ceiling, extracted_titles_texts)
  | S fuel' =>
      if page_counter <? 10
      then
        extracted_contents <- process_black_links ;;
        let extracted_titles_texts' :=
          extracted_titles_texts ++ [extracted_contents] in
        fun d =>
          match click_and_look d with
          | (Raise e, d1) =>
              (Ok (NoNext, extracted_titles_texts'),
               snd (print (NoAdditionalPage e) d1))
          | (Ok true, d1) => (Ok (NextDisabled, extracted_titles_texts'), d1)
          | (Ok false, d1) =>
              paginate fuel' (page_counter + 1) extracted_titles_texts' d1
          end
      else ret (Ceiling, extracted_titles_texts)
  end.

(** The function with the way its loop ended. *)
Definition process_method_image_exit (method_image_url : pystr)
    : M (exit_path * list page_entry) :=
  driver_get method_image_url ;;;
  paginate 10 0 [].

Definition process_method_image (method_image_url : pystr)
    : M (list page_entry) :=
  r <- process_method_image_exit method_image_url ;;
  ret (snd r).

(** *** [process_topic_link] *)

(** A [dict] with string keys, in insertion order. *)
Definition dict (V : Type) : Type := list (pystr * V).

(** [d[k] = v] *)
Fixpoint dict_set {V} (k : pystr) (v : V) (d : dict V) : dict V :=
  match d with
  | [] => [(k, v)]
  | (k', v') :: rest =>
      if pystr_eq_dec k k' then (k', v) :: rest
      else (k', v') :: dict_set k v rest
  end.

Fixpoint dict_get {V} (k : pystr) (d : dict V) : option V :=
  match d with
  | [] => None
  | (k', v') :: rest => if pystr_eq_dec k k' then Some v' else dict_get k rest
  end.

Definition keys {V} (d : dict V) : list pystr := map fst d.

(** [for div in method_divs], each body in its own try block. *)
Fixpoint collect_method_links (method_divs : list (option (option pystr)))
    (method_links : list pystr) : M (list pystr) :=
  match method_divs with
  | [] => ret method_links
  | div :: rest =>
      r <- try_except
             (a_tag <- child div ;;
              match a_tag with
              | None => raise AttributeError
              | Some href => ret (method_links ++ [absolute href])
              end)
             (fun e =>
                print (ErrorExtractingMethodImageLink e) ;;;
                ret method_links) ;;
      collect_method_links rest r
  end.

(** [for link in method_links] *)
Fixpoint harvest_links (method_links : list pystr)
    (results : dict (list page_entry)) : M (dict (list page_entry)) :=
  match method_links with
  | [] => ret results
  | link :: rest =>
      print (ProcessingMethodImageLink link) ;;;
      titles_texts <- process_method_image link ;;
      harvest_links rest (dict_set link titles_texts results)
  end.

Definition process_topic_link (topic_url : pystr)
    : M (dict (list page_entry)) :=
  driver_get topic_url ;;;
  fun d =>
    match wait_elements method_image d with
    | (Raise e, d1) => (Ok [], snd (print (ErrorWaitingMethodImage e) d1))
    | (Ok _, d1) =>
        (divs <- find_elements method_image ;;
         let method_divs := firstn 20 divs in
         method_links <- collect_method_links method_divs [] ;;
         harvest_links method_links []) d1
    end.

End Site.

End Browser.

(** ** The [json] module on the values of the document

    [save_results] calls [json.dump] of Python's standard library; the
    encoder ([json/encoder.py]) and the reader that undoes it
    ([json/decoder.py], [json/scanner.py]) are embedded for the values that
    the document is made of. *)

Module Json.
Import Browser.

(** The Python values that the result document is made of. *)
#[local] Unset Elimination Schemes.
Inductive pyval :=
| PyNone
| PyStr (s : pystr)
| PyList (l : list pyval)
| PyDict (items : list (pystr * pyval)).
#[local] Set Elimination Schemes.

Local Open Scope N_scope.

(** *** [json.dump(data, f, ensure_ascii=False, indent=4)] *)

Definition hex_digit (n : N) : N := if n <? 10 then 48 + n else 87 + n.

(** [ESCAPE_DCT]: backslash, quote and the characters below U+0020; every
    other character is written as it is. *)
Definition escape_char (c : N) : pystr :=
  if c =? 92 then [92; 92]
  else if c =? 34 then [92; 34]
  else if c =? 8 then [92; 98]
  else if c =? 12 then [92; 102]
  else if c =? 10 then [92; 110]
  else if c =? 13 then [92; 114]
  else if c =? 9 then [92; 116]
  else if c <? 32 then [92; 117; 48; 48; hex_digit (c / 16); hex_digit (c mod 16)]
  else [c].

(** [encode_basestring] *)
Definition encode_basestring (s : pystr) : pystr :=
  34 :: flat_map escape_char s ++ [34].

(** ['\n' + ' ' * (4 * level)] *)
Definition newline_indent (level : nat) : pystr :=
  10 :: repeat 32 (4 * level)%nat.

(** [separator.join(chunks)] *)
Definition joined (separator : pystr) (chunks : list pystr) : pystr :=
  match chunks with
  | [] => []
  | c :: cs => c ++ flat_map (fun x => separator ++ x) cs
  end.

(** [_iterencode] at an indentation level, the chunks concatenated; the
    item separator is [","], the key separator [": "]. *)
Fixpoint iterencode (v : pyval) (level : nat) : pystr :=
  match v with
  | PyNone => str "null"
  | PyStr s => encode_basestring s
  | PyList [] => str "[]"
  | PyList l =>
      [91] ++ newline_indent (S level) ++
      joined (44 :: newline_indent (S level))
        (map (fun x => iterencode x (S level)) l) ++
      newline_indent level ++ [93]
  | PyDict [] => str "{}"
  | PyDict items =>
      [123] ++ newline_indent (S level) ++
      joined (44 :: newline_indent (S level))
        (map (fun kv =>
                encode_basestring (fst kv) ++ [58; 32] ++
                iterencode (snd kv) (S level)) items) ++
      newline_indent level ++ [125]
  end.

Definition json_dumps (v : pyval) : pystr := iterencode v 0.

(** *** [json.load]: strings, arrays, objects and [null]; the literals that
    the document never holds (numbers, [true], [false]) are not read. *)

(** [WHITESPACE = '[ \t\n\r]*'] *)
Definition is_ws (c : N) : bool :=
  (c =? 32) || (c =? 9) || (c =? 10) || (c =? 13).

Fixpoint skip_ws (s : pystr) : pystr :=
  match s with
  | c :: s' => if is_ws c then skip_ws s' else s
  | [] => []
  end.

Definition hex_value (c : N) : option N :=
  if (48 <=? c) && (c <=? 57) then Some (c - 48)
  else if (97 <=? c) && (c <=? 102) then Some (c - 87)
  else if (65 <=? c) && (c <=? 70) then Some (c - 55)
  else None.

Definition decode_hex4 (a b c d : N) : option N :=
  match hex_value a, hex_value b, hex_value c, hex_value d with
  | Some x, Some y, Some z, Some w => Some (((x * 16 + y) * 16 + z) * 16 + w)
  | _, _, _, _ => None
  end.

(** [BACKSLASH] *)
Definition backslash (esc : N) : option N :=
  if esc =? 34 then Some 34
  else if esc =? 92 then Some 92
  else if esc =? 47 then Some 47
  else if esc =? 98 then Some 8
  else if esc =? 102 then Some 12
  else if esc =? 110 then Some 10
  else if esc =? 114 then Some 13
  else if esc =? 116 then Some 9
  else None.

Definition is_high_surrogate (c : N) : bool := (55296 <=? c) && (c <=? 56319).
Definition is_low_surrogate (c : N) : bool := (56320 <=? c) && (c <=? 57343).
Definition join_surrogates (hi lo : N) : N :=
  65536 + (hi - 55296) * 1024 + (lo - 56320).

Definition prepend (c : N) (r : option (pystr * pystr))
    : option (pystr * pystr) :=
  match r with
  | Some (x, rest) => Some (c :: x, rest)
  | None => None
  end.

(** [scanstring] in strict mode, from behind the opening quote: the string
    and what follows its closing quote. *)
Fixpoint scanstring (s : pystr) : option (pystr * pystr) :=
  match s with
  | [] => None
  | c :: s1 =>
      if c =? 34 then Some ([], s1)
      else if c =? 92 then
        match s1 with
        | [] => None
        | esc :: s2 =>
            if esc =? 117 then
              match s2 with
              | a :: b :: c' :: d :: s3 =>
                  match decode_hex4 a b c' d with
                  | None => None
                  | Some uni =>
                      match s3 with
                      | b1 :: b2 :: a2 :: b3 :: c2 :: d2 :: s4 =>
                          if is_high_surrogate uni && (b1 =? 92)
                             && (b2 =? 117)
                          then
                            match decode_hex4 a2 b3 c2 d2 with
                            | None => None
                            | Some uni2 =>
                                if is_low_surrogate uni2
                                then prepend (join_surrogates uni uni2)
                                       (scanstring s4)
                                else prepend uni (scanstring s3)
                            end
                          else prepend uni (scanstring s3)
                      | _ => prepend uni (scanstring s3)
                      end
                  end
              | _ => None
              end
            else
              match backslash esc with
              | Some ch => prepend ch (scanstring s2)
              | None => None
              end
        end
      else if c <? 32 then None
      else prepend c (scanstring s1)
  end.

(** [dict(pairs)] *)
Definition dict_of_pairs (pairs : list (pystr * pyval))
    : list (pystr * pyval) :=
  fold_left (fun acc kv => dict_set (fst kv) (snd kv) acc) pairs [].

(** [scan_once], [JSONArray] and [JSONObject]; [fuel] bounds the number of
    values read. *)
Fixpoint scan_once (fuel : nat) (s : pystr) : option (pyval * pystr) :=
  match fuel with
  | O => None
  | S fuel' =>
      match s with
      | [] => None
      | c :: s1 =>
          if c =? 34 then
            match scanstring s1 with
            | Some (x, rest) => Some (PyStr x, rest)
            | None => None
            end
          else if c =? 123 then
            match skip_ws s1 with
            | [] => None
            | c2 :: s2 =>
                if c2 =? 125 then Some (PyDict [], s2)
                else
                  match object_items fuel' (c2 :: s2) with
                  | Some (pairs, rest) =>
                      Some (PyDict (dict_of_pairs pairs), rest)
                  | None => None
                  end
            end
          else if c =? 91 then
            match skip_ws s1 with
            | [] => None
            | c2 :: s2 =>
                if c2 =? 93 then Some (PyList [], s2)
                else
                  match array_items fuel' (c2 :: s2) with
                  | Some (values, rest) => Some (PyList values, rest)
                  | None => None
                  end
            end
          else if c =? 110 then
            match s1 with
            | u :: l1 :: l2 :: rest =>
                if (u =? 117) && (l1 =? 108) && (l2 =? 108)
                then Some (PyNone, rest)
                else None
            | _ => None
            end
          else None
      end
  end
with array_items (fuel : nat) (s : pystr) : option (list pyval * pystr) :=
  match fuel with
  | O => None
  | S fuel' =>
      match scan_once fuel' s with
      | None => None
      | Some (value, s1) =>
          match skip_ws s1 with
          | [] => None
          | c :: s2 =>
              if c =? 93 then Some ([value], s2)
              else if c =? 44 then
                match array_items fuel' (skip_ws s2) with
                | Some (values, rest) => Some (value :: values, rest)
                | None => None
                end
              else None
          end
      end
  end
with object_items (fuel : nat) (s : pystr)
    : option (list (pystr * pyval) * pystr) :=
  match fuel with
  | O => None
  | S fuel' =>
      match s with
      | [] => None
      | q :: s1 =>
          if q =? 34 then
            match scanstring s1 with
            | None => None
            | Some (key, s2) =>
                match skip_ws s2 with
                | [] => None
                | c :: s3 =>
                    if c =? 58 then
                      match scan_once fuel' (skip_ws s3) with
                      | None => None
                      | Some (value, s4) =>
                          match skip_ws s4 with
                          | [] => None
                          | c2 :: s5 =>
                              if c2 =? 125 then Some ([(key, value)], s5)
                              else if c2 =? 44 then
                                match object_items fuel' (skip_ws s5) with
                                | Some (pairs, rest) =>
                                    Some ((key, value) :: pairs, rest)
                                | None => None
                                end
                              else None
                          end
                      end
                    else None
                end
            end
          else None
      end
  end.

(** [json.loads]: one value between optional white space. *)
Definition json_loads (s : pystr) : option pyval :=
  match scan_once (S (length s)) (skip_ws s) with
  | Some (v, rest) =>
      match skip_ws rest with
      | [] => Some v
      | _ => None
      end
  | None => None
  end.

Local Close Scope N_scope.

(** The values all of whose dictionaries have distinct keys, as every
    Python [dict] has. *)
Fixpoint distinct (l : list pystr) : bool :=
  match l with
  | [] => true
  | k :: rest => negb (existsb (eqb k) rest) && distinct rest
  end.

Fixpoint well_keyed (v : pyval) : bool :=
  match v with
  | PyNone | PyStr _ => true
  | PyList l => forallb well_keyed l
  | PyDict items =>
      distinct (map fst items) &&
      forallb (fun kv => well_keyed (snd kv)) items
  end.

(** The characters that the text of a value starts with. *)
Definition opens (c : N) : Prop :=
  c = 34%N \/ c = 91%N \/ c = 123%N \/ c = 110%N.

(** The number of values of a value. *)
Fixpoint size (v : pyval) : nat :=
  match v with
  | PyNone | PyStr _ => 1
  | PyList l => S (list_sum (map (fun x => S (size x)) l))
  | PyDict items => S (list_sum (map (fun kv => S (size (snd kv))) items))
  end.

(** A value whose text is read back, at any indentation level and before
    any text, by a reader with enough fuel. *)
Definition reads_back (v : pyval) : Prop :=
  well_keyed v = true ->
  forall level fuel rest,
    size v <= fuel ->
    scan_once fuel (iterencode v level ++ rest) = Some (v, rest).

End Json.

(** ** Predicates of the statements *)

Module Preds.
Import Static.

(** The lines that report progress, not a failure. *)
Definition progress_line (l : line) : Prop :=
  match l with
  | PrintField _ | PrintTopic _ => True
  | _ => False
  end.

(** A card that raises wherever it is parsed. *)
Definition card_fails (w : web) (c : card) : Prop :=
  forall ml_field st, exists e, fst (fetch_card w ml_field c st) = Raise e.

End Preds.
Import Preds.

(** ** The driver: derived notions *)

Module BrowserSpec.
Import Browser.

(** The driver with more output. *)
Definition printing (ls : list line) (d : driver) : driver :=
  {| windows := windows d;
     current_window_handle := current_window_handle d;
     fresh := fresh d;
     stdout := stdout d ++ ls;
     calls := calls d |}.

Definition is_click (c : call) : bool :=
  match c with ClickNext => true | _ => false end.

(** The number of clicks on the next-page control so far. *)
Definition clicks (d : driver) : nat := length (filter is_click (calls d)).

(** The current window is open and new handles are new. *)
Definition driver_ok (d : driver) : Prop :=
  (exists t, current_tab d = Some t) /\
  Forall (fun h => h < fresh d) (window_handles d).

(** [setup_driver()]: one window, nothing loaded. *)
Definition setup_driver : driver :=
  {| windows := [(0, {| shown := blank; upcoming := [] |})];
     current_window_handle := 0;
     fresh := 1;
     stdout := [];
     calls := [] |}.

(** The part of the driver that the navigation depends on. *)
Definition state_is (d : driver) (ws : list (nat * tab)) (cur fr n : nat)
    : Prop :=
  windows d = ws /\ current_window_handle d = cur /\ fresh d = fr /\
  clicks d = n.

Definition empty_entry : page_entry := {| title := []; text := [] |}.

Definition balanced (e : page_entry) : Prop :=
  length (title e) = length (text e).

(** The title and abstract that a paper page yields, when it has all of the
    abstract container, its column, its paragraph, the title container and
    its heading. *)
Definition extracts (p : page) : option (pystr * pystr) :=
  match paper_abstract p, paper_title p with
  | Some (Some (Some text)), Some (Some title) =>
      Some (strip title, strip text)
  | _, _ => None
  end.

Section Site.
Variable site : pystr -> tab.

Definition extracts_url (url : pystr) : bool :=
  match extracts (shown (site url)) with Some _ => true | None => false end.

(** The papers up to the first one that does not extract. *)
Fixpoint harvest (urls : list pystr) (e : page_entry) : page_entry :=
  match urls with
  | [] => e
  | url :: rest =>
      match extracts (shown (site url)) with
      | Some (title, text) =>
          harvest rest (append_text text (append_title title e))
      | None => e
      end
  end.

(** What [process_black_links] returns on a listing page. *)
Definition entry_of (p : page) : page_entry :=
  match black_links p with
  | [] => empty_entry
  | hrefs =>
      match collect_urls hrefs [] with
      | Ok urls => harvest urls empty_entry
      | Raise _ => empty_entry
      end
  end.

(** A listing page all of whose papers extract (or whose links cannot be
    read at all): harvesting it leaves the driver on the listing. *)
Definition clean (p : page) : bool :=
  match collect_urls (black_links p) [] with
  | Ok urls => forallb extracts_url urls
  | Raise _ => true
  end.

(** The pages that the loop of [process_method_image] harvests from a tab
    whose pages are clean, the way the loop ends and the clicks it makes. *)
Fixpoint walk (fuel page_counter : nat) (t : tab)
    : exit_path * list page * nat :=
  match fuel with
  | 0 => (Ceiling, [], 0)
  | S fuel' =>
      if page_counter <? 10
      then
        if next_clickable (shown t)
        then
          if next_disabled (shown (advance t))
          then (NextDisabled, [shown t], 1)
          else
            let '(ex, ps, k) := walk fuel' (page_counter + 1) (advance t) in
            (ex, shown t :: ps, S k)
        else (NoNext, [shown t], 0)
      else (Ceiling, [], 0)
  end.

(** A listing as the tab that its URL loads. *)
Definition listing (pages : list page) : tab :=
  match pages with
  | p :: rest => {| shown := p; upcoming := rest |}
  | [] => {| shown := blank; upcoming := [] |}
  end.

(** The entry link of a div.method-image, when it can be extracted. *)
Definition link_of (div : option (option pystr)) : option pystr :=
  match div with
  | Some (Some href) => Some (absolute href)
  | _ => None
  end.

Definition extracted_links (divs : list (option (option pystr)))
    : list pystr :=
  flat_map (fun div => match link_of div with
                       | Some l => [l]
                       | None => []
                       end) divs.

(** What is printed for a div.method-image whose link cannot be
    extracted. *)
Definition link_error (div : option (option pystr)) : list line :=
  match div with
  | None => [ErrorExtractingMethodImageLink NoSuchElementException]
  | Some None => [ErrorExtractingMethodImageLink AttributeError]
  | Some (Some _) => []
  end.

(** One call of [process_method_image] per link, in the order of the links,
    each starting from the driver that the previous call left. *)
Inductive runs : list pystr -> driver ->
                 list (pystr * list page_entry) -> driver -> Prop :=
| runs_nil (d : driver) : runs [] d [] d
| runs_cons (link : pystr) (rest : list pystr) (d d1 d2 : driver)
    (r : list page_entry) (outs : list (pystr * list page_entry)) :
    process_method_image site link
      (printing [ProcessingMethodImageLink link] d) = (Ok r, d1) ->
    runs rest d1 outs d2 ->
    runs (link :: rest) d ((link, r) :: outs) d2.

(** The assignments [results[link] = titles_texts], one after the other. *)
Definition assign_all (outs : list (pystr * list page_entry))
    (results : dict (list page_entry)) : dict (list page_entry) :=
  fold_left (fun acc kv => dict_set (fst kv) (snd kv) acc) outs results.

End Site.

End BrowserSpec.
Import BrowserSpec.

(** ** [main] and the result document *)

Module Main.
Import Static Browser Json.

(** The dictionaries of the document as Python values. *)
Definition topic_to_py (t : topic_summary) : pyval :=
  PyDict [(str "topic_name", PyStr (ts_topic_name t));
          (str "ml_field", PyStr (ts_ml_field t));
          (str "num_methods", PyStr (ts_num_methods t));
          (str "num_papers", PyStr (ts_num_papers t));
          (str "topic_link", PyStr (ts_topic_link t))].

Definition method_to_py (m : method_row) : pyval :=
  PyDict [(str "topic_name", PyStr (mr_topic_name m));
          (str "method", PyStr (mr_method m));
          (str "year", PyStr (mr_year m));
          (str "num_papers", PyStr (mr_num_papers m));
          (str "paper_name",
           match mr_paper_name m with
           | Some paper => PyStr paper
           | None => PyNone
           end)].

Definition entry_to_py (e : page_entry) : pyval :=
  PyDict [(str "title", PyList (map PyStr (title e)));
          (str "text", PyList (map PyStr (text e)))].

Definition group_to_py (r : list page_entry) : pyval :=
  PyList (map entry_to_py r).

Definition topic_results_to_py (results : dict (list page_entry)) : pyval :=
  PyDict (map (fun kv => (fst kv, group_to_py (snd kv))) results).

Definition overall_to_py (overall : dict (dict (list page_entry))) : pyval :=
  PyDict (map (fun kv => (fst kv, topic_results_to_py (snd kv))) overall).

(** [final_data] *)
Definition final_data (extracted_info : list topic_summary)
    (methods : list method_row)
    (overall_results : dict (dict (list page_entry))) : pyval :=
  PyDict [(str "topics_info", PyList (map topic_to_py extracted_info));
          (str "methods_info", PyList (map method_to_py methods));
          (str "detailed_results", overall_to_py overall_results)].

(** The characters that the UTF-8 codec of the output file encodes: the
    code points that are no surrogates. *)
Definition encodable (c : N) : bool :=
  ((c <? 55296) || ((57343 <? c) && (c <? 1114112)))%N.

(** [save_results]: the text of the file when the file could be opened and
    written in full, and what is printed. *)
Definition save_results (writable : bool) (filename : pystr) (data : pyval)
    : option pystr * list line :=
  if writable && forallb encodable (json_dumps data)
  then (Some (json_dumps data), [ResultsSaved filename])
  else (None, [ErrorSavingResults]).

Section Crawl.
Variable site : pystr -> tab.

(** [for index, item in enumerate(extracted_info)] *)
Fixpoint crawl_topics (index : nat) (items : list topic_summary)
    (overall_results : dict (dict (list page_entry)))
    : M (dict (dict (list page_entry))) :=
  match items with
  | [] => ret overall_results
  | item :: rest =>
      match ts_topic_link item with
      | [] =>
          print (TopicLinkMissing index) ;;;
          crawl_topics (S index) rest overall_results
      | topic_url =>
          print (ProcessingTopic (index + 1) topic_url) ;;;
          topic_results <- process_topic_link site topic_url ;;
          crawl_topics (S index) rest
            (dict_set topic_url topic_results overall_results)
      end
  end.

(** A run of the program: how it ends, the document in memory, the file
    and the output. *)
Record run := {
  ended : outcome unit;
  document : option pyval;
  file : option pystr;
  output : list line
}.

Definition main (w : web) (writable : bool) : run :=
  match fetch_initial_data w with
  | (Raise e, printed) =>
      {| ended := Raise e; document := None; file := None;
         output := printed |}
  | (Ok (extracted_info, methods), printed) =>
      let driver := BrowserSpec.printing printed BrowserSpec.setup_driver in
      match crawl_topics 0 extracted_info [] driver with
      | (Raise e, driver') =>
          {| ended := Raise e; document := None; file := None;
             output := stdout driver' |}
      | (Ok overall_results, driver') =>
          let data := final_data extracted_info methods overall_results in
          let saved :=
            save_results writable (str "scraping_results.json") data in
          {| ended := Ok tt; document := Some data; file := fst saved;
             output := stdout driver' ++ snd saved ++ [ScrapingCompleted] |}
      end
  end.

End Crawl.

(** The cards of the catalog. *)
Definition all_cards (w : web) : list card :=
  match methods_page w with
  | Some groups =>
      flat_map (fun g => match card_deck g with
                         | Some cards => cards
                         | None => []
                         end) groups
  | None => []
  end.

(** A summary whose two counts are the first runs of non-space characters
    of the texts of a card. *)
Definition counts_are_tokens (w : web) (t : topic_summary) : Prop :=
  exists c m0 m1 rest s,
    In c (all_cards w) /\
    text_muted c = m0 :: m1 :: rest /\ span m0 = Some (TextNode s) /\
    ts_num_methods t = token (lstrip s) /\ ts_num_methods t <> [] /\
    ts_num_papers t = token (lstrip (muted_text m1)) /\
    ts_num_papers t <> [].

End Main.

(** ** Notions for the further properties *)

Module Derived.
Import Static Browser.

(** A string without white space at either end. *)
Definition trimmed (s : pystr) : Prop := strip s = s.

(** The cards of a group, each with the h4 text of the group. *)
Definition cards_under (g : group) : list (option pystr * card) :=
  match card_deck g with
  | Some cards => map (fun c => (h4 g, c)) cards
  | None => []
  end.

(** The cards of the catalog in the order of the fetch, each with the h4
    text of the group whose loop reaches it. *)
Definition labelled_cards (w : web) : list (option pystr * card) :=
  match methods_page w with
  | Some groups => flat_map cards_under groups
  | None => []
  end.

(** The summary of a card under its group. *)
Definition summarises (fc : option pystr * card) (t : topic_summary)
    : Prop :=
  exists field name href,
    fst fc = Some field /\ ts_ml_field t = strip field /\
    h1 (snd fc) = Some name /\ ts_topic_name t = strip name /\
    a (snd fc) = Some (Some href) /\ ts_topic_link t = BASE_URL ++ href.

(** The fields of a MethodRow as the table loop leaves them: method, year
    and count trimmed, the paper name without white space at its end. *)
Definition row_fields_trimmed (r : method_row) : Prop :=
  trimmed (mr_method r) /\ trimmed (mr_year r) /\
  trimmed (mr_num_papers r) /\
  match mr_paper_name r with
  | Some paper => rstrip paper = paper
  | None => True
  end.

Definition no_space (s : pystr) : Prop :=
  forallb (fun c => negb (isspace c)) s = true.

(** The strings of a page entry are trimmed. *)
Definition entry_trimmed (e : page_entry) : Prop :=
  Forall trimmed (title e) /\ Forall trimmed (text e).

(** Every row carries the topic name of one of the summaries. *)
Definition rows_named_by (ts : list topic_summary) (rows : list method_row)
    : Prop :=
  Forall (fun m => exists t, In t ts /\ mr_topic_name m = ts_topic_name t)
    rows.

(** Two sites that answer the requests of the static half alike but for
    the descriptions of the topic pages. *)
Definition same_tables (w w' : web) : Prop :=
  methods_page w = methods_page w' /\
  forall url,
    option_map method_content (requests_get w url) =
    option_map method_content (requests_get w' url).

(** A driver with one window, which shows the page. *)
Definition on_page (p : page) : driver :=
  {| windows := [(0, {| shown := p; upcoming := [] |})];
     current_window_handle := 0;
     fresh := 1;
     stdout := [];
     calls := [] |}.

(** The result of a harvester call has between one and ten entries. *)
Definition sized (r : list page_entry) : Prop :=
  1 <= length r /\ length r <= 10.

Section Site.
Variable site : pystr -> tab.

(** The title and the abstract of the paper behind a URL. *)
Definition paper_of (url : pystr) : pystr * pystr :=
  match extracts (shown (site url)) with
  | Some p => p
  | None => ([], [])
  end.

(** The entry of a page all of whose papers extract. *)
Definition entry_of_papers (urls : list pystr) : page_entry :=
  {| title := map (fun url => fst (paper_of url)) urls;
     text := map (fun url => snd (paper_of url)) urls |}.

(** A value of the mapping that some call of [process_topic_link] on the
    key has returned. *)
Definition crawled (k : pystr) (results : dict (list page_entry)) : Prop :=
  exists d d', driver_ok d /\ process_topic_link site k d = (Ok results, d').

(** A list of entries that some call of the harvester on the link has
    returned. *)
Definition harvested (k : pystr) (r : list page_entry) : Prop :=
  exists d d', driver_ok d /\ process_method_image site k d = (Ok r, d').

End Site.

End Derived.
Import Derived.

(** ** Concrete inputs *)

Module Examples.
Import Static.

(** A table row with a method, its paper, a year and a count. *)
Definition row_resnet : list pystr :=
  [str "  ResNet


Deep Residual Learning "; str "2015"; str " 1903 "].

Definition row_plain : list pystr := [str "Dropout"; str "2014"; str "512"].

Definition row_short : list pystr := [str "Dropout"; str "2014"].

Definition soup_cnn : topic_soup :=
  {| description_content := Some (str " Convolutional networks. ");
     method_content := Some (Some (Some [row_resnet; row_short; row_plain])) |}.

Definition card_cnn : card :=
  {| h1 := Some (str " Convolutional Neural Networks ");
     a := Some (Some (str "/methods/category/cnn"));
     text_muted :=
       [{| span := Some (TextNode (str " 118 methods ")); muted_text := str "118 methods" |};
        {| span := None; muted_text := str "
 5,201 papers with code " |}] |}.

(** The same card without its h1. *)
Definition card_no_h1 : card :=
  {| h1 := None; a := a card_cnn; text_muted := text_muted card_cnn |}.

Definition group_vision (cards : list card) : group :=
  {| h4 := Some (str "Computer Vision"); card_deck := Some cards |}.

Definition web_of (groups : list group) : web :=
  {| methods_page := Some groups;
     requests_get := fun _ => Some soup_cnn |}.

(** One group, two cards, the first one lacks its h1. *)
Definition web_broken_card : web :=
  web_of [group_vision [card_no_h1; card_cnn]].

Definition web_good : web := web_of [group_vision [card_cnn]].

End Examples.

Module BrowserExamples.
Import Browser.

(** A paper page with its title and abstract. *)
Definition paper (title abstract : string) : page :=
  {| paper_abstract := Some (Some (Some (str abstract)));
     paper_title := Some (Some (str title));
     black_links := []; next_clickable := false; next_disabled := false;
     method_image := [] |}.

(** A paper page whose abstract container never appears. *)
Definition paper_no_abstract : page :=
  {| paper_abstract := None;
     paper_title := Some (Some (str "A"));
     black_links := []; next_clickable := false; next_disabled := false;
     method_image := [] |}.

(** A listing page with its paper links and its next-page control. *)
Definition listing_page (hrefs : list string) (clickable disabled : bool)
    : page :=
  {| paper_abstract := None; paper_title := None;
     black_links := map (fun h => Some (str h)) hrefs;
     next_clickable := clickable; next_disabled := disabled;
     method_image := [] |}.

(** A topic page with its method groups. *)
Definition topic_page (divs : list (option (option pystr))) : page :=
  {| paper_abstract := None; paper_title := None; black_links := [];
     next_clickable := false; next_disabled := false;
     method_image := divs |}.

Definition single (p : page) : tab := {| shown := p; upcoming := [] |}.

Definition page_b : page := listing_page ["/paper/b"%string] true false.
Definition page_c_last : page := listing_page ["/paper/c"%string] false false.

(** Two pages; the first paper of the first page does not render. *)
Definition pages_faulty : list page :=
  [listing_page ["/paper/a"%string; "/paper/b"%string] true false;
   page_c_last].

(** The same listing without the paper that does not render. *)
Definition pages_sound : list page := [page_b; page_c_last].

(** Two pages; the last one shows its next-page control disabled. *)
Definition pages_marked : list page :=
  [page_b; listing_page ["/paper/c"%string] true true].

(** Eleven pages. *)
Definition pages_eleven : list page := repeat page_b 10 ++ [page_c_last].

Definition url_faulty : pystr := str "https://paperswithcode.com/method/faulty".
Definition url_sound : pystr := str "https://paperswithcode.com/method/sound".
Definition url_marked : pystr := str "https://paperswithcode.com/method/marked".
Definition url_eleven : pystr := str "https://paperswithcode.com/method/eleven".
Definition url_topic : pystr := str "https://paperswithcode.com/methods/category/cnn".

(** A topic with three groups: a relative link, no anchor, an absolute
    link. *)
Definition groups_example : list (option (option pystr)) :=
  [Some (Some (str "/method/sound")); None;
   Some (Some (str "https://paperswithcode.com/method/marked"))].

Definition site (url : pystr) : tab :=
  if eqb url (str "https://paperswithcode.com/paper/a")
  then single paper_no_abstract
  else if eqb url (str "https://paperswithcode.com/paper/b")
  then single (paper " B " "On b. ")
  else if eqb url (str "https://paperswithcode.com/paper/c")
  then single (paper "C" "On c.")
  else if eqb url url_faulty then listing pages_faulty
  else if eqb url url_sound then listing pages_sound
  else if eqb url url_marked then listing pages_marked
  else if eqb url url_eleven then listing pages_eleven
  else if eqb url url_topic then single (topic_page groups_example)
  else single blank.

Definition entry_b : page_entry :=
  {| title := [str "B"]; text := [str "On b."] |}.
Definition entry_c : page_entry :=
  {| title := [str "C"]; text := [str "On c."] |}.

(** The file of a run of the whole program on the catalog with the one
    card, whose topic page is [url_topic], when the file can be written. *)
Definition run_content : pystr :=
  Eval vm_compute in
    match Main.file (Main.main site Examples.web_good true) with
    | Some content => content
    | None => []
    end.

End BrowserExamples.

Module MoreExamples.
Import Static Browser Examples BrowserExamples.

(** The catalog of [web_good] with topic pages that have no description. *)
Definition web_no_description : web :=
  {| methods_page := methods_page web_good;
     requests_get := fun _ =>
       Some {| description_content := None;
               method_content := method_content soup_cnn |} |}.

(** A listing page whose second link has no href attribute. *)
Definition page_gap : page :=
  {| paper_abstract := None; paper_title := None;
     black_links := [Some (str "/paper/b"); None];
     next_clickable := false; next_disabled := false;
     method_image := [] |}.

Definition url_twice : pystr :=
  str "https://paperswithcode.com/methods/category/twice".

(** A topic page that links the same listing twice, once with a relative
    link. *)
Definition groups_twice : list (option (option pystr)) :=
  [Some (Some (str "/method/sound"));
   Some (Some (str "https://paperswithcode.com/method/sound"))].

Definition site_twice (url : pystr) : tab :=
  if eqb url url_twice then single (topic_page groups_twice)
  else site url.

End MoreExamples.

(** * Properties *)

(** ** Strings *)

Lemma startswith_app (p t : pystr) : startswith p (p ++ t) = true.
Proof.
  induction p as [|c p IH]; simpl; [reflexivity|].
  destruct (N.eq_dec c c); [exact IH | congruence].
Qed.

Lemma startswith_inv (p s : pystr) :
  startswith p s = true -> s = p ++ skipn (length p) s.
Proof.
  revert s; induction p as [|c p IH]; intros [|b s]; simpl; try congruence.
  destruct (N.eq_dec c b) as [->|]; [|discriminate].
  intros H; f_equal; apply IH, H.
Qed.

Lemma contains_intro (sep pre post : pystr) :
  contains sep (pre ++ sep ++ post) = true.
Proof.
  induction pre as [|c pre IH]; simpl.
  - pose proof (startswith_app sep post) as H.
    destruct (sep ++ post); simpl; rewrite H; reflexivity.
  - rewrite IH; apply orb_true_r.
Qed.

Lemma contains_inv (sep s : pystr) :
  contains sep s = true -> exists pre post, s = pre ++ sep ++ post.
Proof.
  induction s as [|c s IH]; simpl; intros H.
  - rewrite orb_false_r in H.
    exists [], (skipn (length sep) []); apply (startswith_inv _ _ H).
  - apply orb_true_iff in H; destruct H as [H|H].
    + exists [], (skipn (length sep) (c :: s)); apply (startswith_inv _ _ H).
    + destruct (IH H) as (pre & post & ->).
      exists (c :: pre), post; reflexivity.
Qed.

(** [split1] cuts at the leftmost occurrence. *)
Lemma split1_first (sep s : pystr) :
  contains sep s = true ->
  exists pre post,
    split1 sep s = [pre; post] /\ s = pre ++ sep ++ post /\
    forall pre' post', s = pre' ++ sep ++ post' -> length pre <= length pre'.
Proof.
  induction s as [|c s IH]; intros H.
  - simpl in H; rewrite orb_false_r in H.
    exists [], (skipn (length sep) []); simpl; rewrite H.
    repeat split; [apply (startswith_inv _ _ H) | intros; lia].
  - simpl in H; simpl split1.
    destruct (startswith sep (c :: s)) eqn:E.
    + exists [], (skipn (length sep) (c :: s)).
      repeat split; [apply (startswith_inv _ _ E) | intros; simpl; lia].
    + simpl in H; destruct (IH H) as (pre & post & Hs & Heq & Hmin).
      exists (c :: pre), post; rewrite Hs; repeat split.
      * simpl; congruence.
      * intros [|b pre'] post' Hd.
        -- simpl in Hd; rewrite Hd, startswith_app in E; discriminate.
        -- simpl in Hd; injection Hd as _ Hd.
           simpl; apply le_n_S, (Hmin _ _ Hd).
Qed.

Lemma lstrip_idem (s : pystr) : lstrip (lstrip s) = lstrip s.
Proof.
  induction s as [|c s IH]; simpl; [reflexivity|].
  destruct (isspace c) eqn:E; [exact IH | simpl; rewrite E; reflexivity].
Qed.

Lemma rstrip_idem (s : pystr) : rstrip (rstrip s) = rstrip s.
Proof.
  induction s as [|c s IH]; simpl; [reflexivity|].
  destruct (rstrip s) as [|b t] eqn:E.
  - destruct (isspace c) eqn:Ec; simpl; [reflexivity | rewrite Ec; reflexivity].
  - simpl in IH |- *. rewrite IH; reflexivity.
Qed.

(** A string that starts with no space keeps its start under [rstrip]. *)
Lemma lstrip_rstrip (s : pystr) :
  lstrip s = s -> lstrip (rstrip s) = rstrip s.
Proof.
  destruct s as [|c s]; simpl; [reflexivity|].
  destruct (isspace c) eqn:E.
  - intros H. exfalso.
    assert (L : forall u, length (lstrip u) <= length u).
    { induction u as [|b u IHu]; simpl; [lia|].
      destruct (isspace b); simpl; lia. }
    specialize (L s); rewrite H in L; simpl in L; lia.
  - intros _; destruct (rstrip s); simpl; rewrite E; reflexivity.
Qed.

Lemma strip_idem (s : pystr) : strip (strip s) = strip s.
Proof.
  unfold strip.
  rewrite (lstrip_rstrip (lstrip s) (lstrip_idem s)).
  apply rstrip_idem.
Qed.

Lemma lstrip_strip (s : pystr) : lstrip (strip s) = strip s.
Proof. apply lstrip_rstrip, lstrip_idem. Qed.

Lemma rstrip_nil_token (s : pystr) : rstrip s = [] -> token s = [].
Proof.
  destruct s as [|c s]; simpl; [reflexivity|].
  destruct (rstrip s); [|discriminate].
  destruct (isspace c); [reflexivity | discriminate].
Qed.

Lemma token_rstrip (s : pystr) : token (rstrip s) = token s.
Proof.
  induction s as [|c s IH]; simpl; [reflexivity|].
  destruct (rstrip s) as [|b t] eqn:E; simpl.
  - destruct (isspace c) eqn:Ec; simpl; [reflexivity|].
    rewrite Ec, (rstrip_nil_token s E); reflexivity.
  - destruct (isspace c); [reflexivity | rewrite <- IH; reflexivity].
Qed.

(** The run being read ends at the next space. *)
Lemma split_run_token (cur s : pystr) :
  rev cur ++ token s <> [] ->
  exists l, split_run cur s = (rev cur ++ token s) :: l.
Proof.
  revert cur; induction s as [|c s IH]; intros cur H; simpl in *.
  - rewrite app_nil_r in *.
    destruct cur; [simpl in H; congruence | eexists; reflexivity].
  - destruct (isspace c).
    + rewrite app_nil_r in *.
      destruct cur; [simpl in H; congruence | eexists; reflexivity].
    + destruct (IH (c :: cur)) as [l Hl].
      * simpl; rewrite <- app_assoc; exact H.
      * exists l; rewrite Hl; simpl; rewrite <- app_assoc; reflexivity.
Qed.

Lemma split_lstrip (s : pystr) : split s = split (lstrip s).
Proof.
  unfold split; induction s as [|c s IH]; simpl; [reflexivity|].
  destruct (isspace c) eqn:E; [exact IH | simpl; rewrite E; reflexivity].
Qed.

Lemma token_nil_lstrip (s : pystr) : token (lstrip s) = [] -> lstrip s = [].
Proof.
  induction s as [|c s IH]; simpl; [reflexivity|].
  destruct (isspace c) eqn:E; [exact IH | simpl; rewrite E; discriminate].
Qed.

Lemma split_nil (s : pystr) : lstrip s = [] -> split s = [].
Proof. intros H; rewrite split_lstrip, H; reflexivity. Qed.

(** [s.split()] starts with the first run of non-space characters of [s]. *)
Lemma split_head (s : pystr) :
  lstrip s <> [] -> exists l, split s = token (lstrip s) :: l.
Proof.
  intros H; rewrite split_lstrip.
  apply (split_run_token [] (lstrip s)); simpl.
  intros E; apply H, token_nil_lstrip, E.
Qed.

Lemma token_no_space (s : pystr) : forallb (fun c => negb (isspace c)) (token s) = true.
Proof.
  induction s as [|c s IH]; simpl; [reflexivity|].
  destruct (isspace c) eqn:E; simpl; [reflexivity | rewrite E; exact IH].
Qed.

(** ** The static half *)

Section StaticProperties.
Import Static.

Lemma strip_nth (n : nat) (row : list pystr) :
  nth n (map strip row) [] = strip (nth n row []).
Proof. exact (map_nth strip row [] n). Qed.

(** The unpacking of [split_cell] never raises. *)
Lemma split_cell_ok (cell : pystr) :
  exists method_name paper, split_cell cell = Ok (method_name, paper).
Proof.
  unfold split_cell; destruct (contains separator cell) eqn:E.
  - destruct (split1_first separator cell E) as (pre & post & -> & _).
    eexists _, _; reflexivity.
  - eexists _, _; reflexivity.
Qed.

Lemma parse_row_short (topic_name : pystr) (row : list pystr)
    (methods_list : list method_row) :
  length row < 3 -> parse_row topic_name row methods_list = (Ok tt, methods_list).
Proof.
  intros H; unfold parse_row; rewrite length_map.
  destruct (Nat.leb_spec 3 (length row)); [lia | reflexivity].
Qed.

Lemma parse_row_long (topic_name : pystr) (row : list pystr)
    (methods_list : list method_row) :
  3 <= length row ->
  exists method_name paper,
    split_cell (strip (nth 0 row [])) = Ok (method_name, paper) /\
    parse_row topic_name row methods_list =
      (Ok tt,
       methods_list ++
         [{| mr_topic_name := topic_name;
             mr_method := strip method_name;
             mr_year := strip (nth 1 row []);
             mr_num_papers := strip (nth 2 row []);
             mr_paper_name := paper |}]).
Proof.
  intros H; unfold parse_row; rewrite length_map.
  destruct (Nat.leb_spec 3 (length row)); [|lia].
  rewrite !strip_nth.
  destruct (split_cell_ok (strip (nth 0 row []))) as (m & p & E).
  exists m, p; rewrite E; split; reflexivity.
Qed.

(** C6: a row with at least three cells yields one MethodRow; when the
    trimmed first cell holds the triple newline, [method] is the trimmed
    text before its first occurrence and [paper_name] is what follows it;
    when it does not, [paper_name] is None and [method] is the trimmed
    cell. *)
Theorem method_row_split (topic_name : pystr) (row : list pystr)
    (methods_list : list method_row) :
  3 <= length row ->
  exists r,
    parse_row topic_name row methods_list = (Ok tt, methods_list ++ [r]) /\
    (contains separator (strip (nth 0 row [])) = true ->
     exists pre post,
       strip (nth 0 row []) = pre ++ separator ++ post /\
       (forall pre' post',
          strip (nth 0 row []) = pre' ++ separator ++ post' ->
          length pre <= length pre') /\
       mr_method r = strip pre /\ mr_paper_name r = Some post) /\
    (contains separator (strip (nth 0 row [])) = false ->
     mr_method r = strip (nth 0 row []) /\ mr_paper_name r = None).
Proof.
  intros H.
  destruct (parse_row_long topic_name row methods_list H) as (m & p & Hc & Hr).
  eexists; split; [exact Hr|]; simpl.
  unfold split_cell in Hc; split; intros E; rewrite E in Hc.
  - destruct (split1_first separator _ E) as (pre & post & Hs & Heq & Hmin).
    rewrite Hs in Hc; injection Hc as <- <-.
    exists pre, post; auto.
  - injection Hc as <- <-; split; [apply strip_idem | reflexivity].
Qed.

Lemma method_row_split_witness :
  exists r,
    parse_row (str "CNN") Examples.row_resnet [] = (Ok tt, [] ++ [r]) /\
    mr_method r = str "ResNet" /\
    mr_paper_name r = Some (str "Deep Residual Learning").
Proof.
  destruct (method_row_split (str "CNN") Examples.row_resnet [])
    as (r & Hr & _); [simpl; lia|].
  exists r; split; [exact Hr|].
  vm_compute in Hr; injection Hr as <-; split; reflexivity.
Defined.

Lemma parse_rows_spec (topic_name : pystr) (rows : list (list pystr)) :
  forall methods_list,
  exists added,
    parse_rows topic_name rows methods_list = (Ok tt, methods_list ++ added) /\
    length added = length (filter (fun row => 3 <=? length row) rows) /\
    forall r, In r added ->
      exists row, In row rows /\ 3 <= length row /\
        mr_topic_name r = topic_name /\
        mr_year r = strip (nth 1 row []) /\
        mr_num_papers r = strip (nth 2 row []).
Proof.
  induction rows as [|row rows IH]; intros ms; cbn [parse_rows filter].
  - exists []; rewrite app_nil_r; repeat split; intros r [].
  - destruct (Nat.leb_spec 3 (length row)) as [L|L].
    + destruct (parse_row_long topic_name row ms L) as (m & p & _ & ->).
      destruct (IH (ms ++ [{| mr_topic_name := topic_name;
                              mr_method := strip m;
                              mr_year := strip (nth 1 row []);
                              mr_num_papers := strip (nth 2 row []);
                              mr_paper_name := p |}]))
        as (added & -> & Hlen & Horigin).
      eexists (_ :: added); rewrite <- app_assoc; cbn [app length].
      split; [reflexivity|split; [congruence|]].
      intros r [<-|Hin].
      * exists row; simpl; auto.
      * destruct (Horigin r Hin) as (row' & ? & ?).
        exists row'; split; [right; assumption | assumption].
    + rewrite (parse_row_short topic_name row ms L).
      destruct (IH ms) as (added & -> & Hlen & Horigin).
      exists added; repeat split; [exact Hlen|].
      intros r Hin; destruct (Horigin r Hin) as (row' & ? & ?).
      exists row'; split; [right; assumption | assumption].
Qed.

(** The output of a card: its progress line, whatever its table holds. *)
Lemma fetch_card_output (w : web) (ml_field : pystr) (c : card)
    (st : fetch_state) :
  printed (snd (fetch_card w ml_field c st)) =
    printed st ++
      match h1 c with
      | Some text => [PrintTopic (strip text)]
      | None => []
      end.
Proof.
  unfold fetch_card; destruct (h1 c); [|simpl; rewrite app_nil_r; reflexivity].
  destruct (get_topic_method_info w (strip p) c (methods st)) as [[?|?] ?];
    [|reflexivity].
  destruct (num_methods_of c); [|reflexivity].
  destruct (num_papers_of c); [|reflexivity].
  destruct (card_href c); reflexivity.
Qed.

(** C10: a row with fewer than three cells leaves the list of rows as it
    is; the table loop never raises and only appends, as many rows as the
    table has rows with at least three cells, each taking its year from the
    second cell and its count from the third; the rows of the table do not
    reach the output of the program, which gains the one progress line of
    the card. *)
Theorem short_rows_skipped (w : web) (ml_field topic_name : pystr)
    (row : list pystr) (rows : list (list pystr))
    (methods_list : list method_row) (c : card) (st : fetch_state) :
  (length row < 3 ->
   parse_row topic_name row methods_list = (Ok tt, methods_list)) /\
  (exists added,
     parse_rows topic_name rows methods_list = (Ok tt, methods_list ++ added) /\
     length added = length (filter (fun row => 3 <=? length row) rows) /\
     forall r, In r added ->
       exists row, In row rows /\ 3 <= length row /\
         mr_topic_name r = topic_name /\
         mr_year r = strip (nth 1 row []) /\
         mr_num_papers r = strip (nth 2 row [])) /\
  printed (snd (fetch_card w ml_field c st)) =
    printed st ++
      match h1 c with
      | Some text => [PrintTopic (strip text)]
      | None => []
      end.
Proof.
  split; [|split].
  - apply parse_row_short.
  - apply parse_rows_spec.
  - apply fetch_card_output.
Qed.

Lemma short_rows_skipped_witness :
  parse_row (str "CNN") Examples.row_short [] = (Ok tt, []) /\
  exists added,
    parse_rows (str "CNN")
      [Examples.row_resnet; Examples.row_short; Examples.row_plain] [] =
      (Ok tt, [] ++ added) /\
    length added = 2.
Proof.
  destruct (short_rows_skipped Examples.web_good (str "Computer Vision")
              (str "CNN") Examples.row_short
              [Examples.row_resnet; Examples.row_short; Examples.row_plain]
              [] Examples.card_cnn
              {| extracted_info := []; methods := []; printed := [] |})
    as (S1 & (added & E & L & _) & _).
  split; [apply S1; simpl; lia|].
  exists added; split; [exact E | exact L].
Defined.

(** *** A card that does not parse *)

Lemma fetch_card_printed (w : web) (ml_field : pystr) (c : card)
    (st : fetch_state) :
  Forall progress_line (printed st) ->
  Forall progress_line (printed (snd (fetch_card w ml_field c st))).
Proof.
  intros H.
  rewrite fetch_card_output.
  apply Forall_app; split; [exact H|].
  destruct (h1 c); constructor; simpl; auto.
Qed.

Lemma fetch_cards_printed (w : web) (ml_field : pystr) (cards : list card) :
  forall st,
  Forall progress_line (printed st) ->
  Forall progress_line (printed (snd (fetch_cards w ml_field cards st))).
Proof.
  induction cards as [|c cards IH]; intros st H; simpl; [exact H|].
  pose proof (fetch_card_printed w ml_field c st H) as H1.
  destruct (fetch_card w ml_field c st) as [[[]|e] st']; simpl in *.
  - apply IH, H1.
  - exact H1.
Qed.

Lemma fetch_groups_printed (w : web) (groups : list group) :
  forall st,
  Forall progress_line (printed st) ->
  Forall progress_line (printed (snd (fetch_groups w groups st))).
Proof.
  induction groups as [|g groups IH]; intros st H; simpl; [exact H|].
  assert (H1 : Forall progress_line (printed (snd (fetch_group w g st)))).
  { unfold fetch_group; destruct (h4 g) as [text|]; [|exact H].
    assert (H2 : Forall progress_line (printed st ++ [PrintField (strip text)])).
    { apply Forall_app; split; [exact H | constructor; simpl; auto]. }
    destruct (card_deck g); [|exact H2].
    apply fetch_cards_printed; exact H2. }
  destruct (fetch_group w g st) as [[[]|e] st']; simpl in *.
  - apply IH, H1.
  - exact H1.
Qed.

Lemma fetch_cards_abort (w : web) (ml_field : pystr) (c : card)
    (cards : list card) :
  In c cards -> card_fails w c ->
  forall st, exists e, fst (fetch_cards w ml_field cards st) = Raise e.
Proof.
  intros Hin Hf; induction cards as [|c' cards IH]; [destruct Hin|].
  intros st; simpl.
  destruct (fetch_card w ml_field c' st) as [[[]|e] st'] eqn:E.
  - destruct Hin as [->|Hin]; [|apply IH, Hin].
    destruct (Hf ml_field st) as [e He]; rewrite E in He; discriminate.
  - exists e; reflexivity.
Qed.

Lemma fetch_groups_abort (w : web) (g : group) (cards : list card) (c : card)
    (groups : list group) :
  In g groups -> card_deck g = Some cards -> In c cards -> card_fails w c ->
  forall st, exists e, fst (fetch_groups w groups st) = Raise e.
Proof.
  intros Hg Hd Hc Hf; induction groups as [|g' groups IH]; [destruct Hg|].
  intros st; simpl.
  destruct (fetch_group w g' st) as [[[]|e] st'] eqn:E.
  - destruct Hg as [->|Hg]; [|apply IH, Hg].
    unfold fetch_group in E; rewrite Hd in E.
    destruct (h4 g) as [text|]; [|discriminate].
    destruct (fetch_cards_abort w (strip text) c cards Hc Hf
                {| extracted_info := extracted_info st;
                   methods := methods st;
                   printed := printed st ++ [PrintField (strip text)] |})
      as [e He].
    rewrite E in He; discriminate.
  - exists e; reflexivity.
Qed.

Lemma missing_element_fails (w : web) (c : card) :
  h1 c = None \/ a c = None \/ text_muted c = [] -> card_fails w c.
Proof.
  intros H ml_field st; unfold fetch_card.
  destruct (h1 c) as [text|]; [|eexists; reflexivity].
  destruct H as [H|[H|H]]; [discriminate| |].
  - unfold get_topic_method_info, card_href; rewrite H; eexists; reflexivity.
  - destruct (get_topic_method_info w (strip text) c (methods st))
      as [[?|?] ?]; [|eexists; reflexivity].
    unfold num_methods_of; rewrite H; eexists; reflexivity.
Qed.

(** C2, as the code has it: when a card of the catalog lacks its h1, its
    anchor or its text-muted containers, the fetch ends with the exception
    of the first failing step: it returns no TopicSummary and no MethodRow,
    also for the cards that parse, and what it has printed are the progress
    lines of the groups and cards reached, none of which reports the
    failure. *)
Theorem card_failure_aborts_fetch (w : web) (groups : list group) (g : group)
    (cards : list card) (c : card) :
  methods_page w = Some groups ->
  In g groups -> card_deck g = Some cards -> In c cards ->
  h1 c = None \/ a c = None \/ text_muted c = [] ->
  (exists e, fst (fetch_initial_data w) = Raise e) /\
  Forall progress_line (snd (fetch_initial_data w)).
Proof.
  intros Hw Hg Hd Hc Hm; unfold fetch_initial_data; rewrite Hw.
  pose (st0 := {| extracted_info := []; methods := []; printed := [] |}).
  destruct (fetch_groups_abort w g cards c groups Hg Hd Hc
              (missing_element_fails w c Hm) st0) as [e He].
  pose proof (fetch_groups_printed w groups st0 (Forall_nil _)) as Hp.
  fold st0; destruct (fetch_groups w groups st0) as [[[]|e'] st']; simpl in *.
  - discriminate.
  - split; [exists e'; reflexivity | exact Hp].
Qed.

Lemma card_failure_aborts_fetch_witness :
  (exists e, fst (fetch_initial_data Examples.web_broken_card) = Raise e) /\
  Forall progress_line (snd (fetch_initial_data Examples.web_broken_card)).
Proof.
  apply (card_failure_aborts_fetch Examples.web_broken_card
           [Examples.group_vision [Examples.card_no_h1; Examples.card_cnn]]
           (Examples.group_vision [Examples.card_no_h1; Examples.card_cnn])
           [Examples.card_no_h1; Examples.card_cnn] Examples.card_no_h1).
  - reflexivity.
  - simpl; auto.
  - reflexivity.
  - simpl; auto.
  - left; reflexivity.
Defined.

(** C2 as stated fails: with two cards of which the first lacks its h1, the
    fetch raises and returns nothing, although the second card parses (alone
    it yields one TopicSummary and two MethodRows), and the output has no
    line about the failure. *)
Lemma card_failure_counterexample :
  fetch_initial_data Examples.web_broken_card =
    (Raise AttributeError, [PrintField (str "Computer Vision")]) /\
  (exists infos rows out,
     fetch_initial_data Examples.web_good = (Ok (infos, rows), out) /\
     length infos = 1 /\ length rows = 2) /\
  ~ exists infos rows out,
      fetch_initial_data Examples.web_broken_card = (Ok (infos, rows), out).
Proof.
  split; [vm_compute; reflexivity|split].
  - eexists _, _, _; split; [vm_compute; reflexivity|split; reflexivity].
  - intros (infos & rows & out & H); vm_compute in H; discriminate.
Qed.

(** The count fields are the first run of non-space characters of their
    text. *)
Lemma first_token_strip (s : pystr) :
  first_token (strip s) =
    match lstrip s with
    | [] => Raise IndexError
    | _ => Ok (token (lstrip s))
    end.
Proof.
  unfold first_token.
  destruct (lstrip s) as [|c u] eqn:E.
  - unfold strip; rewrite E; reflexivity.
  - assert (N : lstrip (strip s) <> []).
    { rewrite lstrip_strip; unfold strip; rewrite E; simpl.
      destruct (rstrip u); [|discriminate].
      destruct (isspace c) eqn:Ec; [|discriminate].
      pose proof (lstrip_idem s) as I; rewrite E in I; simpl in I.
      rewrite Ec in I. exfalso.
      assert (L : forall v, length (lstrip v) <= length v).
      { induction v as [|b v IHv]; simpl; [lia|].
        destruct (isspace b); simpl; lia. }
      specialize (L u); rewrite I in L; simpl in L; lia. }
    destruct (split_head (strip s) N) as [l ->].
    rewrite lstrip_strip; unfold strip; rewrite token_rstrip, E; reflexivity.
Qed.

End StaticProperties.

(** ** Dictionaries *)

Section DictProperties.
Import Browser.

Lemma dict_set_keys {V} (k k' : pystr) (v : V) (d : dict V) :
  In k' (keys (dict_set k v d)) <-> k' = k \/ In k' (keys d).
Proof.
  unfold keys; induction d as [|[k0 v0] d IH]; simpl.
  - intuition congruence.
  - destruct (pystr_eq_dec k k0) as [->|N]; simpl.
    + intuition congruence.
    + rewrite IH; intuition congruence.
Qed.

Lemma dict_set_nodup {V} (k : pystr) (v : V) (d : dict V) :
  NoDup (keys d) -> NoDup (keys (dict_set k v d)).
Proof.
  unfold keys; induction d as [|[k0 v0] d IH]; simpl; intros ND.
  - constructor; [intros [] | constructor].
  - inversion ND as [|? ? Hn ND']; subst.
    destruct (pystr_eq_dec k k0) as [->|N]; simpl.
    + constructor; assumption.
    + constructor; [|apply IH, ND'].
      intros H; apply (dict_set_keys k k0 v d) in H.
      destruct H as [H|H]; [congruence | contradiction].
Qed.

Lemma dict_get_set {V} (k k' : pystr) (v : V) (d : dict V) :
  dict_get k' (dict_set k v d) =
    if pystr_eq_dec k' k then Some v else dict_get k' d.
Proof.
  induction d as [|[k0 v0] d IH]; simpl.
  - destruct (pystr_eq_dec k' k); reflexivity.
  - destruct (pystr_eq_dec k k0) as [->|N]; simpl.
    + destruct (pystr_eq_dec k' k0); reflexivity.
    + destruct (pystr_eq_dec k' k0) as [->|N'].
      * destruct (pystr_eq_dec k0 k); [congruence | reflexivity].
      * exact IH.
Qed.

Lemma assign_all_spec (outs : list (pystr * list page_entry)) :
  forall results,
  NoDup (keys results) ->
  NoDup (keys (assign_all outs results)) /\
  (forall k, In k (keys (assign_all outs results)) <->
             In k (map fst outs) \/ In k (keys results)) /\
  (forall k r, dict_get k (assign_all outs results) = Some r ->
               In (k, r) outs \/ dict_get k results = Some r).
Proof.
  induction outs as [|[k0 r0] outs IH]; intros results ND; simpl.
  - split; [exact ND|]; split; [intuition | auto].
  - destruct (IH (dict_set k0 r0 results) (dict_set_nodup k0 r0 results ND))
      as (ND' & Hk & Hv).
    split; [exact ND'|]; split.
    + intros k; rewrite Hk, dict_set_keys; intuition congruence.
    + intros k r H; destruct (Hv k r H) as [H1|H1]; [auto|].
      rewrite dict_get_set in H1.
      destruct (pystr_eq_dec k k0) as [->|N]; [|auto].
      injection H1 as <-; auto.
Qed.

End DictProperties.

(** ** The dynamic half *)

Section BrowserProperties.
Import Browser.

Variable site : pystr -> tab.

(** *** Windows *)

Lemma find_window_in (h : nat) (ws : list (nat * tab)) :
  In h (map fst ws) <-> exists t, find_window h ws = Some t.
Proof.
  induction ws as [|[h' t'] ws IH]; simpl.
  - split; [intros [] | intros [t H]; discriminate].
  - destruct (Nat.eqb_spec h h') as [->|N].
    + split; [exists t'; reflexivity | auto].
    + rewrite <- IH; split; [intros [E|H]; [congruence | exact H] | auto].
Qed.

Lemma find_window_app (h : nat) (t : tab) (ws l : list (nat * tab)) :
  find_window h ws = Some t -> find_window h (ws ++ l) = Some t.
Proof.
  induction ws as [|[h' t'] ws IH]; simpl; [discriminate|].
  destruct (h =? h'); auto.
Qed.

Lemma find_window_new (h : nat) (t : tab) (ws : list (nat * tab)) :
  ~ In h (map fst ws) -> find_window h (ws ++ [(h, t)]) = Some t.
Proof.
  induction ws as [|[h' t'] ws IH]; simpl; intros N.
  - rewrite Nat.eqb_refl; reflexivity.
  - destruct (Nat.eqb_spec h h') as [->|_]; [tauto | apply IH; tauto].
Qed.

Lemma remove_window_new (h : nat) (t : tab) (ws : list (nat * tab)) :
  ~ In h (map fst ws) -> remove_window h (ws ++ [(h, t)]) = ws.
Proof.
  induction ws as [|[h' t'] ws IH]; simpl; intros N.
  - rewrite Nat.eqb_refl; reflexivity.
  - destruct (Nat.eqb_spec h h') as [->|_]; [tauto | f_equal; apply IH; tauto].
Qed.

Lemma set_window_handles (h : nat) (t : tab) (ws : list (nat * tab)) :
  map fst (set_window h t ws) = map fst ws.
Proof.
  induction ws as [|[h' t'] ws IH]; simpl; [reflexivity|].
  destruct (h =? h'); simpl; congruence.
Qed.

Lemma find_set_window (h : nat) (t t0 : tab) (ws : list (nat * tab)) :
  find_window h ws = Some t0 -> find_window h (set_window h t ws) = Some t.
Proof.
  induction ws as [|[h' t'] ws IH]; simpl; [discriminate|].
  destruct (Nat.eqb_spec h h') as [->|N]; simpl.
  - rewrite Nat.eqb_refl; reflexivity.
  - destruct (Nat.eqb_spec h h'); [contradiction | exact IH].
Qed.

Lemma fresh_not_open (d : driver) :
  driver_ok d -> ~ In (fresh d) (window_handles d).
Proof.
  intros [_ F] H; rewrite Forall_forall in F; specialize (F _ H); lia.
Qed.

Lemma last_handle_new (ws : list (nat * tab)) (h : nat) (t : tab) :
  rev (map fst (ws ++ [(h, t)])) = h :: rev (map fst ws).
Proof. rewrite map_app, rev_app_distr; reflexivity. Qed.

Lemma clicks_record (c : call) (d : driver) :
  clicks (record c d) = clicks d + (if is_click c then 1 else 0).
Proof.
  unfold clicks, record; simpl; rewrite filter_app, length_app; simpl.
  destruct (is_click c); reflexivity.
Qed.

(** *** The driver commands *)

Lemma bind_ok {A B} (m : M A) (k : A -> M B) (d d1 : driver) (x : A) :
  m d = (Ok x, d1) -> bind m k d = k x d1.
Proof. unfold bind; intros ->; reflexivity. Qed.

Lemma bind_raise {A B} (m : M A) (k : A -> M B) (d d1 : driver) (e : exn) :
  m d = (Raise e, d1) -> bind m k d = (Raise e, d1).
Proof. unfold bind; intros ->; reflexivity. Qed.

Lemma state_is_self (d : driver) :
  state_is d (windows d) (current_window_handle d) (fresh d) (clicks d).
Proof. repeat split. Qed.

Lemma current_tab_state (d : driver) ws cur fr n :
  state_is d ws cur fr n -> current_tab d = find_window cur ws.
Proof. intros (<- & <- & _); reflexivity. Qed.

Lemma print_spec (l : line) (d : driver) ws cur fr n :
  state_is d ws cur fr n ->
  exists d', print l d = (Ok tt, d') /\ state_is d' ws cur fr n.
Proof. intros S; eexists; split; [reflexivity | exact S]. Qed.

Lemma current_page_spec (d : driver) ws cur fr n (t : tab) :
  state_is d ws cur fr n -> find_window cur ws = Some t ->
  current_page d = (Ok (shown t), d).
Proof.
  intros S F; unfold current_page.
  rewrite (current_tab_state d ws cur fr n S), F; reflexivity.
Qed.

Lemma window_open_spec (url : pystr) (d : driver) ws cur fr n (t : tab) :
  state_is d ws cur fr n -> find_window cur ws = Some t ->
  exists d', window_open site url d = (Ok tt, d') /\
    state_is d' (ws ++ [(fr, site url)]) cur (S fr) n.
Proof.
  intros S F; unfold window_open.
  rewrite (current_tab_state d ws cur fr n S), F.
  destruct S as (<- & <- & <- & <-).
  eexists; split; [reflexivity|].
  repeat split. rewrite clicks_record; simpl; unfold clicks; simpl; lia.
Qed.

Lemma last_handle_spec (d : driver) ws (h : nat) (t : tab) :
  windows d = ws ++ [(h, t)] -> last_handle d = (Ok h, d).
Proof.
  intros W; unfold last_handle, window_handles.
  rewrite W, last_handle_new; reflexivity.
Qed.

Lemma switch_spec (h : nat) (d : driver) ws cur fr n (t : tab) :
  state_is d ws cur fr n -> find_window h ws = Some t ->
  exists d', switch_to_window h d = (Ok tt, d') /\ state_is d' ws h fr n.
Proof.
  intros (<- & <- & <- & <-) F; unfold switch_to_window; rewrite F.
  eexists; split; [reflexivity|].
  repeat split. rewrite clicks_record; simpl; unfold clicks; simpl; lia.
Qed.

Lemma close_spec (d : driver) ws cur fr n (t : tab) :
  state_is d ws cur fr n -> find_window cur ws = Some t ->
  exists d', close d = (Ok tt, d') /\
    state_is d' (remove_window cur ws) cur fr n.
Proof.
  intros S F; unfold close.
  rewrite (current_tab_state d ws cur fr n S), F.
  destruct S as (<- & <- & <- & <-).
  eexists; split; [reflexivity|].
  repeat split. rewrite clicks_record; simpl; unfold clicks; simpl; lia.
Qed.

Lemma driver_get_spec (url : pystr) (d : driver) ws cur fr n (t : tab) :
  state_is d ws cur fr n -> find_window cur ws = Some t ->
  exists d', driver_get site url d = (Ok tt, d') /\
    state_is d' (set_window cur (site url) ws) cur fr n.
Proof.
  intros S F; unfold driver_get.
  rewrite (current_tab_state d ws cur fr n S), F.
  destruct S as (<- & <- & <- & <-).
  eexists; split; [reflexivity|].
  repeat split. rewrite clicks_record; simpl; unfold clicks; simpl; lia.
Qed.

Lemma click_next_spec (d : driver) ws cur fr n (t : tab) :
  state_is d ws cur fr n -> find_window cur ws = Some t ->
  if next_clickable (shown t)
  then exists d', click_next d = (Ok tt, d') /\
         state_is d' (set_window cur (advance t) ws) cur fr (S n)
  else click_next d = (Raise TimeoutException, d).
Proof.
  intros S F; unfold click_next.
  rewrite (current_tab_state d ws cur fr n S), F.
  destruct (next_clickable (shown t)); [|reflexivity].
  destruct S as (<- & <- & <- & <-).
  eexists; split; [reflexivity|].
  repeat split. rewrite clicks_record; simpl; unfold clicks; simpl; lia.
Qed.

(** [extract_text_from_page] never raises: it returns the pair of a page
    that has all the parts, the empty string otherwise. *)
Lemma extract_spec (d : driver) ws cur fr n (t : tab) :
  state_is d ws cur fr n -> find_window cur ws = Some t ->
  exists d',
    extract_text_from_page d =
      (Ok match extracts (shown t) with
          | Some (title, text) => Pair title text
          | None => Str []
          end, d') /\
    state_is d' ws cur fr n /\
    (extracts (shown t) = None ->
     exists e, stdout d' = stdout d ++ [ErrorExtractingText e]).
Proof.
  intros S F.
  pose proof (current_page_spec d ws cur fr n t S F) as P.
  unfold extract_text_from_page, try_except, wait_element, find_element,
    extracts, bind.
  rewrite P.
  destruct (paper_abstract (shown t)) as [[[text|]|]|]; simpl;
    rewrite ?P; simpl;
    destruct (paper_title (shown t)) as [[title|]|]; simpl;
    eexists; (split; [reflexivity|]);
    (split; [exact S|]); intros E; try discriminate;
    eexists; reflexivity.
Qed.

(** Without a current window the wait raises, which is caught as well. *)
Lemma extract_total (d : driver) :
  exists v d', extract_text_from_page d = (Ok v, d') /\
    windows d' = windows d /\
    current_window_handle d' = current_window_handle d /\
    fresh d' = fresh d /\ clicks d' = clicks d.
Proof.
  destruct (current_tab d) as [t|] eqn:C.
  - destruct (extract_spec d _ _ _ _ t (state_is_self d) C)
      as (d' & E & (W & Cu & Fr & K) & _).
    eexists _, d'; split; [exact E|]; auto.
  - unfold extract_text_from_page, try_except, wait_element, bind,
      current_page; rewrite C; simpl.
    eexists _, _; split; [reflexivity|]; repeat split.
Qed.

(** *** Visiting the papers of a listing page *)

Lemma open_and_extract_spec (url : pystr) (d : driver) ws cur fr n (t0 : tab) :
  state_is d ws cur fr n -> find_window cur ws = Some t0 ->
  ~ In fr (map fst ws) ->
  exists d',
    open_and_extract site url d =
      (match extracts (shown (site url)) with
       | Some p => Ok p
       | None => Raise ValueError
       end, d') /\
    state_is d' (ws ++ [(fr, site url)]) fr (S fr) n.
Proof.
  intros St F N; unfold open_and_extract.
  destruct (window_open_spec url d ws cur fr n t0 St F) as (d1 & E1 & S1).
  rewrite (bind_ok _ _ _ _ _ E1).
  pose proof S1 as (W1 & _).
  rewrite (bind_ok _ _ _ _ _ (last_handle_spec d1 ws fr (site url) W1)).
  pose proof (find_window_new fr (site url) ws N) as Fn.
  destruct (switch_spec fr d1 _ _ _ _ _ S1 Fn) as (d2 & E2 & S2).
  rewrite (bind_ok _ _ _ _ _ E2).
  destruct (extract_spec d2 _ _ _ _ _ S2 Fn) as (d3 & E3 & S3 & _).
  rewrite (bind_ok _ _ _ _ _ E3).
  destruct (extracts (shown (site url))) as [[title text]|]; simpl.
  - unfold bind, ret, print; simpl.
    eexists; split; [reflexivity | exact S3].
  - unfold bind, raise; simpl.
    eexists; split; [reflexivity | exact S3].
Qed.

Lemma close_and_return_spec (d : driver) ws cur fr n (t t0 : tab) :
  state_is d (ws ++ [(fr, t)]) fr (S fr) n ->
  ~ In fr (map fst ws) -> find_window cur ws = Some t0 ->
  exists d', close_and_return cur d = (Ok tt, d') /\
    state_is d' ws cur (S fr) n.
Proof.
  intros St N F; unfold close_and_return.
  destruct (close_spec d _ _ _ _ t St (find_window_new fr t ws N))
    as (d1 & E1 & S1).
  rewrite (bind_ok _ _ _ _ _ E1).
  rewrite (remove_window_new fr t ws N) in S1.
  exact (switch_spec cur d1 _ _ _ _ _ S1 F).
Qed.

Lemma driver_ok_state (d : driver) ws cur fr n (t : tab) :
  state_is d ws cur fr n -> find_window cur ws = Some t ->
  Forall (fun h => h < fr) (map fst ws) -> driver_ok d.
Proof.
  intros St F L; split.
  - exists t; rewrite (current_tab_state d ws cur fr n St); exact F.
  - destruct St as (<- & _ & <- & _); exact L.
Qed.

Lemma handles_below (fr : nat) (ws : list (nat * tab)) :
  Forall (fun h => h < fr) (map fst ws) -> ~ In fr (map fst ws).
Proof.
  intros L H; rewrite Forall_forall in L; specialize (L _ H); lia.
Qed.

Lemma handles_weaken (fr fr' : nat) (ws : list (nat * tab)) :
  fr <= fr' -> Forall (fun h => h < fr) (map fst ws) ->
  Forall (fun h => h < fr') (map fst ws).
Proof.
  intros L; apply Forall_impl; intros h; lia.
Qed.

(** The loop over the URLs: the entries of the papers before the first one
    that does not extract; when all extract, the driver is back on the
    window it started from, otherwise the unpacking has raised ValueError
    and the driver stays on the window of that paper.  *)
Lemma visit_urls_spec (urls : list pystr) :
  forall (e : page_entry) (d : driver) ws cur fr n (t0 : tab),
  state_is d ws cur fr n -> find_window cur ws = Some t0 ->
  Forall (fun h => h < fr) (map fst ws) ->
  exists d',
    visit_urls site cur urls e d =
      ((harvest site urls e,
        if forallb (extracts_url site) urls then None else Some ValueError),
       d') /\
    driver_ok d' /\ clicks d' = n /\
    (forallb (extracts_url site) urls = true ->
     exists fr', fr <= fr' /\ state_is d' ws cur fr' n).
Proof.
  induction urls as [|url urls IH]; intros e d ws cur fr n t0 St F L.
  - exists d; simpl; repeat split.
    + exact (proj1 (driver_ok_state d ws cur fr n t0 St F L)).
    + exact (proj2 (driver_ok_state d ws cur fr n t0 St F L)).
    + apply St.
    + intros _; exists fr; split; [lia | exact St].
  - pose proof (handles_below fr ws L) as N.
    destruct (open_and_extract_spec url d ws cur fr n t0 St F N)
      as (d1 & E1 & S1).
    cbn [visit_urls harvest forallb]; rewrite E1.
    change (extracts_url site url) with
      (match extracts (shown (site url)) with
       | Some _ => true | None => false end).
    destruct (extracts (shown (site url))) as [[title text]|]; simpl.
    + destruct (close_and_return_spec d1 ws cur fr n _ t0 S1 N F)
        as (d2 & E2 & S2).
      rewrite E2.
      destruct (IH (append_text text (append_title title e)) d2 ws cur
                  (S fr) n t0 S2 F (handles_weaken fr (S fr) ws
                                      (Nat.le_succ_diag_r fr) L))
        as (d' & E' & Ok' & K' & C').
      exists d'; split; [exact E'|]; split; [exact Ok'|]; split; [exact K'|].
      intros A; destruct (C' A) as (fr' & Lf & S').
      exists fr'; split; [lia | exact S'].
    + exists d1; split; [reflexivity|]; split; [|split].
      * apply (driver_ok_state d1 _ _ _ _ (site url) S1
                 (find_window_new fr (site url) ws N)).
        rewrite map_app; apply Forall_app; split.
        -- apply (handles_weaken fr (S fr) ws (Nat.le_succ_diag_r fr) L).
        -- repeat constructor.
      * apply S1.
      * discriminate.
Qed.

Lemma collect_urls_app (hrefs : list (option pystr)) :
  forall urls,
  collect_urls hrefs urls =
    match collect_urls hrefs [] with
    | Ok l => Ok (urls ++ l)
    | Raise e => Raise e
    end.
Proof.
  induction hrefs as [|[href|] hrefs IH]; intros urls; simpl.
  - rewrite app_nil_r; reflexivity.
  - rewrite (IH (urls ++ [absolute href])), (IH [absolute href]).
    destruct (collect_urls hrefs []); [rewrite <- app_assoc|]; reflexivity.
  - reflexivity.
Qed.

(** The appends keep the two lists of a page entry of the same length. *)
Lemma harvest_balanced (urls : list pystr) :
  forall e, balanced e -> balanced (harvest site urls e).
Proof.
  induction urls as [|url urls IH]; intros e B; simpl; [exact B|].
  destruct (extracts (shown (site url))) as [[title text]|]; [|exact B].
  apply IH; unfold balanced, append_text, append_title in *; simpl.
  rewrite !length_app, B; reflexivity.
Qed.

Lemma entry_of_balanced (p : page) : balanced (entry_of site p).
Proof.
  unfold entry_of; destruct (black_links p); [reflexivity|].
  destruct (collect_urls _ _); [|reflexivity].
  apply harvest_balanced; reflexivity.
Qed.

(** [process_black_links] on a driver whose window shows [t]: it never
    raises and returns the entry of the page; on a clean page the driver is
    back where it was. *)
Lemma process_black_links_spec (d : driver) ws cur fr n (t : tab) :
  state_is d ws cur fr n -> find_window cur ws = Some t ->
  Forall (fun h => h < fr) (map fst ws) ->
  exists d',
    process_black_links site d = (Ok (entry_of site (shown t)), d') /\
    driver_ok d' /\ clicks d' = n /\
    (clean site (shown t) = true ->
     exists fr', fr <= fr' /\ state_is d' ws cur fr' n).
Proof.
  intros St F L.
  pose proof (current_page_spec d ws cur fr n t St F) as P.
  pose proof (driver_ok_state d ws cur fr n t St F L) as OK.
  unfold process_black_links, links_and_window, wait_elements, find_elements,
    entry_of, clean, bind.
  rewrite P.
  destruct (black_links (shown t)) as [|href hrefs] eqn:B.
  - simpl. eexists; split; [reflexivity|]; split; [exact OK|].
    split; [apply St|].
    intros _; exists fr; split; [lia | exact St].
  - cbn [ret raise]; rewrite P; cbn [ret]; rewrite ?B.
    destruct (collect_urls (href :: hrefs) []) as [urls|e] eqn:C.
    + unfold get_current_window_handle.
      rewrite (current_tab_state d ws cur fr n St), F.
      replace (current_window_handle d) with cur by (symmetry; apply St).
      cbn [ret].
      destruct (visit_urls_spec urls empty_entry d ws cur fr n t St F L)
        as (d' & E' & Ok' & K' & C').
      fold empty_entry; rewrite E'.
      destruct (forallb (extracts_url site) urls).
      * exists d'; auto.
      * eexists; split; [reflexivity|]; split; [exact Ok'|].
        split; [exact K' | discriminate].
    + cbn [raise]. eexists; split; [reflexivity|]; split; [exact OK|].
      split; [apply St|].
      intros _; exists fr; split; [lia | exact St].
Qed.

(** *** The pagination loop *)

Ltac parts := repeat match goal with |- _ /\ _ => split end.

Lemma driver_ok_inv (d : driver) :
  driver_ok d ->
  exists t,
    find_window (current_window_handle d) (windows d) = Some t /\
    Forall (fun h => h < fresh d) (map fst (windows d)).
Proof. intros [[t C] L]; exists t; split; [exact C | exact L]. Qed.

Lemma driver_ok_print (l : line) (d : driver) :
  driver_ok d -> driver_ok (snd (print l d)).
Proof. intros H; exact H. Qed.

Lemma click_and_look_spec (d : driver) ws cur fr n (t : tab) :
  state_is d ws cur fr n -> find_window cur ws = Some t ->
  if next_clickable (shown t)
  then exists d',
         click_and_look d = (Ok (next_disabled (shown (advance t))), d') /\
         state_is d' (set_window cur (advance t) ws) cur fr (S n)
  else click_and_look d = (Raise TimeoutException, d).
Proof.
  intros St F; unfold click_and_look.
  pose proof (click_next_spec d ws cur fr n t St F) as C.
  destruct (next_clickable (shown t)).
  - destruct C as (d1 & E1 & S1).
    rewrite (bind_ok _ _ _ _ _ E1).
    exists d1; split; [|exact S1].
    cbv beta; unfold find_elements, bind.
    rewrite (current_page_spec d1 _ _ _ _ (advance t) S1
               (find_set_window cur (advance t) t ws F)).
    unfold ret; destruct (next_disabled (shown (advance t))); reflexivity.
  - apply bind_raise; exact C.
Qed.

Lemma paginate_unfold (fuel pc : nat) (acc : list page_entry)
    (d d1 : driver) (e : page_entry) :
  pc < 10 -> process_black_links site d = (Ok e, d1) ->
  paginate site (S fuel) pc acc d =
    match click_and_look d1 with
    | (Raise x, d2) =>
        (Ok (NoNext, acc ++ [e]), snd (print (NoAdditionalPage x) d2))
    | (Ok true, d2) => (Ok (NextDisabled, acc ++ [e]), d2)
    | (Ok false, d2) => paginate site fuel (pc + 1) (acc ++ [e]) d2
    end.
Proof.
  intros L E; cbn [paginate].
  destruct (Nat.ltb_spec pc 10); [|lia].
  unfold bind at 1; rewrite E; reflexivity.
Qed.

(** The loop never raises, keeps the driver in order, appends at most
    [10 - page_counter] entries to the ones it starts with, all of them
    balanced, and clicks at most as many times. *)
Lemma paginate_total (fuel : nat) :
  forall pc acc d, driver_ok d ->
  exists ex r d',
    paginate site fuel pc acc d = (Ok (ex, acc ++ r), d') /\
    driver_ok d' /\ length r <= 10 - pc /\ length r <= fuel /\
    clicks d' <= clicks d + length r /\
    Forall balanced r.
Proof.
  induction fuel as [|fuel IH]; intros pc acc d OK.
  - exists Ceiling, [], d; cbn [paginate ret]; rewrite app_nil_r.
    cbn [length]; parts; auto; try lia.
  - destruct (Nat.ltb_spec pc 10) as [L|L].
    + destruct (driver_ok_inv d OK) as (t & F & H).
      destruct (process_black_links_spec d _ _ _ _ t (state_is_self d) F H)
        as (d1 & E1 & OK1 & K1 & _).
      rewrite (paginate_unfold fuel pc acc d d1 _ L E1).
      destruct (driver_ok_inv d1 OK1) as (t1 & F1 & H1).
      pose proof (click_and_look_spec d1 _ _ _ _ t1 (state_is_self d1) F1) as C.
      pose proof (entry_of_balanced (shown t)) as B.
      destruct (next_clickable (shown t1)).
      * destruct C as (d2 & E2 & S2); rewrite E2.
        assert (OK2 : driver_ok d2).
        { apply (driver_ok_state d2 _ _ _ _ (advance t1) S2
                   (find_set_window _ (advance t1) t1 _ F1)).
          rewrite set_window_handles; exact H1. }
        assert (K2 : clicks d2 = S (clicks d)) by (rewrite <- K1; apply S2).
        destruct (next_disabled (shown (advance t1))).
        -- exists NextDisabled, [entry_of site (shown t)], d2.
           cbn [length]; parts; auto; try lia.
        -- destruct (IH (pc + 1) (acc ++ [entry_of site (shown t)]) d2 OK2)
             as (ex & r & d' & E' & OK' & Lr & Lf & K' & B').
           exists ex, (entry_of site (shown t) :: r), d'.
           rewrite E', <- app_assoc; cbn [app length].
           parts; auto; try lia.
      * rewrite C.
        exists NoNext, [entry_of site (shown t)],
          (snd (print (NoAdditionalPage TimeoutException) d1)).
        cbn [length]; parts; auto; try lia.
        unfold clicks in *; simpl; lia.
    + exists Ceiling, [], d; cbn [paginate].
      destruct (Nat.ltb_spec pc 10); [lia|].
      unfold ret; rewrite app_nil_r; cbn [length]; parts; auto; try lia.
Qed.

(** On clean pages the loop follows [walk]. *)
Lemma paginate_walk (fuel : nat) :
  forall pc acc d ws cur fr n (t : tab),
  state_is d ws cur fr n -> find_window cur ws = Some t ->
  Forall (fun h => h < fr) (map fst ws) ->
  Forall (fun p => clean site p = true) (snd (fst (walk fuel pc t))) ->
  exists d',
    paginate site fuel pc acc d =
      (Ok (fst (fst (walk fuel pc t)),
           acc ++ map (entry_of site) (snd (fst (walk fuel pc t)))), d') /\
    driver_ok d' /\ clicks d' = n + snd (walk fuel pc t).
Proof.
  induction fuel as [|fuel IH]; intros pc acc d ws cur fr n t St F H Cl.
  - exists d; simpl; rewrite app_nil_r, Nat.add_0_r.
    split; [reflexivity|]; split; [|apply St].
    exact (driver_ok_state d ws cur fr n t St F H).
  - cbn [walk] in *; destruct (Nat.ltb_spec pc 10) as [L|L].
    + destruct (process_black_links_spec d ws cur fr n t St F H)
        as (d1 & E1 & OK1 & K1 & C1).
      rewrite (paginate_unfold fuel pc acc d d1 _ L E1).
      assert (Cp : clean site (shown t) = true).
      { destruct (next_clickable (shown t));
          [destruct (next_disabled (shown (advance t)));
             [|destruct (walk fuel (pc + 1) (advance t)) as [[? ?] ?]]|];
          simpl in Cl; inversion Cl; assumption. }
      destruct (C1 Cp) as (fr' & Lf & S1).
      pose proof (click_and_look_spec d1 ws cur fr' n t S1 F) as C.
      destruct (next_clickable (shown t)).
      * destruct C as (d2 & E2 & S2); rewrite E2.
        pose proof (find_set_window cur (advance t) t ws F) as F2.
        assert (H2 : Forall (fun h => h < fr')
                       (map fst (set_window cur (advance t) ws))).
        { rewrite set_window_handles.
          apply (handles_weaken fr fr' ws Lf H). }
        destruct (next_disabled (shown (advance t))).
        -- exists d2; simpl; split; [reflexivity|]; split.
           ++ exact (driver_ok_state d2 _ _ _ _ _ S2 F2 H2).
           ++ replace (n + 1) with (S n) by lia; apply S2.
        -- specialize (IH (pc + 1) (acc ++ [entry_of site (shown t)]) d2
                         _ cur fr' (S n) (advance t) S2 F2 H2).
           destruct (walk fuel (pc + 1) (advance t)) as [[ex ps] k].
           simpl in *.
           destruct IH as (d' & E' & OK' & K'); [inversion Cl; assumption|].
           exists d'; rewrite E', <- app_assoc; simpl.
           split; [reflexivity|]; split; [exact OK' | lia].
      * rewrite C; eexists; simpl; split; [reflexivity|].
        split; [exact OK1 | rewrite Nat.add_0_r; exact K1].
    + exists d; cbn [paginate]; destruct (Nat.ltb_spec pc 10); [lia|].
      simpl; rewrite app_nil_r, Nat.add_0_r.
      split; [reflexivity|]; split; [|apply St].
      exact (driver_ok_state d ws cur fr n t St F H).
Qed.

(** *** Listings *)

Lemma advance_listing (q p : page) (rest : list page) :
  advance {| shown := q; upcoming := p :: rest |} = listing (p :: rest).
Proof. reflexivity. Qed.

(** Through the pages whose control is clickable and leads to a page
    without the disabled marker. *)
Lemma walk_init (init : list page) :
  forall fuel pc p rest,
  length init <= fuel -> pc + length init <= 10 ->
  Forall (fun q => next_clickable q = true) init ->
  Forall (fun q => next_disabled q = false) (tl (init ++ [p])) ->
  walk fuel pc (listing (init ++ p :: rest)) =
    let '(ex, ps, k) :=
      walk (fuel - length init) (pc + length init)
        {| shown := p; upcoming := rest |} in
    (ex, init ++ ps, length init + k).
Proof.
  induction init as [|q init IH]; intros fuel pc p rest Lf Lp Hc Hd.
  - cbn [length app listing]; rewrite Nat.sub_0_r, Nat.add_0_r.
    destruct (walk fuel pc _) as [[ex ps] k]; reflexivity.
  - cbn [length] in Lf, Lp.
    destruct fuel as [|fuel]; [lia|].
    inversion Hc as [|? ? Hq Hc']; subst.
    cbn [app tl] in Hd.
    assert (E : exists x xs, init ++ p :: rest = x :: xs /\
                             init ++ [p] = x :: tl (init ++ [p]))
      by (destruct init; eexists _, _; split; reflexivity).
    destruct E as (x & xs & E & E').
    cbn [app listing]; rewrite E; cbn [walk shown].
    destruct (Nat.ltb_spec pc 10); [|lia].
    rewrite Hq, advance_listing.
    change (shown (listing (x :: xs))) with x.
    rewrite E' in Hd; inversion Hd as [|? ? Hx Hd']; subst.
    rewrite Hx, <- E.
    rewrite (IH fuel (pc + 1) p rest); try lia; auto.
    cbn [length Nat.sub]; replace (pc + 1 + length init)
      with (pc + S (length init)) by lia.
    destruct (walk (fuel - length init) (pc + S (length init)) _)
      as [[ex ps] k]; reflexivity.
Qed.

(** *** [process_method_image] *)

Lemma process_method_image_of_exit (url : pystr) (d d' : driver)
    (x : exit_path * list page_entry) :
  process_method_image_exit site url d = (Ok x, d') ->
  process_method_image site url d = (Ok (snd x), d').
Proof.
  intros E; unfold process_method_image; rewrite (bind_ok _ _ _ _ _ E).
  reflexivity.
Qed.

Lemma driver_get_ok (url : pystr) (d : driver) :
  driver_ok d ->
  exists d1 t,
    driver_get site url d = (Ok tt, d1) /\
    state_is d1 (set_window (current_window_handle d) (site url) (windows d))
      (current_window_handle d) (fresh d) (clicks d) /\
    find_window (current_window_handle d) (windows d) = Some t /\
    Forall (fun h => h < fresh d)
      (map fst (set_window (current_window_handle d) (site url) (windows d))).
Proof.
  intros OK; destruct (driver_ok_inv d OK) as (t & F & H).
  destruct (driver_get_spec url d _ _ _ _ t (state_is_self d) F)
    as (d1 & E1 & S1).
  exists d1, t; rewrite set_window_handles; auto.
Qed.

(** The harvester never raises on a driver in order: it returns at most ten
    balanced entries after at most ten clicks. *)
Lemma process_method_image_total (url : pystr) (d : driver) :
  driver_ok d ->
  exists ex r d',
    process_method_image_exit site url d = (Ok (ex, r), d') /\
    process_method_image site url d = (Ok r, d') /\
    driver_ok d' /\ length r <= 10 /\ clicks d' <= clicks d + 10 /\
    Forall balanced r.
Proof.
  intros OK; destruct (driver_get_ok url d OK) as (d1 & t & E1 & S1 & F & H).
  assert (OK1 : driver_ok d1).
  { exact (driver_ok_state d1 _ _ _ _ _ S1
             (find_set_window _ (site url) t _ F) H). }
  destruct (paginate_total 10 0 [] d1 OK1)
    as (ex & r & d' & E' & OK' & L1 & L2 & K' & B').
  assert (E : process_method_image_exit site url d = (Ok (ex, r), d')).
  { unfold process_method_image_exit; rewrite (bind_ok _ _ _ _ _ E1).
    exact E'. }
  exists ex, r, d'; parts; auto.
  - exact (process_method_image_of_exit url d d' (ex, r) E).
  - replace (clicks d) with (clicks d1) by apply S1. lia.
Qed.

(** On a listing whose harvested pages are clean, the harvester follows
    [walk]. *)
Lemma process_method_image_walk (url : pystr) (d : driver) :
  driver_ok d ->
  Forall (fun p => clean site p = true) (snd (fst (walk 10 0 (site url)))) ->
  exists d',
    process_method_image_exit site url d =
      (Ok (fst (fst (walk 10 0 (site url))),
           map (entry_of site) (snd (fst (walk 10 0 (site url))))), d') /\
    driver_ok d' /\ clicks d' = clicks d + snd (walk 10 0 (site url)).
Proof.
  intros OK Cl; destruct (driver_get_ok url d OK) as (d1 & t & E1 & S1 & F & H).
  destruct (paginate_walk 10 0 [] d1 _ _ _ _ (site url) S1
              (find_set_window _ (site url) t _ F) H Cl) as (d' & E' & R).
  exists d'; split; [|exact R].
  unfold process_method_image_exit; rewrite (bind_ok _ _ _ _ _ E1).
  exact E'.
Qed.

(** *** [process_topic_link] *)

Lemma printing_nil (d : driver) : printing [] d = d.
Proof. destruct d; unfold printing; simpl; rewrite app_nil_r; reflexivity. Qed.

Lemma printing_app (l1 l2 : list line) (d : driver) :
  printing l2 (printing l1 d) = printing (l1 ++ l2) d.
Proof. unfold printing; simpl; rewrite app_assoc; reflexivity. Qed.

Lemma driver_ok_printing (ls : list line) (d : driver) :
  driver_ok d -> driver_ok (printing ls d).
Proof. intros H; exact H. Qed.

(** The first loop: the links that can be extracted, in order, and one
    line for every group that is skipped. *)
Lemma collect_method_links_spec (divs : list (option (option pystr))) :
  forall method_links d,
  collect_method_links divs method_links d =
    (Ok (method_links ++ extracted_links divs),
     printing (flat_map link_error divs) d).
Proof.
  induction divs as [|div divs IH]; intros acc d; simpl.
  - rewrite app_nil_r, printing_nil; reflexivity.
  - unfold bind at 1, try_except, child.
    destruct div as [[href|]|]; simpl; rewrite IH.
    + rewrite <- app_assoc; reflexivity.
    + unfold printing; simpl; rewrite <- app_assoc; reflexivity.
    + unfold printing; simpl; rewrite <- app_assoc; reflexivity.
Qed.

(** The second loop: one call of the harvester per link, in order. *)
Lemma harvest_links_spec (links : list pystr) :
  forall results d, driver_ok d ->
  exists outs d',
    harvest_links site links results d =
      (Ok (assign_all outs results), d') /\
    runs site links d outs d' /\ map fst outs = links /\ driver_ok d' /\
    Forall (fun kv => Forall balanced (snd kv)) outs.
Proof.
  induction links as [|link links IH]; intros results d OK.
  - exists [], d; simpl; parts; auto; constructor.
  - destruct (process_method_image_total link
                (printing [ProcessingMethodImageLink link] d)
                (driver_ok_printing _ d OK))
      as (ex & r & d1 & _ & E1 & OK1 & _ & _ & B1).
    destruct (IH (dict_set link r results) d1 OK1)
      as (outs & d' & E' & R' & M' & OK' & B').
    exists ((link, r) :: outs), d'; parts.
    + cbn [harvest_links]; unfold bind at 1; cbn [print].
      change (process_method_image site link
                (printing [ProcessingMethodImageLink link] d) = (Ok r, d1))
        in E1.
      unfold printing in E1; unfold bind at 1; rewrite E1; exact E'.
    + econstructor; eassumption.
    + simpl; congruence.
    + exact OK'.
    + constructor; assumption.
Qed.

(** *** The harvester and the crawler *)

Lemma process_black_links_empty (d : driver) (t : tab) :
  current_tab d = Some t -> black_links (shown t) = [] ->
  process_black_links site d =
    (Ok empty_entry,
     printing [ErrorProcessingBlackLinks TimeoutException] d).
Proof.
  intros C B.
  unfold process_black_links, links_and_window, wait_elements, bind,
    current_page.
  rewrite C, B; reflexivity.
Qed.

(** C7: on a listing page without any paper link the wait times out, which
    is printed, and [process_black_links] returns the empty entry; the
    iteration of the loop on that page appends this one entry to the output
    and goes on to the next-page control as on any page, so that the output
    of the loop has the empty entry at the place of the page. *)
Theorem empty_page_entry (fuel pc : nat) (acc : list page_entry)
    (d : driver) (t : tab) :
  driver_ok d -> current_tab d = Some t -> black_links (shown t) = [] ->
  pc < 10 ->
  process_black_links site d =
    (Ok empty_entry,
     printing [ErrorProcessingBlackLinks TimeoutException] d) /\
  paginate site (S fuel) pc acc d =
    match click_and_look
            (printing [ErrorProcessingBlackLinks TimeoutException] d) with
    | (Raise x, d2) =>
        (Ok (NoNext, acc ++ [empty_entry]),
         snd (print (NoAdditionalPage x) d2))
    | (Ok true, d2) => (Ok (NextDisabled, acc ++ [empty_entry]), d2)
    | (Ok false, d2) =>
        paginate site fuel (pc + 1) (acc ++ [empty_entry]) d2
    end /\
  exists ex rest d',
    paginate site (S fuel) pc acc d =
      (Ok (ex, acc ++ empty_entry :: rest), d').
Proof.
  intros OK C B L.
  pose proof (process_black_links_empty d t C B) as E.
  split; [exact E|]; split.
  - exact (paginate_unfold fuel pc acc d _ _ L E).
  - rewrite (paginate_unfold fuel pc acc d _ _ L E).
    pose proof (driver_ok_printing
                  [ErrorProcessingBlackLinks TimeoutException] d OK) as OK1.
    destruct (driver_ok_inv _ OK1) as (t1 & F1 & H1).
    pose proof (click_and_look_spec _ _ _ _ _ t1 (state_is_self _) F1) as Cl.
    destruct (next_clickable (shown t1)).
    + destruct Cl as (d3 & E3 & S3); rewrite E3.
      assert (OK3 : driver_ok d3).
      { apply (driver_ok_state _ _ _ _ _ (advance t1) S3
                 (find_set_window _ (advance t1) t1 _ F1)).
        rewrite set_window_handles; exact H1. }
      destruct (next_disabled (shown (advance t1))).
      * exists NextDisabled, [], d3; reflexivity.
      * destruct (paginate_total fuel (pc + 1) (acc ++ [empty_entry]) d3 OK3)
          as (ex2 & r2 & d2' & E2 & _).
        exists ex2, r2, d2'; rewrite E2, <- app_assoc; reflexivity.
    + rewrite Cl; eexists NoNext, [], _; reflexivity.
Qed.

Lemma process_black_links_total (d : driver) :
  driver_ok d ->
  exists e d', process_black_links site d = (Ok e, d') /\ balanced e /\
    driver_ok d'.
Proof.
  intros OK; destruct (driver_ok_inv d OK) as (t & F & H).
  destruct (process_black_links_spec d _ _ _ _ t (state_is_self d) F H)
    as (d' & E & OK' & _).
  exists (entry_of site (shown t)), d'; split; [exact E|].
  split; [apply entry_of_balanced | exact OK'].
Qed.

Lemma in_extracted_links (divs : list (option (option pystr))) (l : pystr) :
  In l (extracted_links divs) <->
  exists href, In (Some (Some href)) divs /\ l = absolute href.
Proof.
  unfold extracted_links; rewrite in_flat_map; split.
  - intros ([[href|]|] & Hin & Hl); simpl in Hl; try contradiction.
    destruct Hl as [<-|[]]; exists href; auto.
  - intros (href & Hin & ->); exists (Some (Some href)); simpl; auto.
Qed.

Lemma extracted_links_length (divs : list (option (option pystr))) :
  length (extracted_links divs) <= length divs.
Proof.
  induction divs as [|[[href|]|] divs IH]; simpl; lia.
Qed.

Lemma process_topic_link_unfold (topic_url : pystr) (d : driver) :
  driver_ok d ->
  exists d1,
    driver_get site topic_url d = (Ok tt, d1) /\ driver_ok d1 /\
    current_tab d1 = Some (site topic_url) /\
    process_topic_link site topic_url d =
      match method_image (shown (site topic_url)) with
      | [] =>
          (Ok [], printing [ErrorWaitingMethodImage TimeoutException] d1)
      | divs =>
          harvest_links site (extracted_links (firstn 20 divs)) []
            (printing (flat_map link_error (firstn 20 divs)) d1)
      end.
Proof.
  intros OK; destruct (driver_get_ok topic_url d OK)
    as (d1 & t & E1 & S1 & F & H).
  pose proof (find_set_window _ (site topic_url) t _ F) as F1.
  exists d1; split; [exact E1|]; split;
    [exact (driver_ok_state d1 _ _ _ _ _ S1 F1 H)|].
  split; [rewrite (current_tab_state _ _ _ _ _ S1); exact F1|].
  unfold process_topic_link; rewrite (bind_ok _ _ _ _ _ E1).
  pose proof (current_page_spec d1 _ _ _ _ _ S1 F1) as P.
  unfold wait_elements, find_elements, bind; rewrite P.
  destruct (method_image (shown (site topic_url))) as [|div divs] eqn:Em.
  - reflexivity.
  - cbn [ret]; rewrite P, Em; unfold ret.
    rewrite collect_method_links_spec; reflexivity.
Qed.

(** C8: when the topic page shows no method-group container the crawler
    prints the timeout and returns the empty mapping; otherwise it takes
    the first 20 containers, prints one line for every container whose
    link cannot be extracted, and calls the harvester once for every
    extracted link (absolute as it is, relative behind the site origin) in
    the order of the containers; the mapping it returns has these links as
    its keys, each with the result of a harvester call on it. *)
Theorem topic_link_mapping (topic_url : pystr) (d : driver) :
  driver_ok d ->
  exists d1,
    driver_get site topic_url d = (Ok tt, d1) /\
    (method_image (shown (site topic_url)) = [] ->
     process_topic_link site topic_url d =
       (Ok [], printing [ErrorWaitingMethodImage TimeoutException] d1)) /\
    (method_image (shown (site topic_url)) <> [] ->
     exists outs results d',
       process_topic_link site topic_url d = (Ok results, d') /\
       runs site
         (extracted_links (firstn 20 (method_image (shown (site topic_url)))))
         (printing
            (flat_map link_error
               (firstn 20 (method_image (shown (site topic_url))))) d1)
         outs d' /\
       map fst outs =
         extracted_links (firstn 20 (method_image (shown (site topic_url)))) /\
       length outs <= 20 /\
       (forall l, In l (map fst outs) <->
          exists href,
            In (Some (Some href))
               (firstn 20 (method_image (shown (site topic_url)))) /\
            l = if startswith (str "http") href then href
                else BASE_URL ++ href) /\
       results = assign_all outs [] /\
       NoDup (keys results) /\
       (forall k, In k (keys results) <-> In k (map fst outs)) /\
       (forall k r, dict_get k results = Some r -> In (k, r) outs)).
Proof.
  intros OK.
  destruct (process_topic_link_unfold topic_url d OK)
    as (d1 & E1 & OK1 & _ & E).
  exists d1; split; [exact E1|]; split.
  - intros Em; rewrite E, Em; reflexivity.
  - intros Em; rewrite E.
    destruct (method_image (shown (site topic_url))) as [|div divs];
      [congruence|].
    set (ds := firstn 20 (div :: divs)).
    destruct (harvest_links_spec (extracted_links ds) []
                (printing (flat_map link_error ds) d1)
                (driver_ok_printing _ d1 OK1))
      as (outs & d' & E' & R' & M' & _ & _).
    destruct (assign_all_spec outs [] (NoDup_nil _)) as (ND & Hk & Hv).
    exists outs, (assign_all outs []), d'; parts; auto.
    + rewrite <- (length_map fst outs), M'.
      pose proof (extracted_links_length ds).
      pose proof (firstn_le_length 20 (div :: divs)).
      fold ds in H0; lia.
    + rewrite M'; intros l; apply in_extracted_links.
    + intros k; rewrite Hk; simpl; tauto.
    + intros k r H; destruct (Hv k r H) as [H1|H1]; [exact H1|discriminate].
Qed.

(** C5: the empty entry is balanced and the two appends of an extraction
    keep an entry balanced; [process_black_links] returns a balanced
    entry, the harvester returns balanced entries only, and so are all
    entries of all groups of a topic. *)
Theorem title_text_same_length (url : pystr) (d : driver) :
  driver_ok d ->
  balanced empty_entry /\
  (forall e title text,
     balanced e -> balanced (append_text text (append_title title e))) /\
  (exists e d', process_black_links site d = (Ok e, d') /\ balanced e) /\
  (exists r d',
     process_method_image site url d = (Ok r, d') /\ Forall balanced r) /\
  (exists results d',
     process_topic_link site url d = (Ok results, d') /\
     forall k r, In (k, r) results -> Forall balanced r).
Proof.
  intros OK; split; [reflexivity|]; split; [|split; [|split]].
  - intros e ti tx B; unfold balanced, append_text, append_title in *; simpl.
    rewrite !length_app, B; reflexivity.
  - destruct (process_black_links_total d OK) as (e & d' & E & B & _).
    exists e, d'; auto.
  - destruct (process_method_image_total url d OK)
      as (ex & r & d' & _ & E & _ & _ & _ & B).
    exists r, d'; auto.
  - destruct (process_topic_link_unfold url d OK) as (d1 & _ & OK1 & _ & E).
    rewrite E.
    destruct (method_image (shown (site url))) as [|div divs].
    + eexists _, _; split; [reflexivity | intros k r []].
    + set (ds := firstn 20 (div :: divs)).
      destruct (harvest_links_spec (extracted_links ds) []
                  (printing (flat_map link_error ds) d1)
                  (driver_ok_printing _ d1 OK1))
        as (outs & d' & E' & _ & _ & _ & B').
      exists (assign_all outs []), d'; split; [exact E'|].
      destruct (assign_all_spec outs [] (NoDup_nil _)) as (ND & _ & Hv).
      intros k r Hin.
      assert (G : dict_get k (assign_all outs []) = Some r).
      { clear - ND Hin. revert ND Hin.
        generalize (assign_all outs []) as res.
        induction res as [|[k0 r0] res IH]; intros ND Hin;
          [destruct Hin|]; destruct Hin as [H|H]; simpl.
        - injection H as -> ->.
          destruct (pystr_eq_dec k k); [reflexivity | congruence].
        - unfold keys in ND; simpl in ND.
          inversion ND as [|? ? Hn ND']; subst.
          destruct (pystr_eq_dec k k0) as [->|N].
          + exfalso; apply Hn.
            change k0 with (fst (k0, r)); apply in_map, H.
          + apply IH; assumption. }
      destruct (Hv k r G) as [H|H]; [|discriminate].
      rewrite Forall_forall in B'; exact (B' (k, r) H).
Qed.

(** C4, as the code has it: for every driver in order the harvester
    returns at most 10 entries after at most 10 clicks on the next-page
    control; on a listing of 10 or more pages whose first 10 pages are
    clean, whose first 9 pages have a clickable control and whose pages 2
    to 10 show no disabled marker, it returns the entries of the first 10
    pages, having clicked 9 times between them and once more after the
    tenth when the control of the tenth page is clickable. *)
Theorem ten_page_cap (url : pystr) (d : driver) (pages : list page) :
  driver_ok d ->
  (exists ex r d',
     process_method_image_exit site url d = (Ok (ex, r), d') /\
     process_method_image site url d = (Ok r, d') /\
     length r <= 10 /\ clicks d' <= clicks d + 10) /\
  (site url = listing pages -> 10 <= length pages ->
   Forall (fun p => clean site p = true) (firstn 10 pages) ->
   Forall (fun p => next_clickable p = true) (firstn 9 pages) ->
   Forall (fun p => next_disabled p = false) (firstn 9 (tl pages)) ->
   exists ex d',
     process_method_image_exit site url d =
       (Ok (ex, map (entry_of site) (firstn 10 pages)), d') /\
     process_method_image site url d =
       (Ok (map (entry_of site) (firstn 10 pages)), d') /\
     length (map (entry_of site) (firstn 10 pages)) = 10 /\
     clicks d' =
       clicks d + 9 + (if next_clickable (nth 9 pages blank) then 1 else 0) /\
     (ex = NoNext <-> next_clickable (nth 9 pages blank) = false)).
Proof.
  intros OK; split.
  - destruct (process_method_image_total url d OK)
      as (ex & r & d' & E1 & E2 & _ & L & K & _).
    exists ex, r, d'; auto.
  - intros Es Len Cl Ck Di.
    do 10 (destruct pages as [|? pages]; [simpl in Len; lia|]).
    cbn [firstn tl nth] in *.
    repeat match goal with
           | H : Forall _ (_ :: _) |- _ => inversion H; clear H; subst
           end.
    pose proof (process_method_image_walk url d OK) as W.
    rewrite Es in W; cbn [listing walk advance shown upcoming Nat.ltb Nat.leb
                            Nat.add] in W.
    repeat match goal with
           | H : next_clickable _ = true |- _ => rewrite H in W; clear H
           | H : next_disabled _ = false |- _ => rewrite H in W; clear H
           end.
    cbn [listing walk advance shown upcoming Nat.ltb Nat.leb Nat.add] in W.
    destruct (next_clickable p8) eqn:C9.
    + destruct (next_disabled
                  (shown (advance {| shown := p8; upcoming := pages |})));
        cbn [fst snd map length] in W |- *;
        (destruct W as (d' & E & _ & K);
         [repeat (constructor; [assumption|]); constructor|]);
        eexists _, d'; (split; [exact E|]);
        (split; [exact (process_method_image_of_exit url d d' _ E)|]);
        (split; [reflexivity|]); (split; [lia|]);
        split; discriminate.
    + cbn [fst snd map length] in W |- *.
      destruct W as (d' & E & _ & K);
        [repeat (constructor; [assumption|]); constructor|].
      eexists _, d'; split; [exact E|].
      split; [exact (process_method_image_of_exit url d d' _ E)|].
      split; [reflexivity|]; split; [lia|].
      split; reflexivity.
Qed.

(** *** Listings of fewer than ten pages *)

(** A listing whose last page has no clickable control and whose pages
    show no disabled marker: one entry per page. *)
Lemma listing_without_marker (url : pystr) (d : driver) (init : list page)
    (last : page) :
  driver_ok d -> site url = listing (init ++ [last]) ->
  length init <= 9 ->
  Forall (fun p => clean site p = true) (init ++ [last]) ->
  Forall (fun p => next_clickable p = true) init ->
  Forall (fun p => next_disabled p = false) (tl (init ++ [last])) ->
  next_clickable last = false ->
  exists d',
    process_method_image_exit site url d =
      (Ok (NoNext, map (entry_of site) (init ++ [last])), d') /\
    clicks d' = clicks d + length init.
Proof.
  intros OK Es Ln Cl Ck Di Nl.
  pose proof (process_method_image_walk url d OK) as W.
  rewrite Es, (walk_init init 10 0 last []) in W; try lia; auto.
  cbn [Nat.add] in W.
  destruct (10 - length init) as [|f] eqn:Ef; [lia|].
  cbn [walk shown] in W.
  destruct (Nat.ltb_spec (length init) 10); [|lia].
  rewrite Nl in W; cbn [fst snd] in W.
  destruct (W Cl) as (d' & E & _ & K).
  exists d'; split; [exact E | lia].
Qed.

(** A listing whose last page shows the disabled marker: the entry of the
    last page is missing. *)
Lemma listing_with_marker (url : pystr) (d : driver) (init : list page)
    (before last : page) :
  driver_ok d -> site url = listing (init ++ [before; last]) ->
  length init <= 9 ->
  Forall (fun p => clean site p = true) (init ++ [before]) ->
  Forall (fun p => next_clickable p = true) (init ++ [before]) ->
  Forall (fun p => next_disabled p = false) (tl (init ++ [before])) ->
  next_disabled last = true ->
  exists d',
    process_method_image_exit site url d =
      (Ok (NextDisabled, map (entry_of site) (init ++ [before])), d') /\
    clicks d' = clicks d + length init + 1.
Proof.
  intros OK Es Ln Cl Ck Di Nl.
  apply Forall_app in Ck; destruct Ck as [Ck Cb].
  inversion Cb as [|? ? Hb _]; subst.
  pose proof (process_method_image_walk url d OK) as W.
  rewrite Es, (walk_init init 10 0 before [last]) in W; try lia; auto.
  cbn [Nat.add] in W.
  destruct (10 - length init) as [|f] eqn:Ef; [lia|].
  cbn [walk shown advance upcoming] in W.
  destruct (Nat.ltb_spec (length init) 10); [|lia].
  rewrite Hb, Nl in W; cbn [fst snd] in W.
  destruct (W Cl) as (d' & E & _ & K).
  exists d'; split; [exact E | lia].
Qed.

(** *** A paper that does not extract *)

Lemma harvest_stops (before after : list pystr) (url : pystr) :
  forall e,
  forallb (extracts_url site) before = true ->
  extracts_url site url = false ->
  harvest site (before ++ url :: after) e = harvest site before e.
Proof.
  unfold extracts_url.
  induction before as [|u before IH]; intros e Hb Hu; cbn [app harvest].
  - destruct (extracts (shown (site url))); [discriminate | reflexivity].
  - cbn [forallb] in Hb; apply andb_true_iff in Hb; destruct Hb as [H1 Hb].
    destruct (extracts (shown (site u))) as [[ti tx]|]; [|discriminate].
    apply IH; assumption.
Qed.

(** The entry of a page holds the papers before the first one that does
    not extract, and none of those behind it. *)
Lemma failed_extraction_ends_page (d : driver) (t : tab)
    (before after : list pystr) (url : pystr) :
  driver_ok d -> current_tab d = Some t ->
  collect_urls (black_links (shown t)) [] = Ok (before ++ url :: after) ->
  forallb (extracts_url site) before = true ->
  extracts_url site url = false ->
  exists d',
    process_black_links site d = (Ok (harvest site before empty_entry), d') /\
    length (title (harvest site before empty_entry)) = length before.
Proof.
  intros OK C U Hb Hu.
  destruct (driver_ok_inv d OK) as (t' & F & H).
  assert (t' = t) by (unfold current_tab in C; congruence); subst t'.
  destruct (process_black_links_spec d _ _ _ _ t (state_is_self d) F H)
    as (d' & E & _).
  exists d'; split.
  - rewrite E; unfold entry_of.
    destruct (black_links (shown t)) as [|h hs] eqn:B.
    + simpl in U; destruct before; discriminate.
    + rewrite U; f_equal; f_equal; apply harvest_stops; assumption.
  - clear - Hb; unfold extracts_url in Hb.
    assert (G : forall l e, forallb (extracts_url site) l = true ->
                length (title (harvest site l e)) =
                length (title e) + length l).
    { induction l as [|u l IH]; intros e Hl; cbn [harvest length].
      - lia.
      - cbn [forallb] in Hl; apply andb_true_iff in Hl.
        destruct Hl as [H1 Hl]; unfold extracts_url in H1.
        destruct (extracts (shown (site u))) as [[ti tx]|]; [|discriminate].
        rewrite (IH _ Hl); unfold append_text, append_title; cbn [title].
        rewrite length_app; simpl; lia. }
    apply (G before empty_entry Hb).
Qed.

End BrowserProperties.

(** ** The harvester on concrete listings *)

Section Runs.
Import Browser BrowserExamples.

Lemma setup_driver_ok : driver_ok setup_driver.
Proof.
  split; [eexists; reflexivity|].
  repeat constructor.
Qed.

(** C1: a listing of two pages; the first page links the papers a and b,
    the second the paper c; the page of a never shows its abstract.  The
    extractor prints its error and returns the empty string, whose
    unpacking raises ValueError inside [process_black_links]: the entry of
    the first page stays empty although b extracts, the window of a stays
    open and current, so that no next-page control is found and the second
    page is never harvested.  Without the link to a the same listing
    yields the entries of b and c. *)
Theorem failed_extraction_aborts_listing :
  fst (process_method_image site url_faulty setup_driver) = Ok [empty_entry] /\
  stdout (snd (process_method_image site url_faulty setup_driver)) =
    [ErrorExtractingText TimeoutException;
     ErrorProcessingBlackLinks ValueError;
     NoAdditionalPage TimeoutException] /\
  current_tab (snd (process_method_image site url_faulty setup_driver)) =
    Some (single paper_no_abstract) /\
  window_handles (snd (process_method_image site url_faulty setup_driver)) =
    [0; 1] /\
  fst (process_method_image site url_sound setup_driver) =
    Ok [entry_b; entry_c].
Proof. vm_compute; repeat split. Qed.

(** C3: a listing of two pages of which the second shows the next-page
    control disabled.  The harvester clicks on the first page, finds the
    marker on the second and leaves the loop: it returns one entry, that of
    the first page, and the loop ends at the break on the marker. *)
Theorem last_page_not_harvested :
  length pages_marked = 2 /\
  site url_marked = listing pages_marked /\
  process_method_image_exit site url_marked setup_driver =
    (Ok (NextDisabled, [entry_b]),
     snd (process_method_image_exit site url_marked setup_driver)) /\
  fst (process_method_image site url_marked setup_driver) = Ok [entry_b] /\
  clicks (snd (process_method_image site url_marked setup_driver)) = 1.
Proof. vm_compute; repeat split. Qed.

(** C4 as stated fails: on a listing of eleven pages the harvester returns
    the ten entries of the first ten pages and has then clicked ten times,
    the tenth time after the tenth harvest: the window shows the eleventh
    page. *)
Lemma eleventh_page_reached :
  length pages_eleven = 11 /\
  site url_eleven = listing pages_eleven /\
  fst (process_method_image site url_eleven setup_driver) =
    Ok (repeat entry_b 10) /\
  clicks (snd (process_method_image site url_eleven setup_driver)) = 10 /\
  current_tab (snd (process_method_image site url_eleven setup_driver)) =
    Some (single page_c_last) /\
  ~ clicks (snd (process_method_image site url_eleven setup_driver)) <= 9.
Proof.
  assert (K : clicks (snd (process_method_image site url_eleven setup_driver))
              = 10) by (vm_compute; reflexivity).
  repeat split; try (vm_compute; reflexivity); try exact K.
  rewrite K; lia.
Qed.

Lemma ten_page_cap_witness :
  exists ex d',
    process_method_image_exit site url_eleven setup_driver =
      (Ok (ex, map (entry_of site) (firstn 10 pages_eleven)), d') /\
    process_method_image site url_eleven setup_driver =
      (Ok (map (entry_of site) (firstn 10 pages_eleven)), d') /\
    length (map (entry_of site) (firstn 10 pages_eleven)) = 10 /\
    clicks d' =
      clicks setup_driver + 9 +
        (if next_clickable (nth 9 pages_eleven blank) then 1 else 0) /\
    (ex = NoNext <-> next_clickable (nth 9 pages_eleven blank) = false).
Proof.
  destruct (ten_page_cap site url_eleven setup_driver pages_eleven
              setup_driver_ok) as [_ H].
  apply H.
  - reflexivity.
  - simpl; lia.
  - repeat constructor.
  - repeat constructor.
  - repeat constructor.
Defined.

Lemma title_text_same_length_witness :
  balanced empty_entry /\
  (forall e title text,
     balanced e -> balanced (append_text text (append_title title e))) /\
  (exists e d',
     process_black_links site setup_driver = (Ok e, d') /\ balanced e) /\
  (exists r d',
     process_method_image site url_faulty setup_driver = (Ok r, d') /\
     Forall balanced r) /\
  (exists results d',
     process_topic_link site url_faulty setup_driver = (Ok results, d') /\
     forall k r, In (k, r) results -> Forall balanced r).
Proof.
  exact (title_text_same_length site url_faulty setup_driver setup_driver_ok).
Defined.

Lemma empty_page_entry_witness :
  process_black_links site setup_driver =
    (Ok empty_entry,
     printing [ErrorProcessingBlackLinks TimeoutException] setup_driver) /\
  exists ex rest d',
    paginate site 10 0 [] setup_driver =
      (Ok (ex, [] ++ empty_entry :: rest), d').
Proof.
  destruct (empty_page_entry site 9 0 [] setup_driver (single blank))
    as (E & _ & R).
  - exact setup_driver_ok.
  - reflexivity.
  - reflexivity.
  - lia.
  - split; [exact E | exact R].
Defined.

Lemma topic_link_mapping_witness :
  exists d1 outs results d',
    driver_get site url_topic setup_driver = (Ok tt, d1) /\
    process_topic_link site url_topic setup_driver = (Ok results, d') /\
    map fst outs = [url_sound; url_marked] /\
    keys results = [url_sound; url_marked] /\
    stdout d1 = [] /\
    (forall k r, dict_get k results = Some r -> In (k, r) outs).
Proof.
  destruct (topic_link_mapping site url_topic setup_driver setup_driver_ok)
    as (d1 & E1 & _ & H).
  destruct H as (outs & results & d' & E & _ & M & _ & _ & _ & _ & _ & Hv).
  - discriminate.
  - exists d1, outs, results, d'; split; [exact E1|]; split; [exact E|].
    split; [exact M|]; split; [|split; [|exact Hv]].
    + vm_compute in E; injection E as <- _; reflexivity.
    + vm_compute in E1; injection E1 as <-; reflexivity.
Defined.

End Runs.

(** ** The JSON text of a value and its reading *)

Section JsonProperties.
Import Browser Json.

Lemma pyval_induction (P : pyval -> Prop) :
  P PyNone ->
  (forall s, P (PyStr s)) ->
  (forall l, Forall P l -> P (PyList l)) ->
  (forall items, Forall (fun kv => P (snd kv)) items -> P (PyDict items)) ->
  forall v, P v.
Proof.
  intros HN HS HL HD; fix IH 1; intros [|s|l|items].
  - exact HN.
  - apply HS.
  - apply HL; induction l as [|x l IHl]; constructor; [apply IH | exact IHl].
  - apply HD; induction items as [|[k x] items IHi]; constructor;
      [apply IH | exact IHi].
Qed.

(** *** Strings *)

Lemma hex_digit_value (n : N) :
  (n < 16)%N -> hex_value (hex_digit n) = Some n.
Proof.
  intros H; destruct n as [|p]; [reflexivity|].
  do 4 (try (destruct p as [p|p|]; try reflexivity)); lia.
Qed.

Lemma scan_unicode_escape (c : N) (tail : pystr) :
  (c < 32)%N ->
  scanstring
    (92 :: 117 :: 48 :: 48 :: hex_digit (c / 16) :: hex_digit (c mod 16)
        :: tail)%N =
    prepend c (scanstring tail).
Proof.
  intros H.
  assert (D : decode_hex4 48 48 (hex_digit (c / 16)) (hex_digit (c mod 16))
              = Some c).
  { unfold decode_hex4.
    rewrite (hex_digit_value (c / 16)), (hex_digit_value (c mod 16)).
    - change (hex_value 48) with (Some 0%N); cbv iota beta.
      f_equal; rewrite (N.div_mod c 16) at 3 by lia; lia.
    - apply N.mod_lt; lia.
    - apply N.Div0.div_lt_upper_bound; lia. }
  assert (Hs : is_high_surrogate c = false).
  { unfold is_high_surrogate.
    destruct (N.leb_spec 55296 c); [lia | reflexivity]. }
  change (scanstring
            (92 :: 117 :: 48 :: 48 :: hex_digit (c / 16)
                :: hex_digit (c mod 16) :: tail)%N)
    with (match decode_hex4 48 48 (hex_digit (c / 16))
                  (hex_digit (c mod 16)) with
          | None => None
          | Some uni =>
              match tail with
              | b1 :: b2 :: a2 :: b3 :: c2 :: d2 :: s4 =>
                  if is_high_surrogate uni && (b1 =? 92)%N && (b2 =? 117)%N
                  then
                    match decode_hex4 a2 b3 c2 d2 with
                    | None => None
                    | Some uni2 =>
                        if is_low_surrogate uni2
                        then prepend (join_surrogates uni uni2) (scanstring s4)
                        else prepend uni (scanstring tail)
                    end
                  else prepend uni (scanstring tail)
              | _ => prepend uni (scanstring tail)
              end
          end).
  rewrite D, Hs.
  do 6 (destruct tail as [|? tail]; [reflexivity|]); reflexivity.
Qed.

(** The reader undoes the escape of every character. *)
Lemma scan_escape_char (c : N) (tail : pystr) :
  scanstring (escape_char c ++ tail) = prepend c (scanstring tail).
Proof.
  unfold escape_char.
  destruct (N.eqb_spec c 92) as [->|N1]; [reflexivity|].
  destruct (N.eqb_spec c 34) as [->|N2]; [reflexivity|].
  destruct (N.eqb_spec c 8) as [->|N3]; [reflexivity|].
  destruct (N.eqb_spec c 12) as [->|N4]; [reflexivity|].
  destruct (N.eqb_spec c 10) as [->|N5]; [reflexivity|].
  destruct (N.eqb_spec c 13) as [->|N6]; [reflexivity|].
  destruct (N.eqb_spec c 9) as [->|N7]; [reflexivity|].
  destruct (N.ltb_spec c 32) as [L|L].
  - apply scan_unicode_escape, L.
  - cbn [app scanstring].
    destruct (N.eqb_spec c 34); [contradiction|].
    destruct (N.eqb_spec c 92); [contradiction|].
    destruct (N.ltb_spec c 32); [lia | reflexivity].
Qed.

Lemma scanstring_encoded (s rest : pystr) :
  scanstring (flat_map escape_char s ++ 34%N :: rest) = Some (s, rest).
Proof.
  induction s as [|c s IH]; [reflexivity|].
  cbn [flat_map]; rewrite <- app_assoc, scan_escape_char, IH; reflexivity.
Qed.

(** *** White space *)

Lemma skip_ws_spaces (n : nat) (s : pystr) :
  skip_ws (repeat 32%N n ++ s) = skip_ws s.
Proof. induction n as [|n IH]; [reflexivity | exact IH]. Qed.

Lemma skip_ws_newline_indent (level : nat) (s : pystr) :
  skip_ws (newline_indent level ++ s) = skip_ws s.
Proof. unfold newline_indent; cbn [app skip_ws is_ws N.eqb orb Pos.eqb].
       apply skip_ws_spaces. Qed.

Lemma iterencode_opens (v : pyval) (level : nat) :
  exists c r, iterencode v level = c :: r /\ opens c.
Proof.
  unfold opens; destruct v as [|s|[|x l]|[|kv items]];
    eexists _, _; (split; [reflexivity|]); auto.
Qed.

Lemma skip_ws_opens (c : N) (s : pystr) :
  opens c -> skip_ws (c :: s) = c :: s.
Proof. intros [-> | [-> | [-> | ->]]]; reflexivity. Qed.

Lemma skip_ws_iterencode (v : pyval) (level : nat) (s : pystr) :
  skip_ws (iterencode v level ++ s) = iterencode v level ++ s.
Proof.
  destruct (iterencode_opens v level) as (c & r & -> & O).
  apply (skip_ws_opens c (r ++ s) O).
Qed.

(** *** Dictionaries *)

Lemma existsb_eqb_in (k : pystr) (l : list pystr) :
  existsb (PyStr.eqb k) l = true <-> In k l.
Proof.
  rewrite existsb_exists; unfold PyStr.eqb; split.
  - intros (x & Hin & E); destruct (pystr_eq_dec k x); [subst; auto | discriminate].
  - intros H; exists k; split; [exact H|].
    destruct (pystr_eq_dec k k); [reflexivity | congruence].
Qed.

Lemma distinct_nodup (l : list pystr) : distinct l = true <-> NoDup l.
Proof.
  induction l as [|k l IH]; simpl.
  - split; [constructor | reflexivity].
  - rewrite andb_true_iff, negb_true_iff, IH; split.
    + intros [E ND]; constructor; [|exact ND].
      intros H; apply existsb_eqb_in in H; congruence.
    + intros ND; inversion ND as [|? ? Hn ND']; subst; split; [|exact ND'].
      destruct (existsb (PyStr.eqb k) l) eqn:E; [|reflexivity].
      apply existsb_eqb_in in E; contradiction.
Qed.

Lemma dict_set_new {V} (k : pystr) (v : V) (d : dict V) :
  ~ In k (keys d) -> dict_set k v d = d ++ [(k, v)].
Proof.
  unfold keys; induction d as [|[k0 v0] d IH]; simpl; intros N;
    [reflexivity|].
  destruct (pystr_eq_dec k k0) as [->|_]; [tauto|].
  f_equal; apply IH; tauto.
Qed.

Lemma dict_of_pairs_distinct (pairs : list (pystr * pyval)) :
  forall acc,
  NoDup (map fst acc ++ map fst pairs) ->
  fold_left (fun a kv => dict_set (fst kv) (snd kv) a) pairs acc =
    acc ++ pairs.
Proof.
  induction pairs as [|[k v] pairs IH]; intros acc ND; simpl.
  - rewrite app_nil_r; reflexivity.
  - rewrite dict_set_new.
    + rewrite IH; [rewrite <- app_assoc; reflexivity|].
      rewrite map_app; simpl; rewrite <- app_assoc; exact ND.
    + simpl in ND; apply NoDup_remove_2 in ND.
      intros H; apply ND, in_or_app; left; exact H.
Qed.

(** *** Arrays and objects *)

Lemma joined_cons (sep a b : pystr) (cs : list pystr) :
  joined sep (a :: b :: cs) = a ++ sep ++ joined sep (b :: cs).
Proof. simpl; rewrite <- !app_assoc; reflexivity. Qed.

Lemma joined_one (sep a : pystr) : joined sep [a] = a.
Proof. apply app_nil_r. Qed.

Lemma array_items_step (fuel : nat) (s : pystr) :
  array_items (S fuel) s =
    match scan_once fuel s with
    | None => None
    | Some (value, s1) =>
        match skip_ws s1 with
        | [] => None
        | c :: s2 =>
            if (c =? 93)%N then Some ([value], s2)
            else if (c =? 44)%N then
              match array_items fuel (skip_ws s2) with
              | Some (values, rest) => Some (value :: values, rest)
              | None => None
              end
            else None
        end
    end.
Proof. reflexivity. Qed.

Lemma object_items_step (fuel : nat) (s1 : pystr) :
  object_items (S fuel) (34%N :: s1) =
    match scanstring s1 with
    | None => None
    | Some (key, s2) =>
        match skip_ws s2 with
        | [] => None
        | c :: s3 =>
            if (c =? 58)%N then
              match scan_once fuel (skip_ws s3) with
              | None => None
              | Some (value, s4) =>
                  match skip_ws s4 with
                  | [] => None
                  | c2 :: s5 =>
                      if (c2 =? 125)%N then Some ([(key, value)], s5)
                      else if (c2 =? 44)%N then
                        match object_items fuel (skip_ws s5) with
                        | Some (pairs, rest) =>
                            Some ((key, value) :: pairs, rest)
                        | None => None
                        end
                      else None
                  end
              end
            else None
        end
    end.
Proof. reflexivity. Qed.

Lemma array_items_encoded (l : list pyval) :
  forall x, Forall reads_back (x :: l) ->
  forallb well_keyed (x :: l) = true ->
  forall level outer fuel rest,
    list_sum (map (fun y => S (size y)) (x :: l)) <= fuel ->
    array_items fuel
      (joined (44%N :: newline_indent level)
         (map (fun y => iterencode y level) (x :: l)) ++
       newline_indent outer ++ 93%N :: rest) = Some (x :: l, rest).
Proof.
  induction l as [|y l IH]; intros x HP HW level outer fuel rest HF;
    inversion HP as [|? ? Px HP']; subst;
    cbn [forallb] in HW; apply andb_true_iff in HW; destruct HW as [Wx HW];
    cbn [map list_sum fold_right] in HF;
    (destruct fuel as [|fuel]; [lia|]); rewrite array_items_step.
  - cbn [map]; rewrite joined_one.
    rewrite (Px Wx level fuel _) by lia.
    rewrite skip_ws_newline_indent; reflexivity.
  - cbn [map]; rewrite joined_cons, <- !app_assoc.
    rewrite (Px Wx level fuel _) by lia.
    cbn [app skip_ws is_ws N.eqb Pos.eqb orb].
    rewrite skip_ws_newline_indent.
    change (iterencode y level :: map (fun y0 => iterencode y0 level) l)
      with (map (fun y0 => iterencode y0 level) (y :: l)).
    assert (E : skip_ws
                  (joined (44%N :: newline_indent level)
                     (map (fun y0 => iterencode y0 level) (y :: l)) ++
                   newline_indent outer ++ 93%N :: rest) =
                joined (44%N :: newline_indent level)
                  (map (fun y0 => iterencode y0 level) (y :: l)) ++
                newline_indent outer ++ 93%N :: rest).
    { cbn [map joined]; rewrite <- app_assoc; apply skip_ws_iterencode. }
    rewrite E, (IH y HP' HW level outer fuel rest); [reflexivity|].
    cbn [map list_sum fold_right]; cbn [map list_sum fold_right] in HF; lia.
Qed.

Lemma object_items_encoded (items : list (pystr * pyval)) :
  forall kv, Forall (fun p => reads_back (snd p)) (kv :: items) ->
  forallb (fun p => well_keyed (snd p)) (kv :: items) = true ->
  forall level outer fuel rest,
    list_sum (map (fun p => S (size (snd p))) (kv :: items)) <= fuel ->
    object_items fuel
      (joined (44%N :: newline_indent level)
         (map (fun p =>
                 encode_basestring (fst p) ++ [58%N; 32%N] ++
                 iterencode (snd p) level) (kv :: items)) ++
       newline_indent outer ++ 125%N :: rest) = Some (kv :: items, rest).
Proof.
  induction items as [|kv' items IH]; intros [k x] HP HW level outer fuel rest HF;
    inversion HP as [|? ? Px HP']; subst;
    cbn [forallb snd] in HW; apply andb_true_iff in HW;
    destruct HW as [Wx HW];
    cbn [map list_sum fold_right snd] in HF;
    (destruct fuel as [|fuel]; [lia|]);
    unfold reads_back in Px; cbn [snd] in Px.
  - cbn [map fst snd]; rewrite joined_one; unfold encode_basestring.
    cbn [app]; rewrite <- !app_assoc; cbn [app].
    rewrite object_items_step, scanstring_encoded.
    cbn [skip_ws is_ws N.eqb Pos.eqb orb].
    rewrite skip_ws_iterencode, (Px Wx level fuel _) by lia.
    rewrite skip_ws_newline_indent; reflexivity.
  - cbn [map fst snd]; rewrite joined_cons; unfold encode_basestring at 1.
    cbn [app]; rewrite <- !app_assoc; cbn [app].
    rewrite object_items_step, scanstring_encoded.
    cbn [skip_ws is_ws N.eqb Pos.eqb orb].
    rewrite skip_ws_iterencode, (Px Wx level fuel _) by lia.
    cbn [app skip_ws is_ws N.eqb Pos.eqb orb].
    rewrite <- app_assoc, skip_ws_newline_indent.
    set (enc := fun p : pystr * pyval =>
                  encode_basestring (fst p) ++ [58%N; 32%N] ++
                  iterencode (snd p) level).
    match goal with
    | |- context [object_items fuel ?a] =>
        change a with
          (skip_ws
             (joined (44%N :: newline_indent level)
                (map enc (kv' :: items)) ++
              newline_indent outer ++ 125%N :: rest))
    end.
    assert (E : skip_ws
                  (joined (44%N :: newline_indent level)
                     (map enc (kv' :: items)) ++
                   newline_indent outer ++ 125%N :: rest) =
                joined (44%N :: newline_indent level)
                  (map enc (kv' :: items)) ++
                newline_indent outer ++ 125%N :: rest).
    { cbn [map joined]; unfold enc at 1, encode_basestring; reflexivity. }
    rewrite E; subst enc.
    rewrite (IH kv' HP' HW level outer fuel rest); [reflexivity|].
    cbn [map list_sum fold_right]; cbn [map list_sum fold_right] in HF; lia.
Qed.

(** Every value with distinct keys is read back from its text. *)
Lemma scan_once_encoded (v : pyval) : reads_back v.
Proof.
  induction v as [|s|l IHl|items IHi] using pyval_induction;
    intros W level fuel rest HF;
    (destruct fuel as [|fuel]; [simpl in HF; lia|]).
  - reflexivity.
  - cbn [iterencode]; unfold encode_basestring.
    cbn [app scan_once]; rewrite <- app_assoc; cbn [app N.eqb Pos.eqb].
    rewrite scanstring_encoded; reflexivity.
  - destruct l as [|x l]; [reflexivity|].
    cbn [iterencode]; cbn [app]; rewrite <- !app_assoc.
    cbn [scan_once N.eqb Pos.eqb].
    rewrite skip_ws_newline_indent.
    cbn [well_keyed] in W; cbn [size] in HF.
    pose proof (array_items_encoded l x IHl W (S level) level fuel rest) as A.
    assert (Hd : exists c r,
              joined (44%N :: newline_indent (S level))
                (map (fun y => iterencode y (S level)) (x :: l)) ++
              newline_indent level ++ [93%N] ++ rest = c :: r /\ opens c).
    { destruct (iterencode_opens x (S level)) as (c & r & E & O).
      cbn [map joined]; rewrite E; eexists _, _; split; [reflexivity|exact O]. }
    destruct Hd as (c & r & E & O).
    rewrite E, (skip_ws_opens c r O).
    assert (N93 : (c =? 93)%N = false)
      by (destruct O as [-> | [-> | [-> | ->]]]; reflexivity).
    rewrite N93, <- E; cbn [app]; rewrite A by lia; reflexivity.
  - destruct items as [|kv items]; [reflexivity|].
    cbn [iterencode]; cbn [app]; rewrite <- !app_assoc.
    cbn [scan_once N.eqb Pos.eqb].
    rewrite skip_ws_newline_indent.
    cbn [well_keyed] in W; apply andb_true_iff in W; destruct W as [D W].
    cbn [size] in HF.
    pose proof (object_items_encoded items kv IHi W (S level) level fuel rest)
      as A.
    match goal with
    | |- context [skip_ws ?a] =>
        assert (Hd : exists r, a = 34%N :: r)
          by (cbn [map joined]; unfold encode_basestring;
              eexists; reflexivity);
        destruct Hd as (r & E); rewrite E
    end.
    cbn [skip_ws is_ws N.eqb Pos.eqb orb]; rewrite <- E.
    match goal with
    | |- context [object_items fuel ?a] =>
        change a with
          (joined (44%N :: newline_indent (S level))
             (map (fun p =>
                     encode_basestring (fst p) ++ [58%N; 32%N] ++
                     iterencode (snd p) (S level)) (kv :: items)) ++
           newline_indent level ++ 125%N :: rest)
    end.
    rewrite A by lia.
    unfold dict_of_pairs; rewrite dict_of_pairs_distinct; [reflexivity|].
    apply distinct_nodup, D.
Qed.

(** *** The fuel of [json_loads] *)

Lemma joined_length {A} (f : A -> nat) (g : A -> pystr) (sep : pystr)
    (l : list A) :
  1 <= length sep ->
  forall x, Forall (fun y => f y <= length (g y)) (x :: l) ->
  list_sum (map (fun y => S (f y)) (x :: l)) <=
    1 + length (joined sep (map g (x :: l))).
Proof.
  intros Hs; induction l as [|y l IH]; intros x HF;
    inversion HF as [|? ? Hx HF']; subst.
  - cbn [map]; rewrite joined_one; simpl; lia.
  - cbn [map]; rewrite joined_cons, !length_app.
    specialize (IH y HF'); cbn [map] in IH.
    change (list_sum (S (f x) :: S (f y) :: map (fun y0 => S (f y0)) l))
      with (S (f x) + list_sum (S (f y) :: map (fun y0 => S (f y0)) l)).
    lia.
Qed.

Lemma size_le_length (v : pyval) :
  forall level, size v <= length (iterencode v level).
Proof.
  induction v as [|s|l IHl|items IHi] using pyval_induction; intros level.
  - simpl; lia.
  - simpl; lia.
  - destruct l as [|x l]; [simpl; lia|].
    cbn [iterencode size]; rewrite !length_app.
    pose proof (joined_length size (fun y => iterencode y (S level))
                  (44%N :: newline_indent (S level)) l) as J.
    specialize (J ltac:(simpl; lia) x).
    assert (F : Forall (fun y => size y <= length (iterencode y (S level)))
                  (x :: l)).
    { revert IHl; apply Forall_impl; intros y H; apply H. }
    specialize (J F); cbv beta in J.
    set (Jn := length (joined _ _)) in *; set (Sm := list_sum _) in *.
    simpl; lia.
  - destruct items as [|kv items]; [simpl; lia|].
    pose (enc := fun p : pystr * pyval =>
                   encode_basestring (fst p) ++ [58%N; 32%N] ++
                   iterencode (snd p) (S level)).
    change (S (list_sum (map (fun p => S (size (snd p))) (kv :: items))) <=
            length ([123%N] ++ newline_indent (S level) ++
                    joined (44%N :: newline_indent (S level))
                      (map enc (kv :: items)) ++
                    newline_indent level ++ [125%N])).
    rewrite !length_app.
    pose proof (joined_length (fun p => size (snd p)) enc
                  (44%N :: newline_indent (S level)) items) as J.
    specialize (J ltac:(simpl; lia) kv).
    assert (F : Forall (fun p : pystr * pyval =>
                    size (snd p) <= length (enc p)) (kv :: items)).
    { revert IHi; apply Forall_impl; intros p H; unfold enc.
      rewrite !length_app; specialize (H (S level)); lia. }
    specialize (J F); cbv beta in J.
    unfold pystr in *; cbn [length]; lia.
Qed.

(** Reading the text that [json.dump] writes gives the value back. *)
Lemma json_loads_dumps (v : pyval) :
  well_keyed v = true -> json_loads (json_dumps v) = Some v.
Proof.
  intros W; unfold json_loads, json_dumps.
  pose proof (skip_ws_iterencode v 0 []) as E; rewrite app_nil_r in E.
  rewrite E.
  pose proof (scan_once_encoded v W 0 (S (length (iterencode v 0))) []) as R.
  rewrite app_nil_r in R; rewrite R; [reflexivity|].
  pose proof (size_le_length v 0); lia.
Qed.

End JsonProperties.

(** ** The counts of a topic *)

Section CountProperties.
Import Static Main.

Lemma token_lstrip_nonempty (s : pystr) :
  lstrip s <> [] -> token (lstrip s) <> [].
Proof. intros H E; apply H, token_nil_lstrip, E. Qed.

Lemma first_token_ok (s t : pystr) :
  first_token (strip s) = Ok t -> t = token (lstrip s) /\ t <> [].
Proof.
  rewrite first_token_strip.
  destruct (lstrip s) as [|c u] eqn:E; [discriminate|].
  intros H; injection H as <-.
  pose proof (token_lstrip_nonempty s) as T; rewrite E in T.
  split; [reflexivity | apply T; discriminate].
Qed.

(** A card that parses appends one summary, whose counts are the first
    tokens of the text behind the span of the first div.text-muted and of
    the text of the second. *)
Lemma fetch_card_counts (w : web) (ml_field : pystr) (c : card)
    (st st' : fetch_state) :
  fetch_card w ml_field c st = (Ok tt, st') ->
  exists t m0 m1 rest s,
    extracted_info st' = extracted_info st ++ [t] /\
    text_muted c = m0 :: m1 :: rest /\ span m0 = Some (TextNode s) /\
    ts_num_methods t = token (lstrip s) /\ ts_num_methods t <> [] /\
    ts_num_papers t = token (lstrip (muted_text m1)) /\
    ts_num_papers t <> [].
Proof.
  unfold fetch_card; destruct (h1 c) as [text|]; [|discriminate].
  destruct (get_topic_method_info w (strip text) c (methods st))
    as [[desc|e] ms]; [|discriminate].
  unfold num_methods_of, num_papers_of.
  destruct (text_muted c) as [|m0 [|m1 rest]]; try discriminate.
  - destruct (span m0) as [[|s|]|]; try discriminate.
    destruct (first_token (strip s)); discriminate.
  - destruct (span m0) as [[|s|]|] eqn:Es; try discriminate.
    destruct (first_token (strip s)) as [nm|] eqn:E1; [|discriminate].
    destruct (first_token (strip (muted_text m1))) as [np|] eqn:E2;
      [|discriminate].
    destruct (card_href c) as [href|]; [|discriminate].
    intros H; injection H as <-.
    destruct (first_token_ok s nm E1) as [T1 N1].
    destruct (first_token_ok (muted_text m1) np E2) as [T2 N2].
    eexists _, m0, m1, rest, s; cbn [extracted_info].
    split; [reflexivity|]; cbn [ts_num_methods ts_num_papers].
    repeat split; assumption.
Qed.

Lemma fetch_cards_counts (w : web) (ml_field : pystr) (cards : list card) :
  forall st st',
  incl cards (all_cards w) ->
  fetch_cards w ml_field cards st = (Ok tt, st') ->
  Forall (counts_are_tokens w) (extracted_info st) ->
  Forall (counts_are_tokens w) (extracted_info st').
Proof.
  induction cards as [|c cards IH]; intros st st' I E F; simpl in E.
  - injection E as <-; exact F.
  - destruct (fetch_card w ml_field c st) as [[[]|e] st1] eqn:E1;
      [|discriminate].
    apply (IH st1 st'); [intros x Hx; apply I; right; exact Hx | exact E|].
    destruct (fetch_card_counts w ml_field c st st1 E1)
      as (t & m0 & m1 & rest & s & -> & H).
    apply Forall_app; split; [exact F|].
    constructor; [|constructor].
    exists c, m0, m1, rest, s; split; [apply I; left; reflexivity | exact H].
Qed.

Lemma fetch_groups_counts (w : web) (groups : list group) :
  forall st st',
  (forall g cards, In g groups -> card_deck g = Some cards ->
                   incl cards (all_cards w)) ->
  fetch_groups w groups st = (Ok tt, st') ->
  Forall (counts_are_tokens w) (extracted_info st) ->
  Forall (counts_are_tokens w) (extracted_info st').
Proof.
  induction groups as [|g groups IH]; intros st st' I E F; simpl in E.
  - injection E as <-; exact F.
  - destruct (fetch_group w g st) as [[[]|e] st1] eqn:E1; [|discriminate].
    apply (IH st1 st'); [intros g' cs Hg; apply I; right; exact Hg | exact E|].
    unfold fetch_group in E1; destruct (h4 g) as [text|]; [|discriminate].
    destruct (card_deck g) as [cards|] eqn:Ed.
    + apply (fetch_cards_counts w (strip text) cards _ st1
               (I g cards (or_introl eq_refl) Ed) E1); exact F.
    + injection E1 as <-; exact F.
Qed.

(** The counts of every summary that the fetch returns. *)
Lemma fetch_initial_data_counts (w : web) (infos : list topic_summary)
    (rows : list method_row) (printed : list line) :
  fetch_initial_data w = (Ok (infos, rows), printed) ->
  Forall (counts_are_tokens w) infos.
Proof.
  unfold fetch_initial_data.
  destruct (methods_page w) as [groups|] eqn:Ew; [|discriminate].
  destruct (fetch_groups w groups _) as [[[]|e] st] eqn:E; [|discriminate].
  intros H; injection H as <- _ _.
  refine (fetch_groups_counts w groups _ st _ E _); [|constructor].
  intros g cards Hg Hd c Hc; unfold all_cards; rewrite Ew.
  apply in_flat_map; exists g; rewrite Hd; auto.
Qed.

End CountProperties.

(** ** The whole run *)

Section MainProperties.
Import Static Browser Json Main.

Variable site : pystr -> tab.

Lemma process_topic_link_total (topic_url : pystr) (d : driver) :
  driver_ok d ->
  exists results d',
    process_topic_link site topic_url d = (Ok results, d') /\
    driver_ok d' /\ NoDup (keys results).
Proof.
  intros OK.
  destruct (process_topic_link_unfold site topic_url d OK)
    as (d1 & _ & OK1 & _ & E).
  rewrite E; destruct (method_image (shown (site topic_url))) as [|div divs].
  - eexists _, _; split; [reflexivity|]; split; [exact OK1 | constructor].
  - destruct (harvest_links_spec site
                (extracted_links (firstn 20 (div :: divs))) []
                (printing (flat_map link_error (firstn 20 (div :: divs))) d1)
                (driver_ok_printing _ d1 OK1))
      as (outs & d' & E' & _ & _ & OK' & _).
    exists (assign_all outs []), d'; split; [exact E'|]; split; [exact OK'|].
    apply (assign_all_spec outs [] (NoDup_nil _)).
Qed.

Lemma dict_set_values {V} (P : V -> Prop) (k : pystr) (v : V) (d : dict V) :
  Forall (fun kv => P (snd kv)) d -> P v ->
  Forall (fun kv => P (snd kv)) (dict_set k v d).
Proof.
  intros F Pv; induction d as [|[k0 v0] d IH]; simpl.
  - constructor; [exact Pv | constructor].
  - inversion F as [|? ? P0 F']; subst.
    destruct (pystr_eq_dec k k0); constructor; auto.
Qed.

(** The loop over the topics never raises on a driver in order, and the
    dictionaries it builds have distinct keys. *)
Lemma crawl_topics_total (items : list topic_summary) :
  forall index overall d,
  driver_ok d -> NoDup (keys overall) ->
  Forall (fun kv => NoDup (keys (snd kv))) overall ->
  exists overall' d',
    crawl_topics site index items overall d = (Ok overall', d') /\
    driver_ok d' /\ NoDup (keys overall') /\
    Forall (fun kv => NoDup (keys (snd kv))) overall'.
Proof.
  induction items as [|item items IH]; intros index overall d OK ND F.
  - exists overall, d; auto.
  - cbn [crawl_topics]; destruct (ts_topic_link item) as [|c url] eqn:E.
    + unfold bind at 1; cbn [print].
      apply IH; auto.
    + unfold bind at 1; cbn [print].
      match goal with
      | |- context [bind _ _ ?d0] =>
          destruct (process_topic_link_total (c :: url) d0 OK)
            as (results & d1 & E1 & OK1 & ND1)
      end.
      unfold bind at 1; rewrite E1.
      apply IH; auto.
      * apply dict_set_nodup, ND.
      * apply (dict_set_values (fun r => NoDup (keys r))); assumption.
Qed.

(** *** The document has distinct keys *)

Lemma well_keyed_strings (l : list pystr) :
  forallb well_keyed (map PyStr l) = true.
Proof. induction l; [reflexivity | exact IHl]. Qed.

Lemma well_keyed_topics (l : list topic_summary) :
  forallb well_keyed (map topic_to_py l) = true.
Proof. induction l; [reflexivity | exact IHl]. Qed.

Lemma well_keyed_methods (l : list method_row) :
  forallb well_keyed (map method_to_py l) = true.
Proof.
  induction l as [|m l IH]; [reflexivity|].
  cbn [map forallb]; rewrite IH, andb_true_r.
  unfold method_to_py; destruct (mr_paper_name m); reflexivity.
Qed.

Lemma well_keyed_group (r : list page_entry) :
  well_keyed (group_to_py r) = true.
Proof.
  unfold group_to_py; cbn [well_keyed].
  induction r as [|e r IH]; [reflexivity|].
  cbn [map forallb]; rewrite IH, andb_true_r.
  unfold entry_to_py; cbn [well_keyed forallb snd map fst].
  rewrite !well_keyed_strings; reflexivity.
Qed.

Lemma well_keyed_topic_results (results : dict (list page_entry)) :
  NoDup (keys results) -> well_keyed (topic_results_to_py results) = true.
Proof.
  intros ND; unfold topic_results_to_py; cbn [well_keyed].
  rewrite map_map; cbn [fst]; apply andb_true_iff; split.
  - apply distinct_nodup; exact ND.
  - rewrite forallb_forall; intros kv H; apply in_map_iff in H.
    destruct H as (kv0 & <- & _); apply well_keyed_group.
Qed.

Lemma well_keyed_overall (overall : dict (dict (list page_entry))) :
  NoDup (keys overall) ->
  Forall (fun kv => NoDup (keys (snd kv))) overall ->
  well_keyed (overall_to_py overall) = true.
Proof.
  intros ND F; unfold overall_to_py; cbn [well_keyed].
  rewrite map_map; cbn [fst]; apply andb_true_iff; split.
  - apply distinct_nodup; exact ND.
  - rewrite forallb_forall; intros kv H; apply in_map_iff in H.
    destruct H as (kv0 & <- & Hin); cbn [snd].
    rewrite Forall_forall in F; apply well_keyed_topic_results, F, Hin.
Qed.

Lemma well_keyed_final_data (infos : list topic_summary)
    (rows : list method_row) (overall : dict (dict (list page_entry))) :
  NoDup (keys overall) ->
  Forall (fun kv => NoDup (keys (snd kv))) overall ->
  well_keyed (final_data infos rows overall) = true.
Proof.
  intros ND F; unfold final_data; cbn [well_keyed forallb snd map fst].
  rewrite well_keyed_topics, well_keyed_methods, well_keyed_overall by auto.
  reflexivity.
Qed.

(** C9: when a run has written its file, the file holds the text of the
    document, and reading this text gives the document of the run back: a
    dictionary of the summaries, the rows and the results, in which the two
    counts of every summary are strings, each the first run of non-space
    characters of its text on the card. *)
Theorem persisted_document_reads_back (w : web) (writable : bool)
    (content : pystr) :
  file (main site w writable) = Some content ->
  exists infos rows overall printed,
    fetch_initial_data w = (Ok (infos, rows), printed) /\
    ended (main site w writable) = Ok tt /\
    document (main site w writable) = Some (final_data infos rows overall) /\
    content = json_dumps (final_data infos rows overall) /\
    json_loads content = Some (final_data infos rows overall) /\
    Forall (counts_are_tokens w) infos /\
    Forall (fun t =>
              exists items,
                topic_to_py t = PyDict items /\
                dict_get (str "num_methods") items =
                  Some (PyStr (ts_num_methods t)) /\
                dict_get (str "num_papers") items =
                  Some (PyStr (ts_num_papers t))) infos.
Proof.
  unfold main.
  destruct (fetch_initial_data w) as [[[infos rows]|e] printed] eqn:Ef;
    [|discriminate].
  destruct (crawl_topics_total infos 0 []
              (printing printed setup_driver)
              (driver_ok_printing printed _ setup_driver_ok)
              (NoDup_nil _) (Forall_nil _))
    as (overall & d' & Ec & _ & ND & F).
  rewrite Ec; cbn [file ended document].
  unfold save_results.
  destruct (writable && forallb encodable _); [|discriminate].
  cbn [fst]; intros H; injection H as <-.
  exists infos, rows, overall, printed.
  split; [reflexivity|]; split; [reflexivity|]; split; [reflexivity|].
  split; [reflexivity|]; split.
  - apply json_loads_dumps, well_keyed_final_data; assumption.
  - split; [exact (fetch_initial_data_counts w infos rows printed Ef)|].
    rewrite Forall_forall; intros t _; eexists; split; [reflexivity|].
    split; reflexivity.
Qed.

End MainProperties.


Section MainRun.
Import Static Browser Json Main BrowserExamples.

Lemma run_example_file :
  file (main site Examples.web_good true) = Some run_content.
Proof. vm_compute; reflexivity. Qed.

Lemma persisted_document_reads_back_witness :
  file (main site Examples.web_good true) = Some run_content /\
  json_loads run_content = document (main site Examples.web_good true).
Proof.
  split; [exact run_example_file|].
  destruct (persisted_document_reads_back site Examples.web_good true
              run_content run_example_file)
    as (infos & rows & overall & printed & _ & _ & D & _ & L & _).
  rewrite D; exact L.
Defined.

End MainRun.

(** * Further properties *)

(** ** The static fetch *)

Section StaticCoverage.
Import Static Main.

Lemma rstrip_tail (c : N) (s : pystr) :
  rstrip (c :: s) = c :: s -> rstrip s = s.
Proof.
  simpl; destruct (rstrip s) as [|b t] eqn:E.
  - destruct (isspace c); [discriminate|].
    intros H; injection H as <-; reflexivity.
  - intros H; injection H as <-; reflexivity.
Qed.

Lemma rstrip_suffix (pre post : pystr) :
  rstrip (pre ++ post) = pre ++ post -> rstrip post = post.
Proof.
  induction pre as [|c pre IH]; [auto|].
  intros H; apply IH, (rstrip_tail c), H.
Qed.

Lemma rstrip_strip (s : pystr) : rstrip (strip s) = strip s.
Proof. apply rstrip_idem. Qed.

Lemma split_cell_trimmed (raw method_name : pystr) (paper : option pystr) :
  split_cell (strip raw) = Ok (method_name, paper) ->
  match paper with
  | Some p => rstrip p = p
  | None => True
  end.
Proof.
  unfold split_cell; destruct (contains separator (strip raw)) eqn:E.
  - destruct (split1_first separator _ E) as (pre & post & -> & Eq & _).
    intros H; injection H as _ <-.
    apply (rstrip_suffix (pre ++ separator)).
    rewrite <- app_assoc, <- Eq; apply rstrip_strip.
  - intros H; injection H as _ <-; exact I.
Qed.

(** X1: the table loop appends its rows in the order of the table: the
    years and counts of the appended rows are those of the table rows with
    at least three cells, in their order; in every appended row the method,
    the year and the count are trimmed, and the paper name, when there is
    one, has no white space at its end. *)
Theorem rows_in_table_order (topic_name : pystr) (rows : list (list pystr))
    (methods_list : list method_row) :
  exists added,
    parse_rows topic_name rows methods_list = (Ok tt, methods_list ++ added) /\
    map (fun r => (mr_year r, mr_num_papers r)) added =
      map (fun row => (strip (nth 1 row []), strip (nth 2 row [])))
        (filter (fun row => 3 <=? length row) rows) /\
    Forall row_fields_trimmed added.
Proof.
  revert methods_list; induction rows as [|row rows IH]; intros ms;
    cbn [parse_rows filter].
  - exists []; rewrite app_nil_r; repeat split; constructor.
  - destruct (Nat.leb_spec 3 (length row)) as [L|L].
    + destruct (parse_row_long topic_name row ms L) as (m & p & Hc & ->).
      destruct (IH (ms ++ [{| mr_topic_name := topic_name;
                              mr_method := strip m;
                              mr_year := strip (nth 1 row []);
                              mr_num_papers := strip (nth 2 row []);
                              mr_paper_name := p |}]))
        as (added & -> & Ho & Ht).
      eexists (_ :: added); rewrite <- app_assoc; cbn [app map].
      split; [reflexivity|]; split; [cbn [mr_year mr_num_papers]; f_equal; exact Ho|].
      constructor; [|exact Ht].
      repeat split; cbn [mr_method mr_year mr_num_papers mr_paper_name];
        try apply strip_idem.
      exact (split_cell_trimmed _ _ _ Hc).
    + rewrite (parse_row_short topic_name row ms L).
      destruct (IH ms) as (added & -> & Ho & Ht).
      exists added; auto.
Qed.

(** *** The summaries and the cards *)

Lemma card_href_ok (c : card) (href : pystr) :
  card_href c = Ok href -> a c = Some (Some href).
Proof.
  unfold card_href; destruct (a c) as [[h|]|]; try discriminate.
  intros H; injection H as ->; reflexivity.
Qed.

(** The rows that a topic page adds carry the name of the topic. *)
Lemma get_topic_method_info_ok (w : web) (topic_name : pystr) (c : card)
    (ms ms' : list method_row) (desc : option pystr) :
  get_topic_method_info w topic_name c ms = (Ok desc, ms') ->
  exists href added,
    a c = Some (Some href) /\ ms' = ms ++ added /\
    Forall (fun m => mr_topic_name m = topic_name) added.
Proof.
  unfold get_topic_method_info.
  destruct (card_href c) as [href|] eqn:Eh; [|discriminate].
  destruct (requests_get w (BASE_URL ++ href)) as [soup|]; [|discriminate].
  destruct (method_content soup) as [[[rows|]|]|].
  - destruct (parse_rows_spec topic_name rows ms) as (added & -> & _ & Ho).
    intros H; injection H as _ <-.
    exists href, added; split; [exact (card_href_ok c href Eh)|].
    split; [reflexivity|].
    rewrite Forall_forall; intros m Hm.
    destruct (Ho m Hm) as (row & _ & _ & Hn & _); exact Hn.
  - discriminate.
  - intros H; injection H as _ <-; exists href, []; rewrite app_nil_r.
    split; [exact (card_href_ok c href Eh)|]; split; [reflexivity|constructor].
  - intros H; injection H as _ <-; exists href, []; rewrite app_nil_r.
    split; [exact (card_href_ok c href Eh)|]; split; [reflexivity|constructor].
Qed.

Lemma fetch_card_ok (w : web) (ml_field : pystr) (c : card)
    (st st' : fetch_state) :
  fetch_card w ml_field c st = (Ok tt, st') ->
  exists name href t added,
    h1 c = Some name /\ a c = Some (Some href) /\
    extracted_info st' = extracted_info st ++ [t] /\
    ts_topic_name t = strip name /\ ts_ml_field t = ml_field /\
    ts_topic_link t = BASE_URL ++ href /\
    methods st' = methods st ++ added /\
    Forall (fun m => mr_topic_name m = ts_topic_name t) added.
Proof.
  unfold fetch_card; destruct (h1 c) as [name|]; [|discriminate].
  destruct (get_topic_method_info w (strip name) c (methods st))
    as [[desc|e] ms] eqn:Eg; [|discriminate].
  destruct (get_topic_method_info_ok w _ c _ _ _ Eg)
    as (href & added & Ea & -> & Fa).
  destruct (num_methods_of c); [|discriminate].
  destruct (num_papers_of c); [|discriminate].
  unfold card_href; rewrite Ea.
  intros H; injection H as <-.
  exists name, href; eexists _, added; cbn.
  repeat split; auto.
Qed.

Lemma rows_named_by_weaken (ts ts' : list topic_summary)
    (rows : list method_row) :
  incl ts ts' -> rows_named_by ts rows -> rows_named_by ts' rows.
Proof.
  intros I; apply Forall_impl; intros m (t & Ht & Hn).
  exists t; split; [apply I, Ht | exact Hn].
Qed.

Lemma fetch_cards_ok (w : web) (field : pystr) (cards : list card) :
  forall st st',
  fetch_cards w (strip field) cards st = (Ok tt, st') ->
  exists ts added,
    extracted_info st' = extracted_info st ++ ts /\
    Forall2 (fun c t => summarises (Some field, c) t) cards ts /\
    methods st' = methods st ++ added /\
    rows_named_by ts added.
Proof.
  induction cards as [|c cards IH]; intros st st'; cbn [fetch_cards].
  - intros H; injection H as <-; exists [], []; rewrite !app_nil_r.
    repeat split; constructor.
  - destruct (fetch_card w (strip field) c st) as [[[]|e] st1] eqn:E1;
      [|discriminate].
    destruct (fetch_card_ok w _ c st st1 E1)
      as (name & href & t & added & Hh & Ha & Hi & Hn & Hf & Hl & Hm & Hr).
    intros E2; destruct (IH st1 st' E2) as (ts & added' & Hi' & F2 & Hm' & Hr').
    exists (t :: ts), (added ++ added').
    rewrite Hi', Hi, Hm', Hm, <- !app_assoc.
    split; [reflexivity|]; split; [|split; [reflexivity|]].
    + constructor; [|exact F2].
      exists field, name, href; cbn [fst snd]; repeat split; assumption.
    + apply Forall_app; split.
      * revert Hr; apply Forall_impl; intros m Hm0.
        exists t; split; [left; reflexivity | exact Hm0].
      * apply (rows_named_by_weaken ts); [|exact Hr'].
        intros x Hx; right; exact Hx.
Qed.

Lemma fetch_group_ok (w : web) (g : group) (st st' : fetch_state) :
  fetch_group w g st = (Ok tt, st') ->
  exists ts added,
    extracted_info st' = extracted_info st ++ ts /\
    Forall2 summarises (cards_under g) ts /\
    methods st' = methods st ++ added /\
    rows_named_by ts added.
Proof.
  unfold fetch_group, cards_under; destruct (h4 g) as [field|]; [|discriminate].
  destruct (card_deck g) as [cards|].
  - intros E; destruct (fetch_cards_ok w field cards _ st' E)
      as (ts & added & Hi & F2 & Hm & Hr).
    exists ts, added; cbn [extracted_info methods] in Hi, Hm.
    split; [exact Hi|]; split; [|split; [exact Hm | exact Hr]].
    clear -F2; induction F2; cbn [map]; constructor; assumption.
  - intros H; injection H as <-; exists [], []; cbn; rewrite !app_nil_r.
    repeat split; constructor.
Qed.

Lemma fetch_groups_ok (w : web) (groups : list group) :
  forall st st',
  fetch_groups w groups st = (Ok tt, st') ->
  exists ts added,
    extracted_info st' = extracted_info st ++ ts /\
    Forall2 summarises (flat_map cards_under groups) ts /\
    methods st' = methods st ++ added /\
    rows_named_by ts added.
Proof.
  induction groups as [|g groups IH]; intros st st'; cbn [fetch_groups].
  - intros H; injection H as <-; exists [], []; rewrite !app_nil_r.
    repeat split; constructor.
  - destruct (fetch_group w g st) as [[[]|e] st1] eqn:E1; [|discriminate].
    destruct (fetch_group_ok w g st st1 E1) as (ts & added & Hi & F2 & Hm & Hr).
    intros E2; destruct (IH st1 st' E2) as (ts' & added' & Hi' & F2' & Hm' & Hr').
    exists (ts ++ ts'), (added ++ added').
    rewrite Hi', Hi, Hm', Hm, <- !app_assoc.
    split; [reflexivity|]; split; [|split; [reflexivity|]].
    + cbn [flat_map]; apply Forall2_app; assumption.
    + apply Forall_app; split.
      * apply (rows_named_by_weaken ts); [|exact Hr].
        intros x Hx; apply in_or_app; left; exact Hx.
      * apply (rows_named_by_weaken ts'); [|exact Hr'].
        intros x Hx; apply in_or_app; right; exact Hx.
Qed.

Lemma fetch_initial_data_ok (w : web) (infos : list topic_summary)
    (rows : list method_row) (out : list line) :
  fetch_initial_data w = (Ok (infos, rows), out) ->
  Forall2 summarises (labelled_cards w) infos /\ rows_named_by infos rows.
Proof.
  unfold fetch_initial_data, labelled_cards.
  destruct (methods_page w) as [groups|]; [|discriminate].
  destruct (fetch_groups w groups _) as [[[]|e] st] eqn:E; [|discriminate].
  intros H; injection H as <- <- _.
  destruct (fetch_groups_ok w groups _ st E) as (ts & added & Hi & F2 & Hm & Hr).
  cbn in Hi, Hm; rewrite Hi, Hm; split; assumption.
Qed.



(** X3: when the fetch returns, every MethodRow carries the topic name of
    one of the returned summaries: no row is left from a card that has no
    summary. *)
Theorem rows_name_a_summary (w : web) (infos : list topic_summary)
    (rows : list method_row) (out : list line) :
  fetch_initial_data w = (Ok (infos, rows), out) ->
  rows_named_by infos rows.
Proof.
  intros E; exact (proj2 (fetch_initial_data_ok w infos rows out E)).
Qed.

Lemma rows_name_a_summary_witness :
  exists infos rows out,
    fetch_initial_data Examples.web_good = (Ok (infos, rows), out) /\
    length rows = 2 /\ rows_named_by infos rows.
Proof.
  eexists _, _, _; split; [vm_compute; reflexivity|].
  split; [reflexivity|].
  eapply (rows_name_a_summary Examples.web_good).
  vm_compute; reflexivity.
Defined.

(** *** The description *)

Lemma get_topic_method_info_tables (w w' : web) (topic_name : pystr)
    (c : card) (ms : list method_row) :
  same_tables w w' ->
  snd (get_topic_method_info w topic_name c ms) =
    snd (get_topic_method_info w' topic_name c ms) /\
  match fst (get_topic_method_info w topic_name c ms),
        fst (get_topic_method_info w' topic_name c ms) with
  | Ok _, Ok _ => True
  | Raise e, Raise e' => e = e'
  | _, _ => False
  end.
Proof.
  intros (_ & Hq); unfold get_topic_method_info.
  destruct (card_href c) as [href|e]; [|split; reflexivity].
  specialize (Hq (BASE_URL ++ href)).
  destruct (requests_get w (BASE_URL ++ href)) as [soup|],
    (requests_get w' (BASE_URL ++ href)) as [soup'|];
    try discriminate; [|split; reflexivity].
  injection Hq as <-.
  destruct (method_content soup) as [[[rows|]|]|]; try (split; reflexivity).
  destruct (parse_rows topic_name rows ms) as [[[]|e] ms']; split; reflexivity.
Qed.

Lemma fetch_card_tables (w w' : web) (ml_field : pystr) (c : card)
    (st : fetch_state) :
  same_tables w w' -> fetch_card w ml_field c st = fetch_card w' ml_field c st.
Proof.
  intros T; unfold fetch_card; destruct (h1 c) as [name|]; [|reflexivity].
  destruct (get_topic_method_info_tables w w' (strip name) c (methods st) T)
    as (Hs & Hf).
  destruct (get_topic_method_info w (strip name) c (methods st)) as [[x|e] ms],
    (get_topic_method_info w' (strip name) c (methods st)) as [[x'|e'] ms'];
    cbn [fst snd] in Hs, Hf; subst; try contradiction; reflexivity.
Qed.

Lemma fetch_cards_tables (w w' : web) (ml_field : pystr) (cards : list card) :
  same_tables w w' ->
  forall st, fetch_cards w ml_field cards st = fetch_cards w' ml_field cards st.
Proof.
  intros T; induction cards as [|c cards IH]; intros st; cbn [fetch_cards];
    [reflexivity|].
  rewrite (fetch_card_tables w w' ml_field c st T).
  destruct (fetch_card w' ml_field c st) as [[[]|e] st1]; [apply IH|reflexivity].
Qed.

Lemma fetch_groups_tables (w w' : web) (groups : list group) :
  same_tables w w' ->
  forall st, fetch_groups w groups st = fetch_groups w' groups st.
Proof.
  intros T; induction groups as [|g groups IH]; intros st; cbn [fetch_groups];
    [reflexivity|].
  assert (G : fetch_group w g st = fetch_group w' g st).
  { unfold fetch_group; destruct (h4 g); [|reflexivity].
    destruct (card_deck g); [apply fetch_cards_tables, T | reflexivity]. }
  rewrite G; destruct (fetch_group w' g st) as [[[]|e] st1];
    [apply IH | reflexivity].
Qed.

(** X4: the description that [get_topic_method_info] reads and returns has
    no effect: two sites that differ only in the description containers of
    their topic pages give the same summaries, the same rows, the same
    exception and the same output. *)
Theorem description_not_used (w w' : web) :
  same_tables w w' -> fetch_initial_data w = fetch_initial_data w'.
Proof.
  intros T; unfold fetch_initial_data.
  rewrite <- (proj1 T); destruct (methods_page w) as [groups|]; [|reflexivity].
  rewrite (fetch_groups_tables w w' groups T); reflexivity.
Qed.

Lemma description_not_used_witness :
  description_content Examples.soup_cnn <> None /\
  fetch_initial_data Examples.web_good =
    fetch_initial_data MoreExamples.web_no_description.
Proof.
  split; [discriminate|].
  apply (description_not_used Examples.web_good
           MoreExamples.web_no_description).
  split; [reflexivity | intros url; reflexivity].
Defined.

End StaticCoverage.

(** ** The driver *)

Ltac conjuncts := repeat match goal with |- _ /\ _ => split end.

Section ExtractionCoverage.
Import Browser.

Lemma current_page_tab (d : driver) (t : tab) :
  current_tab d = Some t -> current_page d = (Ok (shown t), d).
Proof. intros C; unfold current_page; rewrite C; reflexivity. Qed.

(** X5: [extract_text_from_page] never raises and never changes the windows
    of the driver: on a page that has the abstract container, its column,
    its paragraph, the title container and its heading it returns the two
    trimmed texts and prints nothing; otherwise, also when the current
    window is closed, it prints one error line and returns the empty
    string. *)
Theorem extraction_never_raises (d : driver) :
  exists v d',
    extract_text_from_page d = (Ok v, d') /\
    windows d' = windows d /\
    current_window_handle d' = current_window_handle d /\
    calls d' = calls d /\
    match current_tab d with
    | Some t =>
        match paper_abstract (shown t), paper_title (shown t) with
        | Some (Some (Some text)), Some (Some title) =>
            v = Pair (strip title) (strip text) /\ stdout d' = stdout d
        | _, _ =>
            v = Str [] /\
            exists e, stdout d' = stdout d ++ [ErrorExtractingText e]
        end
    | None =>
        v = Str [] /\
        stdout d' = stdout d ++ [ErrorExtractingText NoSuchWindowException]
    end.
Proof.
  destruct (current_tab d) as [t|] eqn:C.
  - pose proof (current_page_tab d t C) as P.
    unfold extract_text_from_page, try_except, wait_element, find_element,
      bind.
    rewrite P.
    destruct (paper_abstract (shown t)) as [[[text|]|]|]; simpl;
      rewrite ?P; simpl;
      destruct (paper_title (shown t)) as [[title|]|]; simpl;
      eexists _, _; (split; [reflexivity|]); simpl; repeat split;
      eexists; reflexivity.
  - unfold extract_text_from_page, try_except, wait_element, bind,
      current_page; rewrite C; simpl.
    eexists _, _; split; [reflexivity|]; simpl; repeat split.
Qed.

Lemma on_page_ok (p : page) : driver_ok (on_page p).
Proof.
  split; [eexists; reflexivity|].
  repeat constructor.
Qed.

End ExtractionCoverage.

Section BrowserCoverage.
Import Browser.
Variable site : pystr -> tab.

(** *** The links of a listing page *)

Lemma collect_urls_none (hrefs : list (option pystr)) :
  In None hrefs ->
  forall urls, collect_urls hrefs urls = Raise AttributeError.
Proof.
  induction hrefs as [|[href|] hrefs IH]; intros H urls; cbn [collect_urls].
  - destruct H.
  - destruct H as [H|H]; [discriminate | apply IH, H].
  - reflexivity.
Qed.

Lemma collect_urls_some (hrefs : list pystr) :
  collect_urls (map Some hrefs) [] = Ok (map absolute hrefs).
Proof.
  induction hrefs as [|href hrefs IH]; cbn [map collect_urls]; [reflexivity|].
  rewrite collect_urls_app, IH; reflexivity.
Qed.

(** The function in terms of its second loop. *)
Lemma process_black_links_visit (d : driver) (t : tab) (urls : list pystr) :
  current_tab d = Some t -> black_links (shown t) <> [] ->
  collect_urls (black_links (shown t)) [] = Ok urls ->
  process_black_links site d =
    match visit_urls site (current_window_handle d) urls empty_entry d with
    | ((e, None), d2) => (Ok e, d2)
    | ((e, Some x), d2) =>
        (Ok e, snd (print (ErrorProcessingBlackLinks x) d2))
    end.
Proof.
  intros C B U; pose proof (current_page_tab d t C) as P.
  unfold process_black_links, links_and_window, wait_elements, find_elements,
    bind.
  rewrite P.
  destruct (black_links (shown t)) as [|href hrefs] eqn:Eb; [congruence|].
  cbn [ret]; rewrite P; cbn [ret]; rewrite ?Eb, U.
  unfold get_current_window_handle; rewrite C; cbn [ret].
  reflexivity.
Qed.

(** X6: a paper link without href attribute makes the first loop raise
    AttributeError before any paper is visited: the page yields the empty
    entry, also when all its other links are sound, one error line is
    printed and the driver is left as it was. *)
Theorem link_without_href_empties_page (d : driver) (t : tab) :
  current_tab d = Some t -> In None (black_links (shown t)) ->
  process_black_links site d =
    (Ok empty_entry,
     printing [ErrorProcessingBlackLinks AttributeError] d).
Proof.
  intros C H; pose proof (current_page_tab d t C) as P.
  unfold process_black_links, links_and_window, wait_elements, find_elements,
    bind.
  rewrite P.
  destruct (black_links (shown t)) as [|href hrefs] eqn:Eb; [destruct H|].
  cbn [ret]; rewrite P; cbn [ret]; rewrite ?Eb.
  rewrite (collect_urls_none (href :: hrefs) H []).
  reflexivity.
Qed.

Lemma harvest_clean (urls : list pystr) :
  forall e,
  forallb (extracts_url site) urls = true ->
  harvest site urls e =
    {| title := title e ++ title (entry_of_papers site urls);
       text := text e ++ text (entry_of_papers site urls) |}.
Proof.
  induction urls as [|url urls IH]; intros e; cbn [harvest forallb].
  - intros _; cbn; rewrite !app_nil_r; destruct e; reflexivity.
  - unfold extracts_url at 1, entry_of_papers, paper_of; cbn [map title text].
    destruct (extracts (shown (site url))) as [[ti te]|]; [|discriminate].
    cbn [andb]; intros A; rewrite (IH _ A).
    unfold append_text, append_title, entry_of_papers, paper_of;
      cbn [title text fst snd].
    rewrite <- !app_assoc; reflexivity.
Qed.

(** X7: on a listing page whose links all have an href and whose papers
    all extract, [process_black_links] returns the titles and the
    abstracts of the papers in the order of the links, and leaves the
    driver with the windows it had, on the window it was on. *)
Theorem clean_page_harvested (d : driver) (t : tab) (hrefs : list pystr) :
  driver_ok d -> current_tab d = Some t -> hrefs <> [] ->
  black_links (shown t) = map Some hrefs ->
  forallb (extracts_url site) (map absolute hrefs) = true ->
  exists d',
    process_black_links site d =
      (Ok (entry_of_papers site (map absolute hrefs)), d') /\
    windows d' = windows d /\
    current_window_handle d' = current_window_handle d.
Proof.
  intros OK C Hn B A.
  destruct (driver_ok_inv d OK) as (t' & F & H).
  assert (t' = t) by (unfold current_tab in C; congruence); subst t'.
  destruct (process_black_links_spec site d _ _ _ _ t (state_is_self d) F H)
    as (d' & E & _ & _ & Cl).
  assert (Ec : clean site (shown t) = true).
  { unfold clean; rewrite B, collect_urls_some; exact A. }
  destruct (Cl Ec) as (fr' & _ & (W & Cu & _)).
  exists d'; split; [|split; assumption].
  rewrite E; unfold entry_of; rewrite B.
  destruct hrefs as [|href hrefs]; [congruence|].
  pose proof (collect_urls_some (href :: hrefs)) as Us.
  cbn [map] in Us, A |- *; rewrite Us.
  rewrite (harvest_clean _ empty_entry A); reflexivity.
Qed.

(** The second loop on a paper that does not extract. *)
Lemma visit_urls_leak (before : list pystr) (url : pystr)
    (after : list pystr) :
  forall (e : page_entry) (d : driver) ws cur fr n (t0 : tab),
  state_is d ws cur fr n -> find_window cur ws = Some t0 ->
  Forall (fun h => h < fr) (map fst ws) ->
  forallb (extracts_url site) before = true ->
  extracts_url site url = false ->
  exists d' fr',
    visit_urls site cur (before ++ url :: after) e d =
      ((harvest site before e, Some ValueError), d') /\
    fr <= fr' /\
    state_is d' (ws ++ [(fr', site url)]) fr' (S fr') n.
Proof.
  induction before as [|u before IH]; intros e d ws cur fr n t0 St F L A X;
    pose proof (handles_below fr ws L) as N.
  - destruct (open_and_extract_spec site url d ws cur fr n t0 St F N)
      as (d1 & E1 & S1).
    cbn [app visit_urls harvest]; rewrite E1.
    unfold extracts_url in X.
    destruct (extracts (shown (site url))) as [p|]; [discriminate|].
    exists d1, fr; split; [reflexivity|]; split; [lia | exact S1].
  - destruct (open_and_extract_spec site u d ws cur fr n t0 St F N)
      as (d1 & E1 & S1).
    cbn [app visit_urls harvest forallb] in *; rewrite E1.
    unfold extracts_url at 1 in A.
    destruct (extracts (shown (site u))) as [[ti te]|]; [|discriminate].
    cbn [andb] in A.
    destruct (close_and_return_spec d1 ws cur fr n _ t0 S1 N F)
      as (d2 & E2 & S2).
    rewrite E2.
    destruct (IH (append_text te (append_title ti e)) d2 ws cur (S fr) n t0
                S2 F (handles_weaken fr (S fr) ws (Nat.le_succ_diag_r fr) L)
                A X) as (d' & fr' & E' & Lf & S').
    exists d', fr'; split; [exact E'|]; split; [lia | exact S'].
Qed.

Lemma harvest_length (urls : list pystr) :
  forall e,
  forallb (extracts_url site) urls = true ->
  length (title (harvest site urls e)) = length (title e) + length urls.
Proof.
  intros e A; rewrite (harvest_clean urls e A); cbn [title].
  unfold entry_of_papers; cbn [title].
  rewrite length_app, length_map; reflexivity.
Qed.

(** X8: when a paper of a listing page does not extract, the loop over the
    links ends there: the entry holds the papers before it, and the window
    that was opened for the paper is left open and current, in addition to
    the windows that the driver had; none of the later papers is
    visited. *)
Theorem failed_extraction_leaves_tab (d : driver) (t : tab)
    (before after : list pystr) (url : pystr) :
  driver_ok d -> current_tab d = Some t ->
  collect_urls (black_links (shown t)) [] = Ok (before ++ url :: after) ->
  forallb (extracts_url site) before = true ->
  extracts_url site url = false ->
  exists e d' h,
    process_black_links site d = (Ok e, d') /\
    length (title e) = length before /\
    ~ In h (window_handles d) /\
    windows d' = windows d ++ [(h, site url)] /\
    current_window_handle d' = h.
Proof.
  intros OK C U A X.
  destruct (driver_ok_inv d OK) as (t' & F & H).
  assert (B : black_links (shown t) <> []).
  { intros B; rewrite B in U; cbn in U.
    destruct before; discriminate. }
  rewrite (process_black_links_visit d t _ C B U).
  destruct (visit_urls_leak before url after empty_entry d _ _ _ _ t'
              (state_is_self d) F H A X) as (d' & fr' & E & Lf & S').
  rewrite E; cbn [snd print].
  exists (harvest site before empty_entry), (printing [ErrorProcessingBlackLinks ValueError] d'), fr'.
  split; [reflexivity|]; split; [|split; [|split]].
  - rewrite (harvest_length before empty_entry A); reflexivity.
  - apply handles_below; unfold window_handles.
    apply (handles_weaken (fresh d) fr' _ Lf H).
  - cbn [printing windows]; apply S'.
  - cbn [printing current_window_handle]; apply S'.
Qed.

(** *** The loop over the pages *)

(** Every entry of the loop is the entry of a page: the first one, when
    the loop is entered, that of the page that the driver is on. *)
Lemma paginate_pages (fuel : nat) :
  forall pc acc d, driver_ok d ->
  exists ex ps d',
    paginate site fuel pc acc d =
      (Ok (ex, acc ++ map (entry_of site) ps), d') /\
    driver_ok d' /\ length ps <= 10 - pc /\
    clicks d' <= clicks d + length ps /\
    (0 < fuel -> pc < 10 ->
     exists t rest, current_tab d = Some t /\ ps = shown t :: rest).
Proof.
  induction fuel as [|fuel IH]; intros pc acc d OK.
  - exists Ceiling, [], d; cbn [paginate ret map]; rewrite app_nil_r.
    cbn [length]; conjuncts; auto; try lia.
  - destruct (Nat.ltb_spec pc 10) as [L|L].
    + destruct (driver_ok_inv d OK) as (t & F & H).
      destruct (process_black_links_spec site d _ _ _ _ t (state_is_self d)
                  F H) as (d1 & E1 & OK1 & K1 & _).
      rewrite (paginate_unfold site fuel pc acc d d1 _ L E1).
      destruct (driver_ok_inv d1 OK1) as (t1 & F1 & H1).
      pose proof (click_and_look_spec d1 _ _ _ _ t1 (state_is_self d1) F1)
        as C.
      destruct (next_clickable (shown t1)).
      * destruct C as (d2 & E2 & S2); rewrite E2.
        assert (OK2 : driver_ok d2).
        { apply (driver_ok_state d2 _ _ _ _ (advance t1) S2
                   (find_set_window _ (advance t1) t1 _ F1)).
          rewrite set_window_handles; exact H1. }
        assert (K2 : clicks d2 = S (clicks d)) by (rewrite <- K1; apply S2).
        destruct (next_disabled (shown (advance t1))).
        -- exists NextDisabled, [shown t], d2.
           cbn [length map]; conjuncts; auto; try lia.
           intros _ _; exists t, []; split; [exact F | reflexivity].
        -- destruct (IH (pc + 1) (acc ++ [entry_of site (shown t)]) d2 OK2)
             as (ex & ps & d' & E' & OK' & Lr & K' & _).
           exists ex, (shown t :: ps), d'.
           rewrite E', <- app_assoc; cbn [app length map].
           conjuncts; auto; try lia.
           intros _ _; exists t, ps; split; [exact F | reflexivity].
      * rewrite C.
        exists NoNext, [shown t],
          (snd (print (NoAdditionalPage TimeoutException) d1)).
        cbn [length map]; conjuncts; auto; try lia.
        -- unfold clicks in *; simpl; lia.
        -- intros _ _; exists t, []; split; [exact F | reflexivity].
    + exists Ceiling, [], d; cbn [paginate].
      destruct (Nat.ltb_spec pc 10); [lia|].
      unfold ret; cbn [map]; rewrite app_nil_r; cbn [length]; conjuncts; auto;
        try lia.
Qed.

Lemma process_method_image_pages (url : pystr) (d : driver) :
  driver_ok d ->
  exists ex rest d',
    process_method_image_exit site url d =
      (Ok (ex, map (entry_of site) (shown (site url) :: rest)), d') /\
    process_method_image site url d =
      (Ok (map (entry_of site) (shown (site url) :: rest)), d') /\
    driver_ok d' /\ length rest <= 9 /\ clicks d' <= clicks d + 10.
Proof.
  intros OK; destruct (driver_get_ok site url d OK)
    as (d1 & t & E1 & S1 & F & H).
  pose proof (find_set_window _ (site url) t _ F) as F1.
  pose proof (driver_ok_state d1 _ _ _ _ _ S1 F1 H) as OK1.
  destruct (paginate_pages 10 0 [] d1 OK1)
    as (ex & ps & d' & E' & OK' & Lp & K' & Hd).
  destruct Hd as (t1 & rest & C1 & ->); try lia.
  rewrite (current_tab_state _ _ _ _ _ S1), F1 in C1.
  injection C1 as <-.
  assert (E : process_method_image_exit site url d =
              (Ok (ex, map (entry_of site) (shown (site url) :: rest)), d')).
  { unfold process_method_image_exit; rewrite (bind_ok _ _ _ _ _ E1).
    exact E'. }
  exists ex, rest, d'; conjuncts; auto.
  - exact (process_method_image_of_exit site url d d' _ E).
  - cbn [length] in Lp; lia.
  - replace (clicks d) with (clicks d1) by apply S1.
    cbn [length] in *; lia.
Qed.


(** X10: a listing of at most ten pages whose papers all extract, whose
    pages but the last have a clickable next control and whose pages show
    no disabled marker is harvested in full: one entry per page, in the
    order of the pages, after one click per page but the last; the loop
    ends at the timeout of the wait for the control on the last page. *)
Theorem unmarked_listing_harvested (url : pystr) (d : driver)
    (init : list page) (last : page) :
  driver_ok d -> site url = listing (init ++ [last]) ->
  length init <= 9 ->
  Forall (fun p => clean site p = true) (init ++ [last]) ->
  Forall (fun p => next_clickable p = true) init ->
  Forall (fun p => next_disabled p = false) (tl (init ++ [last])) ->
  next_clickable last = false ->
  exists d',
    process_method_image_exit site url d =
      (Ok (NoNext, map (entry_of site) (init ++ [last])), d') /\
    process_method_image site url d =
      (Ok (map (entry_of site) (init ++ [last])), d') /\
    clicks d' = clicks d + length init.
Proof.
  intros OK Es Ln Cl Ck Di Nl.
  destruct (listing_without_marker site url d init last OK Es Ln Cl Ck Di Nl)
    as (d' & E & K).
  exists d'; split; [exact E|]; split; [|exact K].
  exact (process_method_image_of_exit site url d d' _ E).
Qed.

(** *** The strings of the entries *)

Lemma harvest_trimmed (urls : list pystr) :
  forall e, entry_trimmed e -> entry_trimmed (harvest site urls e).
Proof.
  induction urls as [|url urls IH]; intros e T; cbn [harvest]; [exact T|].
  unfold extracts.
  destruct (paper_abstract (shown (site url))) as [[[te|]|]|]; try exact T.
  destruct (paper_title (shown (site url))) as [[ti|]|]; try exact T.
  apply IH; destruct T as (T1 & T2); split; cbn [append_text append_title
    title text]; apply Forall_app; split; auto;
    repeat constructor; apply strip_idem.
Qed.

Lemma entry_of_trimmed (p : page) : entry_trimmed (entry_of site p).
Proof.
  assert (E : entry_trimmed empty_entry) by (split; constructor).
  unfold entry_of; destruct (black_links p); [exact E|].
  destruct (collect_urls _ _); [|exact E].
  apply harvest_trimmed, E.
Qed.

(** X11: every title and every abstract that the harvester returns is
    trimmed: it has no white space at its start or at its end. *)
Theorem harvested_strings_trimmed (url : pystr) (d : driver) :
  driver_ok d ->
  exists r d',
    process_method_image site url d = (Ok r, d') /\
    Forall entry_trimmed r.
Proof.
  intros OK; destruct (process_method_image_pages url d OK)
    as (ex & rest & d' & _ & E & _).
  eexists _, d'; split; [exact E|].
  rewrite Forall_forall; intros e He; apply in_map_iff in He.
  destruct He as (p & <- & _); apply entry_of_trimmed.
Qed.

End BrowserCoverage.

(** ** The crawler *)

Section DictCoverage.
Import Browser.

Lemma assign_all_app (outs1 outs2 : list (pystr * list page_entry))
    (results : dict (list page_entry)) :
  assign_all (outs1 ++ outs2) results =
    assign_all outs2 (assign_all outs1 results).
Proof. apply fold_left_app. Qed.

(** A key that is not assigned keeps its value. *)
Lemma assign_all_other (k : pystr) (outs : list (pystr * list page_entry)) :
  forall results,
  ~ In k (map fst outs) ->
  dict_get k (assign_all outs results) = dict_get k results.
Proof.
  unfold assign_all; induction outs as [|[k0 v0] outs IH]; intros results N;
    cbn [fold_left fst snd]; [reflexivity|].
  rewrite IH, dict_get_set.
  - destruct (pystr_eq_dec k k0) as [->|_]; [|reflexivity].
    contradiction N; left; reflexivity.
  - intros H; apply N; right; exact H.
Qed.

(** The last assignment to a key is the one that counts. *)
Lemma assign_all_last (before after : list (pystr * list page_entry))
    (k : pystr) (r : list page_entry) (results : dict (list page_entry)) :
  ~ In k (map fst after) ->
  dict_get k (assign_all (before ++ (k, r) :: after) results) = Some r.
Proof.
  intros N; rewrite assign_all_app.
  change (assign_all ((k, r) :: after) (assign_all before results))
    with (assign_all after (dict_set k r (assign_all before results))).
  rewrite (assign_all_other k after _ N), dict_get_set.
  destruct (pystr_eq_dec k k); congruence.
Qed.



End DictCoverage.

Section TopicCoverage.
Import Browser.
Variable site : pystr -> tab.

(** The calls of the harvester that the loop over the links makes: each
    returns between one and ten entries after at most ten clicks. *)
Lemma runs_bounds (links : list pystr) (d d' : driver)
    (outs : list (pystr * list page_entry)) :
  runs site links d outs d' -> driver_ok d ->
  driver_ok d' /\ clicks d' <= clicks d + 10 * length links /\
  Forall (fun kv => sized (snd kv) /\ harvested site (fst kv) (snd kv)) outs.
Proof.
  intros R; induction R as [d|link rest d d1 d2 r outs E R IH]; intros OK.
  - split; [exact OK|]; split; [lia | constructor].
  - pose proof (driver_ok_printing [ProcessingMethodImageLink link] d OK)
      as OKp.
    destruct (process_method_image_pages site link _ OKp)
      as (ex & ps & d1' & _ & E' & OK1 & L & K).
    rewrite E in E'; injection E' as -> ->.
    destruct (IH OK1) as (OK2 & K2 & F2).
    change (clicks (printing [ProcessingMethodImageLink link] d))
      with (clicks d) in K.
    split; [exact OK2|]; split; [cbn [length]; lia|].
    constructor; [|exact F2].
    cbn [fst snd]; split.
    + unfold sized; cbn [map length]; rewrite length_map; lia.
    + exists (printing [ProcessingMethodImageLink link] d), d1'.
      split; [exact OKp | exact E].
Qed.

(** The crawler in terms of the calls of the harvester. *)
Lemma process_topic_link_runs (topic_url : pystr) (d : driver) :
  driver_ok d ->
  exists outs d',
    process_topic_link site topic_url d = (Ok (assign_all outs []), d') /\
    map fst outs =
      extracted_links (firstn 20 (method_image (shown (site topic_url)))) /\
    driver_ok d' /\ clicks d' <= clicks d + 10 * length outs /\
    Forall (fun kv => sized (snd kv) /\ harvested site (fst kv) (snd kv))
      outs.
Proof.
  intros OK.
  destruct (process_topic_link_unfold site topic_url d OK)
    as (d1 & E1 & OK1 & _ & E).
  destruct (driver_get_ok site topic_url d OK) as (d0 & t & E0 & S0 & _).
  rewrite E1 in E0; injection E0 as <-.
  assert (K1 : clicks d1 = clicks d) by apply S0.
  rewrite E; destruct (method_image (shown (site topic_url))) as [|div divs].
  - exists [], (printing [ErrorWaitingMethodImage TimeoutException] d1).
    split; [reflexivity|]; split; [reflexivity|].
    split; [apply driver_ok_printing, OK1|].
    split; [|constructor].
    change (clicks (printing [ErrorWaitingMethodImage TimeoutException] d1))
      with (clicks d1); lia.
  - set (ds := firstn 20 (div :: divs)).
    pose proof (driver_ok_printing (flat_map link_error ds) d1 OK1) as OKp.
    destruct (harvest_links_spec site (extracted_links ds) [] _ OKp)
      as (outs & d' & E' & R' & M' & _ & _).
    destruct (runs_bounds _ _ _ _ R' OKp) as (OK' & K' & F').
    exists outs, d'; split; [exact E'|]; split; [exact M'|].
    split; [exact OK'|]; split; [|exact F'].
    change (clicks (printing (flat_map link_error ds) d1))
      with (clicks d1) in K'.
    rewrite <- (length_map fst outs), M'; lia.
Qed.

(** X12: the crawler calls the harvester once for every extracted link of
    the first 20 containers, also when a link occurs more than once, and
    the mapping keeps one value per link: that of the last call on it. *)
Theorem repeated_link_keeps_last (topic_url : pystr) (d : driver) :
  driver_ok d ->
  exists outs results d',
    process_topic_link site topic_url d = (Ok results, d') /\
    map fst outs =
      extracted_links (firstn 20 (method_image (shown (site topic_url)))) /\
    Forall (fun kv => harvested site (fst kv) (snd kv)) outs /\
    (forall k, In k (keys results) <-> In k (map fst outs)) /\
    forall before k r after,
      outs = before ++ (k, r) :: after -> ~ In k (map fst after) ->
      dict_get k results = Some r.
Proof.
  intros OK; destruct (process_topic_link_runs topic_url d OK)
    as (outs & d' & E & M & _ & _ & F).
  exists outs, (assign_all outs []), d'.
  split; [exact E|]; split; [exact M|]; split; [|split].
  - revert F; apply Forall_impl; intros kv H; apply H.
  - intros k; destruct (assign_all_spec outs [] (NoDup_nil _)) as (_ & Hk & _).
    rewrite Hk; cbn; tauto.
  - intros before k r after -> N; apply assign_all_last, N.
Qed.


Lemma absolute_http (href : pystr) :
  startswith (str "http") (absolute href) = true.
Proof.
  unfold absolute; destruct (startswith (str "http") href) eqn:E;
    [exact E | vm_compute; reflexivity].
Qed.

(** X14: every key of the mapping that the crawler returns is an absolute
    URL: it starts with http, as the link of the page does or because the
    site origin has been put before it. *)
Theorem result_keys_absolute (topic_url : pystr) (d : driver) :
  driver_ok d ->
  exists results d',
    process_topic_link site topic_url d = (Ok results, d') /\
    Forall (fun k => startswith (str "http") k = true) (keys results).
Proof.
  intros OK; destruct (process_topic_link_runs topic_url d OK)
    as (outs & d' & E & M & _).
  exists (assign_all outs []), d'; split; [exact E|].
  destruct (assign_all_spec outs [] (NoDup_nil _)) as (_ & Hk & _).
  rewrite Forall_forall; intros k Hi; apply Hk in Hi.
  destruct Hi as [Hi|[]]; rewrite M in Hi.
  apply in_extracted_links in Hi; destruct Hi as (href & _ & ->).
  apply absolute_http.
Qed.

End TopicCoverage.

(** ** The run of the program *)

Section MainCoverage.
Import Static Browser Json Main.
Variable site : pystr -> tab.

Lemma summarised_link (fc : option pystr * card) (t : topic_summary) :
  summarises fc t -> ts_topic_link t <> [].
Proof.
  intros (field & name & href & _ & _ & _ & _ & _ & Hl); rewrite Hl.
  destruct (BASE_URL ++ href) eqn:E; [vm_compute in E|]; discriminate.
Qed.

Lemma fetched_links (w : web) (infos : list topic_summary)
    (rows : list method_row) (printed : list line) :
  fetch_initial_data w = (Ok (infos, rows), printed) ->
  Forall (fun t => ts_topic_link t <> []) infos.
Proof.
  intros E; destruct (fetch_initial_data_ok w infos rows printed E) as (F2 & _).
  clear E; induction F2 as [|fc t l l' H F2 IH]; constructor;
    [exact (summarised_link fc t H) | exact IH].
Qed.

(** The loop over the topics: one call of [process_topic_link] per
    summary, the result stored under the link of the summary. *)
Lemma crawl_topics_keys (items : list topic_summary) :
  forall index overall d,
  driver_ok d -> Forall (fun t => ts_topic_link t <> []) items ->
  exists overall' d',
    crawl_topics site index items overall d = (Ok overall', d') /\
    driver_ok d' /\
    (forall k, In k (keys overall') <->
               In k (keys overall) \/ In k (map ts_topic_link items)) /\
    (forall k results,
       dict_get k overall' = Some results ->
       dict_get k overall = Some results \/
       In k (map ts_topic_link items) /\ crawled site k results).
Proof.
  induction items as [|item items IH]; intros index overall d OK Fl.
  - exists overall, d; split; [reflexivity|]; split; [exact OK|].
    split; [intros k; cbn; tauto | intros k results H; left; exact H].
  - inversion Fl as [|? ? Hn Fl']; subst.
    cbn [crawl_topics]; destruct (ts_topic_link item) as [|c url] eqn:El;
      [congruence|].
    unfold bind at 1; cbn [print].
    match goal with
    | |- context [bind _ _ ?d0] =>
        assert (OK0 : driver_ok d0) by exact OK;
        destruct (process_topic_link_total site (c :: url) d0 OK0)
          as (results & d1 & E1 & OK1 & _)
    end.
    unfold bind at 1; rewrite E1.
    destruct (IH (S index) (dict_set (c :: url) results overall) d1 OK1 Fl')
      as (overall' & d' & E' & OK' & Hk & Hv).
    exists overall', d'; split; [exact E'|]; split; [exact OK'|].
    cbn [map]; rewrite El; split.
    + intros k; rewrite Hk, dict_set_keys; cbn [In]; split.
      * intros [[->|H]|H]; auto.
      * intros [H|[<-|H]]; auto.
    + intros k r H; cbn [In]; destruct (Hv k r H) as [H1|[H1 H2]].
      * rewrite dict_get_set in H1.
        destruct (pystr_eq_dec k (c :: url)) as [->|_]; [|left; exact H1].
        injection H1 as <-; right; split; [left; reflexivity|].
        eexists _, d1; split; [exact OK0 | exact E1].
      * right; split; [right; exact H1 | exact H2].
Qed.

(** X15: the run ends the way the fetch ends.  When the fetch raises, the
    exception leaves the program before the driver is created: there is no
    document, no file, and the output is that of the fetch.  When the
    fetch returns, nothing that the pages show to the driver makes the run
    fail: it ends normally, it has built its document from the summaries
    and rows of the fetch, and its output ends with the completion
    line. *)
Theorem run_ends_as_fetch (w : web) (writable : bool) :
  match fetch_initial_data w with
  | (Raise e, printed) =>
      main site w writable =
        {| ended := Raise e; document := None; file := None;
           output := printed |}
  | (Ok (infos, rows), printed) =>
      ended (main site w writable) = Ok tt /\
      (exists overall,
         document (main site w writable) =
           Some (final_data infos rows overall)) /\
      exists lines,
        output (main site w writable) = lines ++ [ScrapingCompleted]
  end.
Proof.
  unfold main.
  destruct (fetch_initial_data w) as [[[infos rows]|e] printed];
    [|reflexivity].
  destruct (crawl_topics_total site infos 0 []
              (printing printed setup_driver)
              (driver_ok_printing printed _ setup_driver_ok)
              (NoDup_nil _) (Forall_nil _))
    as (overall & d' & Ec & _).
  rewrite Ec; cbn [ended document output].
  split; [reflexivity|]; split; [exists overall; reflexivity|].
  eexists; rewrite app_assoc; reflexivity.
Qed.

(** X16: when the fetch returns, the detailed results of the document have
    exactly the topic links of the summaries as their keys, and the value
    under a link is the mapping that a call of [process_topic_link] on
    this link has returned: every summary has its detailed results, and
    the branch for a missing topic link is never taken. *)
Theorem every_topic_crawled (w : web) (writable : bool)
    (infos : list topic_summary) (rows : list method_row)
    (printed : list line) :
  fetch_initial_data w = (Ok (infos, rows), printed) ->
  exists overall,
    document (main site w writable) = Some (final_data infos rows overall) /\
    (forall k, In k (keys overall) <-> In k (map ts_topic_link infos)) /\
    (forall k results,
       dict_get k overall = Some results -> crawled site k results).
Proof.
  intros Ef; unfold main; rewrite Ef.
  destruct (crawl_topics_keys infos 0 [] (printing printed setup_driver)
              (driver_ok_printing printed _ setup_driver_ok)
              (fetched_links w infos rows printed Ef))
    as (overall & d' & Ec & _ & Hk & Hv).
  rewrite Ec; cbn [document].
  exists overall; split; [reflexivity|]; split.
  - intros k; rewrite Hk; cbn; tauto.
  - intros k results H; destruct (Hv k results H) as [H1|[_ H1]];
      [discriminate | exact H1].
Qed.

(** X17: a save that fails is not fatal and is not retried: when the file
    cannot be written, the run prints the error of the save and then the
    completion line, and ends normally without a file, although the
    document has been built. *)
Theorem failed_save_not_fatal (w : web) (infos : list topic_summary)
    (rows : list method_row) (printed : list line) :
  fetch_initial_data w = (Ok (infos, rows), printed) ->
  ended (main site w false) = Ok tt /\
  file (main site w false) = None /\
  (exists overall,
     document (main site w false) = Some (final_data infos rows overall)) /\
  exists lines,
    output (main site w false) =
      lines ++ [ErrorSavingResults; ScrapingCompleted].
Proof.
  intros Ef; unfold main; rewrite Ef.
  destruct (crawl_topics_total site infos 0 []
              (printing printed setup_driver)
              (driver_ok_printing printed _ setup_driver_ok)
              (NoDup_nil _) (Forall_nil _))
    as (overall & d' & Ec & _).
  rewrite Ec; cbn [ended document file output save_results andb fst snd].
  split; [reflexivity|]; split; [reflexivity|].
  split; [exists overall; reflexivity|].
  exists (stdout d'); reflexivity.
Qed.

End MainCoverage.

(** ** The further properties on concrete inputs *)

Section CoverageRuns.
Import Static Browser Main BrowserExamples MoreExamples.

Lemma link_without_href_empties_page_witness :
  black_links page_gap = [Some (str "/paper/b"); None] /\
  process_black_links site (on_page page_gap) =
    (Ok empty_entry,
     printing [ErrorProcessingBlackLinks AttributeError] (on_page page_gap)).
Proof.
  split; [reflexivity|].
  apply (link_without_href_empties_page site (on_page page_gap)
           (single page_gap)).
  - reflexivity.
  - right; left; reflexivity.
Defined.

Lemma clean_page_harvested_witness :
  entry_of_papers site (map absolute [str "/paper/b"]) = entry_b /\
  exists d',
    process_black_links site (on_page page_b) =
      (Ok (entry_of_papers site (map absolute [str "/paper/b"])), d') /\
    windows d' = windows (on_page page_b) /\
    current_window_handle d' = current_window_handle (on_page page_b).
Proof.
  split; [vm_compute; reflexivity|].
  apply (clean_page_harvested site (on_page page_b) (single page_b)
           [str "/paper/b"]).
  - apply on_page_ok.
  - reflexivity.
  - discriminate.
  - reflexivity.
  - vm_compute; reflexivity.
Defined.

Lemma failed_extraction_leaves_tab_witness :
  exists e d' h,
    process_black_links site
      (on_page (listing_page ["/paper/a"%string; "/paper/b"%string]
                  true false)) = (Ok e, d') /\
    length (title e) = 0 /\
    ~ In h [0] /\
    windows d' =
      [(0, single (listing_page ["/paper/a"%string; "/paper/b"%string]
                     true false))] ++
      [(h, site (str "https://paperswithcode.com/paper/a"))] /\
    current_window_handle d' = h.
Proof.
  apply (failed_extraction_leaves_tab site
           (on_page (listing_page ["/paper/a"%string; "/paper/b"%string]
                       true false))
           (single (listing_page ["/paper/a"%string; "/paper/b"%string]
                      true false))
           [] [str "https://paperswithcode.com/paper/b"]
           (str "https://paperswithcode.com/paper/a")).
  - apply on_page_ok.
  - reflexivity.
  - vm_compute; reflexivity.
  - reflexivity.
  - vm_compute; reflexivity.
Defined.


Lemma unmarked_listing_harvested_witness :
  exists d',
    process_method_image_exit site url_sound setup_driver =
      (Ok (NoNext, map (entry_of site) ([page_b] ++ [page_c_last])), d') /\
    process_method_image site url_sound setup_driver =
      (Ok (map (entry_of site) ([page_b] ++ [page_c_last])), d') /\
    clicks d' = clicks setup_driver + length [page_b].
Proof.
  apply (unmarked_listing_harvested site url_sound setup_driver [page_b]
           page_c_last).
  - exact setup_driver_ok.
  - vm_compute; reflexivity.
  - cbn [length]; lia.
  - repeat constructor; vm_compute; reflexivity.
  - repeat constructor.
  - repeat constructor.
  - reflexivity.
Defined.

Lemma harvested_strings_trimmed_witness :
  exists r d',
    process_method_image site url_sound setup_driver = (Ok r, d') /\
    Forall entry_trimmed r.
Proof.
  exact (harvested_strings_trimmed site url_sound setup_driver
           setup_driver_ok).
Defined.

Lemma repeated_link_keeps_last_witness :
  extracted_links (firstn 20 (method_image (shown (site_twice url_twice)))) =
    [url_sound; url_sound] /\
  exists outs results d',
    process_topic_link site_twice url_twice setup_driver = (Ok results, d') /\
    map fst outs =
      extracted_links
        (firstn 20 (method_image (shown (site_twice url_twice)))) /\
    Forall (fun kv => harvested site_twice (fst kv) (snd kv)) outs /\
    (forall k, In k (keys results) <-> In k (map fst outs)) /\
    forall before k r after,
      outs = before ++ (k, r) :: after -> ~ In k (map fst after) ->
      dict_get k results = Some r.
Proof.
  split; [vm_compute; reflexivity|].
  exact (repeated_link_keeps_last site_twice url_twice setup_driver
           setup_driver_ok).
Defined.


Lemma result_keys_absolute_witness :
  exists results d',
    process_topic_link site url_topic setup_driver = (Ok results, d') /\
    Forall (fun k => startswith (str "http") k = true) (keys results).
Proof.
  exact (result_keys_absolute site url_topic setup_driver setup_driver_ok).
Defined.

Lemma every_topic_crawled_witness :
  exists infos rows printed overall,
    fetch_initial_data Examples.web_good = (Ok (infos, rows), printed) /\
    map ts_topic_link infos = [url_topic] /\
    document (main site Examples.web_good true) =
      Some (final_data infos rows overall) /\
    (forall k, In k (keys overall) <-> In k (map ts_topic_link infos)) /\
    (forall k results,
       dict_get k overall = Some results -> crawled site k results).
Proof.
  assert (E : exists infos rows printed,
            fetch_initial_data Examples.web_good =
              (Ok (infos, rows), printed) /\
            map ts_topic_link infos = [url_topic]).
  { eexists _, _, _; split; vm_compute; reflexivity. }
  destruct E as (infos & rows & printed & E & L).
  destruct (every_topic_crawled site Examples.web_good true infos rows
              printed E) as (overall & H).
  exists infos, rows, printed, overall; split; [exact E|]; split; [exact L|].
  exact H.
Defined.

Lemma failed_save_not_fatal_witness :
  ended (main site Examples.web_good false) = Ok tt /\
  file (main site Examples.web_good false) = None /\
  exists lines,
    output (main site Examples.web_good false) =
      lines ++ [ErrorSavingResults; ScrapingCompleted].
Proof.
  assert (E : exists infos rows printed,
            fetch_initial_data Examples.web_good =
              (Ok (infos, rows), printed)).
  { eexists _, _, _; vm_compute; reflexivity. }
  destruct E as (infos & rows & printed & E).
  destruct (failed_save_not_fatal site Examples.web_good infos rows printed E)
    as (H1 & H2 & _ & H3).
  split; [exact H1|]; split; [exact H2 | exact H3].
Defined.

End CoverageRuns.
